(** * ConferenceRoomDisplay: the token manager and the appointment pipeline
      of [server.js], embedded and verified.

    The server keeps one [TokenManager] object, persists it to
    [tokens.json], refreshes the access token against the Daylite refresh
    endpoint and serves [/api/appointments].  Asynchronous functions are
    embedded as trees of effects ([Prog]): the same tree is run to
    completion against a scripted upstream ([run]) and interleaved with
    other pending calls at its [await] points ([step]).

    Tokens and the string properties of JSON documents are strings, [null]
    or [undefined]; [expires_in] is an integer or absent; times are
    integers, in milliseconds.  What the JavaScript runtime is left to
    decide ([Date.parse], [toISOString], [toLocaleTimeString]) is a
    variable of the development.  Console output, the static routes and
    the body of the search request are not represented. *)

From Stdlib Require Import ZArith List String Ascii Bool Lia DecimalString.
Import ListNotations.
Local Open Scope string_scope.
Local Open Scope Z_scope.

(** ** JavaScript values the program handles *)

(** Tokens, environment variables and the string fields of JSON documents:
    a string, [null], or [undefined] (a property that is not there). *)
Inductive jsval : Type :=
| Undefined
| Null
| Str (s : string).

(** ToBoolean: [undefined], [null] and the empty string are falsy. *)
Definition truthy (v : jsval) : bool :=
  match v with
  | Str s => negb (s =? "")%string
  | _ => false
  end.

(** [a || b] *)
Definition js_or (a b : jsval) : jsval := if truthy a then a else b.
Infix "|||" := js_or (at level 50, left associativity).

(** ToString, as a template literal applies it. *)
Definition to_string (v : jsval) : string :=
  match v with
  | Undefined => "undefined"
  | Null => "null"
  | Str s => s
  end.

(** [s.includes(sub)] *)
Definition includes (s sub : string) : bool :=
  match String.index 0 sub s with
  | Some _ => true
  | None => false
  end.

(** [data.expires_in || 3600] on an optional integer: absent and [0] are
    both falsy. *)
Definition num_or (n : option Z) (d : Z) : Z :=
  match n with
  | Some v => if v =? 0 then d else v
  | None => d
  end.

(** ** Date objects *)

(** A Date holds a time value in milliseconds since the epoch, at most
    8.64e15 in absolute value, or NaN (an Invalid Date). *)
Inductive Date : Type :=
| DateOf (t : Z)
| InvalidDate.

Definition max_time : Z := 8640000000000000.

Definition representable (t : Z) : Prop := Z.abs t <= max_time.

(** [new Date(number)]: TimeClip. *)
Definition TimeClip (t : Z) : Date :=
  if Z.abs t <=? max_time then DateOf t else InvalidDate.

Arguments TimeClip t : simpl never.

(** [a <= b] and [a > b] on Date objects: both sides become numbers, and
    every comparison with NaN is false. *)
Definition date_le (a b : Date) : bool :=
  match a, b with
  | DateOf x, DateOf y => x <=? y
  | _, _ => false
  end.

Definition date_gt (a b : Date) : bool :=
  match a, b with
  | DateOf x, DateOf y => y <? x
  | _, _ => false
  end.

(** ** Errors *)

(** The four [throw new Error(...)] of [server.js], and the errors the
    runtime raises (a rejected [fetch], a body that is not JSON, a failed
    file operation, a RangeError or TypeError), with their message. *)
Inductive Error : Type :=
| NoTokensAvailable
| NoRefreshTokenAvailable
| FailedToRefresh (status : N) (errorText : string)
| Unauthorized401
| RuntimeError (msg : string).

Definition status_text (status : N) : string :=
  NilZero.string_of_uint (N.to_uint status).

Definition message (e : Error) : string :=
  match e with
  | NoTokensAvailable =>
      "No tokens available. Please provide DAYLITE_ACCESS_TOKEN or DAYLITE_REFRESH_TOKEN in environment variables"
  | NoRefreshTokenAvailable => "No refresh token available"
  | FailedToRefresh status errorText =>
      "Failed to refresh token: " ++ status_text status ++ " - " ++ errorText
  | Unauthorized401 => "401 Unauthorized - Token may have expired"
  | RuntimeError msg => msg
  end.

(** ** The token manager's data *)

Record TokenManager : Type := {
  accessToken : jsval;
  refreshToken : jsval;
  tokenExpiry : option Date   (* [null] or a Date object *)
}.

Definition set_accessToken (v : jsval) (this : TokenManager) : TokenManager :=
  {| accessToken := v; refreshToken := refreshToken this; tokenExpiry := tokenExpiry this |}.
Definition set_refreshToken (v : jsval) (this : TokenManager) : TokenManager :=
  {| accessToken := accessToken this; refreshToken := v; tokenExpiry := tokenExpiry this |}.
Definition set_tokenExpiry (d : option Date) (this : TokenManager) : TokenManager :=
  {| accessToken := accessToken this; refreshToken := refreshToken this; tokenExpiry := d |}.

(** [process.env] *)
Record Env : Type := {
  DAYLITE_ACCESS_TOKEN : jsval;
  DAYLITE_REFRESH_TOKEN : jsval
}.

(** [constructor()] *)
Definition new_TokenManager (env : Env) : TokenManager :=
  {| accessToken := Null;
     refreshToken := DAYLITE_REFRESH_TOKEN env ||| Null;
     tokenExpiry := None |}.

(** The JSON document of [tokens.json].  [JSON.stringify] leaves out a
    property whose value is [undefined], and reading a property that is
    not there gives [undefined], so a document is its three properties. *)
Record TokensJson : Type := {
  json_accessToken : jsval;
  json_refreshToken : jsval;
  json_tokenExpiry : jsval
}.

(** [tokens.json] on disk: not there, not readable, holding something
    [JSON.parse] rejects (or parses to [null]), or holding a document. *)
Inductive TokenFile : Type :=
| Missing
| Unreadable
| Garbled
| Stored (tokens : TokensJson).

(** ** The upstream API *)

Record ContactRef : Type := { contact : jsval }.

(** One element of [data.results]. *)
Record ApptRecord : Type := {
  utc_start : jsval;
  utc_end : jsval;
  resources : option (list string);      (* [None]: not there *)
  contacts : option (list ContactRef);   (* [None]: not an array *)
  title : jsval
}.

(** A parsed response body, seen through the properties the server reads
    from it. *)
Record Json : Type := {
  access_token : jsval;
  token : jsval;
  refresh_token : jsval;
  expires_in : option Z;
  results : option (list ApptRecord);
  first_name : jsval
}.

Record Response : Type := {
  status : N;
  text : string;            (* what [response.text()] resolves to *)
  json : string + Json      (* [response.json()]: a SyntaxError message or the body *)
}.

Definition ok (r : Response) : bool :=
  ((200 <=? status r) && (status r <=? 299))%N.

(** How a [fetch] settles. *)
Inductive FetchOutcome : Type :=
| NetworkError (msg : string)
| Responded (r : Response).

Inductive Method : Type := GET | POST.

(** A request put on the wire. *)
Inductive Request : Type :=
| RefreshCall (refresh_token : string)
    (* GET .../v1/personal_token/refresh_token?refresh_token=... *)
| ApiCall (m : Method) (url : string) (authorization : string).

Definition is_refresh (r : Request) : bool :=
  match r with RefreshCall _ => true | _ => false end.

Definition search_url : string :=
  "https://api.marketcircle.net/v1/appointments/_search?limit=500&full-records=true".

Definition is_search (r : Request) : bool :=
  match r with
  | ApiCall POST url _ => (url =? search_url)%string
  | _ => false
  end.

(** Lines 91-96 of [refreshAccessToken] taken together: the manager once
    the three properties are assigned from the response body [data], with
    [now] the reading of [Date.now()]. *)
Definition granted (now : Z) (data : Json) (this : TokenManager) : TokenManager :=
  set_tokenExpiry (Some (TimeClip (now + num_or (expires_in data) 3600 * 1000)))
    (set_refreshToken (refresh_token data ||| refreshToken this)
       (set_accessToken (access_token data ||| token data) this)).

(** ** Asynchronous code as a tree of effects *)

(** [DateNow], [This] and [Assign] run synchronously.  [ReadFile],
    [WriteFile] and [Fetch] start an operation and suspend until it
    settles; [Await] suspends on a value that is already there
    ([response.json()], the promise of a finished async call). *)
Inductive Prog (A : Type) : Type :=
| Ret (a : A)
| Throw (e : Error)
| DateNow (k : Z -> Prog A)
| This (k : TokenManager -> Prog A)
| Assign (f : TokenManager -> TokenManager) (k : Prog A)
| ReadFile (k : TokenFile -> Prog A)
| WriteFile (tokens : TokensJson) (k : option string -> Prog A)
| Fetch (req : Request) (k : FetchOutcome -> Prog A)
| Await (k : Prog A).

Arguments Ret {A} a.
Arguments Throw {A} e.
Arguments DateNow {A} k.
Arguments This {A} k.
Arguments Assign {A} f k.
Arguments ReadFile {A} k.
Arguments WriteFile {A} tokens k.
Arguments Fetch {A} req k.
Arguments Await {A} k.

Fixpoint bind {A B : Type} (m : Prog A) (f : A -> Prog B) : Prog B :=
  match m with
  | Ret a => f a
  | Throw e => Throw e
  | DateNow k => DateNow (fun t => bind (k t) f)
  | This k => This (fun this => bind (k this) f)
  | Assign g k => Assign g (bind k f)
  | ReadFile k => ReadFile (fun c => bind (k c) f)
  | WriteFile d k => WriteFile d (fun r => bind (k r) f)
  | Fetch req k => Fetch req (fun o => bind (k o) f)
  | Await k => Await (bind k f)
  end.

(** [try { m } catch (error) { h error }] *)
Fixpoint try_catch {A : Type} (m : Prog A) (h : Error -> Prog A) : Prog A :=
  match m with
  | Ret a => Ret a
  | Throw e => h e
  | DateNow k => DateNow (fun t => try_catch (k t) h)
  | This k => This (fun this => try_catch (k this) h)
  | Assign g k => Assign g (try_catch k h)
  | ReadFile k => ReadFile (fun c => try_catch (k c) h)
  | WriteFile d k => WriteFile d (fun r => try_catch (k r) h)
  | Fetch req k => Fetch req (fun o => try_catch (k o) h)
  | Await k => Await (try_catch k h)
  end.

Notation "x <- m ;; k" := (bind m (fun x => k))
  (at level 61, m at next level, right associativity).
Notation "m ;; k" := (bind m (fun _ => k))
  (at level 61, right associativity).

Definition Date_now : Prog Z := DateNow (fun t => Ret t).
Definition this_ : Prog TokenManager := This (fun this => Ret this).
Definition assign (f : TokenManager -> TokenManager) : Prog unit := Assign f (Ret tt).
Definition fetch (req : Request) : Prog Response :=
  Fetch req (fun o =>
    match o with
    | NetworkError msg => Throw (RuntimeError msg)
    | Responded r => Ret r
    end).
(** [await p] on the promise of an async call: the caller resumes in a
    later turn. *)
Definition await {A : Type} (p : Prog A) : Prog A :=
  try_catch (x <- p ;; Await (Ret x)) (fun e => Await (Throw e)).
Arguments await {A} p : simpl never.

(** [await response.text()] *)
Definition response_text (r : Response) : Prog string := Await (Ret (text r)).
(** [await response.json()] *)
Definition response_json (r : Response) : Prog Json :=
  Await (match json r with
         | inl msg => Throw (RuntimeError msg)
         | inr data => Ret data
         end).

(** ** Running one call to completion *)

(** What the upstream answers to the next [fetch], and how long it takes. *)
Record Exchange : Type := {
  latency : Z;
  outcome : FetchOutcome
}.

(** What a rejected [fs.writeFile] leaves of the file.  The file is opened
    with flag 'w': when the open is rejected (EACCES, EROFS) the file is as
    it was; when a write is rejected after that (ENOSPC, EIO) the file has
    been created or truncated and holds at most a part of the document;
    when only the close is rejected the whole document is there. *)
Inductive Damage : Type := Untouched | Truncated | Written.

Record WriteFailure : Type := {
  reason : string;      (* the message of the rejection *)
  damage : Damage
}.

Definition after_failed_write (d : Damage) (tokens : TokensJson) (f : TokenFile)
  : TokenFile :=
  match d with
  | Untouched => f
  | Truncated => Garbled
  | Written => Stored tokens
  end.

(** The clock moves on with each exchange.  Reading and writing
    tokens.json and resuming from an [await] are given no duration here:
    a statement that depends on how long they take is made for every
    clock reading, or on the turns of [exec] below, where every turn has a
    clock of its own. *)
Record World : Type := {
  clock : Z;                       (* what [Date.now()] reads *)
  disk : TokenFile;                (* tokens.json *)
  write_error : option WriteFailure;  (* [Some failure]: [fs.writeFile] rejects *)
  network : list Exchange;         (* the upstream's next answers, in order *)
  sent : list Request;             (* requests issued so far, latest first *)
  tokenManager : TokenManager
}.

Definition with_manager (m : TokenManager) (w : World) : World :=
  {| clock := clock w; disk := disk w; write_error := write_error w;
     network := network w; sent := sent w; tokenManager := m |}.

Definition with_disk (d : TokenFile) (w : World) : World :=
  {| clock := clock w; disk := d; write_error := write_error w;
     network := network w; sent := sent w; tokenManager := tokenManager w |}.

(** The request goes out, the next scripted answer comes back and the
    clock has moved on; with no answer left the [fetch] is rejected. *)
Definition exchange (req : Request) (w : World) : FetchOutcome * World :=
  match network w with
  | [] =>
      (NetworkError "fetch failed",
       {| clock := clock w; disk := disk w; write_error := write_error w;
          network := []; sent := req :: sent w; tokenManager := tokenManager w |})
  | x :: rest =>
      (outcome x,
       {| clock := clock w + latency x; disk := disk w; write_error := write_error w;
          network := rest; sent := req :: sent w; tokenManager := tokenManager w |})
  end.

Fixpoint run {A : Type} (p : Prog A) (w : World) : (Error + A) * World :=
  match p with
  | Ret a => (inr a, w)
  | Throw e => (inl e, w)
  | DateNow k => run (k (clock w)) w
  | This k => run (k (tokenManager w)) w
  | Assign f k => run k (with_manager (f (tokenManager w)) w)
  | ReadFile k => run (k (disk w)) w
  | WriteFile tokens k =>
      match write_error w with
      | None => run (k None) (with_disk (Stored tokens) w)
      | Some failure =>
          run (k (Some (reason failure)))
            (with_disk (after_failed_write (damage failure) tokens (disk w)) w)
      end
  | Fetch req k => let (o, w') := exchange req w in run (k o) w'
  | Await k => run k w
  end.

(** ** Interleaving several calls *)

(** JavaScript runs one call at a time and switches only where a call is
    suspended.  [sync] runs a call up to its next suspension point (a
    [fetch] goes on the wire as it is reached); [resume] hands a settled
    operation to a suspended call. *)
Record Shared : Type := {
  mgr : TokenManager;
  file : TokenFile;
  wire : list Request     (* requests issued so far, latest first *)
}.

Fixpoint sync {A : Type} (now : Z) (p : Prog A) (s : Shared) : Prog A * Shared :=
  match p with
  | DateNow k => sync now (k now) s
  | This k => sync now (k (mgr s)) s
  | Assign f k => sync now k {| mgr := f (mgr s); file := file s; wire := wire s |}
  | Fetch req k => (Fetch req k, {| mgr := mgr s; file := file s; wire := req :: wire s |})
  | _ => (p, s)
  end.

Inductive Settled : Type :=
| FetchSettled (o : FetchOutcome)
| WriteSettled (err : option WriteFailure)
| ReadSettled
| Resumed.

Definition resume {A : Type} (io : Settled) (p : Prog A) (s : Shared)
  : option (Prog A * Shared) :=
  match p, io with
  | Fetch _ k, FetchSettled o => Some (k o, s)
  | WriteFile tokens k, WriteSettled None =>
      Some (k None, {| mgr := mgr s; file := Stored tokens; wire := wire s |})
  | WriteFile tokens k, WriteSettled (Some failure) =>
      Some (k (Some (reason failure)),
            {| mgr := mgr s; file := after_failed_write (damage failure) tokens (file s);
               wire := wire s |})
  | ReadFile k, ReadSettled => Some (k (file s), s)
  | Await k, Resumed => Some (k, s)
  | _, _ => None
  end.

Inductive Event : Type :=
| Call (now : Z)                             (* a new caller enters *)
| Settle (i : nat) (now : Z) (io : Settled). (* the pending operation of call [i] settles *)

Record System (A : Type) : Type := {
  shared : Shared;
  calls : list (Prog A)     (* every call made so far, oldest first *)
}.
Arguments shared {A} s.
Arguments calls {A} s.

Fixpoint set_nth {A : Type} (i : nat) (x : A) (l : list A) : list A :=
  match l, i with
  | [], _ => []
  | _ :: rest, O => x :: rest
  | y :: rest, S j => y :: set_nth j x rest
  end.

(** One turn of the event loop; an event that matches no suspended call
    changes nothing. *)
Definition step {A : Type} (entry : Prog A) (ev : Event) (sys : System A) : System A :=
  match ev with
  | Call now =>
      let (p, s) := sync now entry (shared sys) in
      {| shared := s; calls := (calls sys ++ [p])%list |}
  | Settle i now io =>
      match nth_error (calls sys) i with
      | None => sys
      | Some p =>
          match resume io p (shared sys) with
          | None => sys
          | Some (p', s') =>
              let (p'', s'') := sync now p' s' in
              {| shared := s''; calls := set_nth i p'' (calls sys) |}
          end
      end
  end.

Definition exec {A : Type} (entry : Prog A) (evs : list Event) (sys : System A) : System A :=
  fold_left (fun s ev => step entry ev s) evs sys.

Definition boot {A : Type} (m : TokenManager) (f : TokenFile) : System A :=
  {| shared := {| mgr := m; file := f; wire := [] |}; calls := [] |}.

Definition refresh_calls (l : list Request) : nat :=
  List.length (filter is_refresh l).

(** ** A runtime to compute with *)

(** A concrete [toISOString], and a [Date.parse] that accepts exactly the
    strings [toISOString] produces (ECMAScript leaves every other format
    to the implementation), in UTC. *)
Module Iso8601.

(** Day number since 1970-01-01 to (year, month, day). *)
Definition civil_from_days (z : Z) : Z * Z * Z :=
  let z := z + 719468 in
  let era := z / 146097 in
  let doe := z mod 146097 in
  let yoe := (doe - doe / 1460 + doe / 36524 - doe / 146096) / 365 in
  let doy := doe - (365 * yoe + yoe / 4 - yoe / 100) in
  let mp := (5 * doy + 2) / 153 in
  let d := doy - (153 * mp + 2) / 5 + 1 in
  let m := if mp <? 10 then mp + 3 else mp - 9 in
  let y := yoe + era * 400 in
  (if m <=? 2 then y + 1 else y, m, d).

Definition days_from_civil (y m d : Z) : Z :=
  let y := if m <=? 2 then y - 1 else y in
  let era := y / 400 in
  let yoe := y - era * 400 in
  let doy := (153 * (if 2 <? m then m - 3 else m + 9) + 2) / 5 + d - 1 in
  let doe := yoe * 365 + yoe / 4 - yoe / 100 + doy in
  era * 146097 + doe - 719468.

Definition digit (n : Z) : ascii := ascii_of_nat (48 + Z.to_nat n).

Fixpoint digits (width : nat) (n : Z) : string :=
  match width with
  | O => ""
  | S w => digits w (n / 10) ++ String (digit (n mod 10)) ""
  end.

Definition year_text (y : Z) : string :=
  if (0 <=? y) && (y <=? 9999) then digits 4 y
  else (if y <? 0 then "-" else "+") ++ digits 6 (Z.abs y).

Definition toISOString (t : Z) : string :=
  let ms := t mod 86400000 in
  let '(y, m, d) := civil_from_days (t / 86400000) in
  year_text y ++ "-" ++ digits 2 m ++ "-" ++ digits 2 d ++ "T"
    ++ digits 2 (ms / 3600000) ++ ":" ++ digits 2 (ms / 60000 mod 60) ++ ":"
    ++ digits 2 (ms / 1000 mod 60) ++ "." ++ digits 3 (ms mod 1000) ++ "Z".

Fixpoint number (s : string) (acc : Z) : option Z :=
  match s with
  | EmptyString => Some acc
  | String c rest =>
      let n := Z.of_nat (nat_of_ascii c) - 48 in
      if (0 <=? n) && (n <=? 9) then number rest (10 * acc + n) else None
  end.

Definition field (s : string) (pos len : nat) : Z :=
  match number (substring pos len s) 0 with
  | Some n => n
  | None => 0
  end.

Definition Date_parse (s : string) : option Z :=
  let '(sign, body, w) :=
    match s with
    | String "+" rest => (1, rest, 6%nat)
    | String "-" rest => (-1, rest, 6%nat)
    | _ => (1, s, 4%nat)
    end in
  let t :=
    days_from_civil (sign * field body 0 w) (field body (w + 1) 2) (field body (w + 4) 2)
      * 86400000
    + field body (w + 7) 2 * 3600000 + field body (w + 10) 2 * 60000
    + field body (w + 13) 2 * 1000 + field body (w + 16) 3 in
  if (toISOString t =? s)%string then Some t else None.

(** Hour and minute on a 12-hour clock, as the en-US locale prints them. *)
Definition toLocaleTimeString (d : Date) : string :=
  match d with
  | InvalidDate => "Invalid Date"
  | DateOf t =>
      let h := t mod 86400000 / 3600000 in
      let h12 := if h mod 12 =? 0 then 12 else h mod 12 in
      (if h12 <? 10 then digits 1 h12 else digits 2 h12) ++ ":"
        ++ digits 2 (t mod 3600000 / 60000) ++ (if h <? 12 then " AM" else " PM")
  end.

End Iso8601.

(** ** Appointments and replies *)

Record Appointment : Type := {
  start : Date;
  end_ : Date;
  names : list string;
  room : string;
  appt_title : jsval
}.

(** An element of the array [/api/appointments] answers with. *)
Record Shown : Type := {
  appt : Appointment;
  status' : string;
  minutesUntilStart : option Z;     (* [None]: NaN *)
  formattedStartTime : string;
  formattedEndTime : string
}.

Inductive Reply : Type :=
| Json200 (body : list Shown)
| Error500.

Inductive Startup : Type :=
| Listening
| Exit (code : Z).

(** ** What the token test script reports *)

(** What the script prints for the .env file, and whether the call that
    tries the new access token was answered with a 2xx status ([None]: the
    call was not made). *)
Record Advice : Type := {
  advised_access_token : string;
  advised_refresh_token : string;
  access_token_works : option bool
}.

(** The script ends in [process.exit(code)] or runs to its end. *)
Inductive ScriptEnd : Type :=
| ScriptExit (code : Z)
| ScriptDone (advice : Advice).

Definition test_url : string := "https://api.marketcircle.net/v1/appointments?limit=1".

(** ** Scenarios *)

(** Managers, upstream answers and worlds the statements below are
    evaluated on; the clock starts at 2026-11-01T00:00:00.000Z. *)
Module Scenario.

Definition now0 : Z := 1793491200000.

Definition grant (access refresh : jsval) (expires : option Z) : Json :=
  {| access_token := access; token := Undefined; refresh_token := refresh;
     expires_in := expires; results := None; first_name := Undefined |}.

Definition found (l : list ApptRecord) : Json :=
  {| access_token := Undefined; token := Undefined; refresh_token := Undefined;
     expires_in := None; results := Some l; first_name := Undefined |}.

(** A 200 response with a JSON body, 200 ms after the request. *)
Definition answers (data : Json) : Exchange :=
  {| latency := 200;
     outcome := Responded {| status := 200; text := "{}"; json := inr data |} |}.

(** A response with an error status and a plain-text body. *)
Definition refuses (code : N) (body : string) : Exchange :=
  {| latency := 200;
     outcome := Responded {| status := code; text := body;
                             json := inl "Unexpected token in JSON" |} |}.

(** Expires in one minute: stale. *)
Definition stale : TokenManager :=
  {| accessToken := Str "a0"; refreshToken := Str "r0";
     tokenExpiry := Some (DateOf (now0 + 60000)) |}.

(** Expires in one hour: fresh. *)
Definition fresh : TokenManager :=
  {| accessToken := Str "a0"; refreshToken := Str "r0";
     tokenExpiry := Some (DateOf (now0 + 3600000)) |}.

Definition world (m : TokenManager) (d : TokenFile) (net : list Exchange) : World :=
  {| clock := now0; disk := d; write_error := None; network := net; sent := [];
     tokenManager := m |}.

Definition env_both : Env :=
  {| DAYLITE_ACCESS_TOKEN := Str "a-env"; DAYLITE_REFRESH_TOKEN := Str "r-env" |}.
Definition env_access_only : Env :=
  {| DAYLITE_ACCESS_TOKEN := Str "a-env"; DAYLITE_REFRESH_TOKEN := Undefined |}.
Definition env_refresh_only : Env :=
  {| DAYLITE_ACCESS_TOKEN := Undefined; DAYLITE_REFRESH_TOKEN := Str "r-env" |}.
Definition env_none : Env :=
  {| DAYLITE_ACCESS_TOKEN := Undefined; DAYLITE_REFRESH_TOKEN := Undefined |}.

(** Two callers enter in the same turn; the upstream answers the first
    with (a1, r1) and, once the first caller is done, the second with
    (a2, r2). *)
Definition one_caller_through (i : nat) (data : Json) : list Event :=
  [ Settle i (now0 + 200) (FetchSettled (outcome (answers data)));
    Settle i (now0 + 200) Resumed;                 (* response.json() *)
    Settle i (now0 + 201) (WriteSettled None);     (* fs.writeFile *)
    Settle i (now0 + 201) Resumed;                 (* back in refreshAccessToken *)
    Settle i (now0 + 201) Resumed ].               (* back in getValidToken *)

Definition two_callers : list Event :=
  ([Call now0; Call now0]
   ++ one_caller_through 0 (grant (Str "a1") (Str "r1") (Some 3600))
   ++ one_caller_through 1 (grant (Str "a2") (Str "r2") (Some 3600)))%list.

(** A search result with one appointment in the large room and one
    contact to look up. *)
Definition meeting : ApptRecord :=
  {| utc_start := Str "2026-11-01T00:10:00.000Z";
     utc_end := Str "2026-11-01T01:00:00.000Z";
     resources := Some ["/v1/resources/2015"];
     contacts := Some [{| contact := Str "/v1/contacts/7" |}];
     title := Str "Review" |}.

Definition contact_named (name : string) : Json :=
  {| access_token := Undefined; token := Undefined; refresh_token := Undefined;
     expires_in := None; results := None; first_name := Str name |}.

(** The upstream is down. *)
Definition w_refused : World := world stale Missing [refuses 500 "upstream down"].

(** The upstream grants a token with [expires_in] 1800, and one with
    [expires_in] 0 and no new refresh token. *)
Definition w_granted : World :=
  world stale Missing [answers (grant (Str "a1") (Str "r1") (Some 1800))].

Definition zero_grant : Json := grant (Str "a1") Undefined (Some 0).
Definition w_zero_lifetime : World := world stale Missing [answers zero_grant].

(** The API answers 401 to the search, the refresh is granted, and the
    API answers 401 again; one more answer is waiting. *)
Definition w_unauthorized_twice : World :=
  world fresh Missing
    [refuses 401 "Unauthorized"; answers (grant (Str "a1") (Str "r1") (Some 3600));
     refuses 401 "Unauthorized"; answers (found [])].

(** The API answers 401 once. *)
Definition w_unauthorized_once : World :=
  world fresh Missing
    [refuses 401 "Unauthorized"; answers (grant (Str "a1") (Str "r1") (Some 3600));
     answers (found [meeting]); answers (contact_named "Ada")].

(** Seeded from DAYLITE_ACCESS_TOKEN alone: no refresh token. *)
Definition w_no_refresh_token : World :=
  world {| accessToken := Str "a-env"; refreshToken := Null;
           tokenExpiry := Some (DateOf (now0 + 3600000)) |} Missing [].

Definition w_garbled (env : Env) : World := world (new_TokenManager env) Garbled [].

(** The disk is full: tokens.json was cut short and cannot be rewritten. *)
Definition w_disk_full : World :=
  {| clock := now0; disk := Garbled;
     write_error := Some {| reason := "ENOSPC: no space left on device, write";
                            damage := Truncated |};
     network := []; sent := []; tokenManager := new_TokenManager env_both |}.

(** tokens.json holds a token that expired ten minutes ago, and the
    upstream is down. *)
Definition expired_tokens : TokensJson :=
  {| json_accessToken := Str "a-old"; json_refreshToken := Str "r-old";
     json_tokenExpiry := Str "2026-10-31T23:50:00.000Z" |}.

Definition w_expired_file : World :=
  world (new_TokenManager env_both) (Stored expired_tokens) [refuses 500 "upstream down"].

(** tokens.json holds an expiry that is no date. *)
Definition w_undated_file : World :=
  world (new_TokenManager env_both)
    (Stored {| json_accessToken := Str "a-old"; json_refreshToken := Str "r-old";
               json_tokenExpiry := Str "soon" |}) [].

(** A token granted for 10^13 seconds. *)
Definition w_overlong : World :=
  world stale Missing [answers (grant (Str "a1") (Str "r1") (Some 10000000000000))].

Definition at_ (s e : Z) (t : string) : Appointment :=
  {| start := DateOf (now0 + s); end_ := DateOf (now0 + e); names := [];
     room := "Small"; appt_title := Str t |}.

(** Under way, starting in ten minutes, starting in an hour, over, and
    one with no valid start. *)
Definition agenda : list Appointment :=
  [ at_ (-600000) 600000 "under way";
    at_ 3600000 7200000 "in an hour";
    at_ 600000 1800000 "in ten minutes";
    at_ (-7200000) (-3600000) "over";
    {| start := InvalidDate; end_ := DateOf (now0 + 600000); names := [];
       room := "Small"; appt_title := Str "undated" |} ].

(** Seeded from DAYLITE_ACCESS_TOKEN alone, one minute before the assumed
    expiry: stale, and no refresh token. *)
Definition w_stale_no_refresh_token : World :=
  world {| accessToken := Str "a-env"; refreshToken := Null;
           tokenExpiry := Some (DateOf (now0 + 60000)) |} Missing [answers (found [])].

(** The upstream grants a token and the disk is full. *)
Definition w_grant_unsaved : World :=
  {| clock := now0; disk := Missing;
     write_error := Some {| reason := "ENOSPC: no space left on device, write";
                            damage := Truncated |};
     network := [answers (grant (Str "a1") (Str "r1") (Some 1800))]; sent := [];
     tokenManager := stale |}.

(** A day without appointments. *)
Definition w_empty_day : World := world fresh Missing [answers (found [])].

(** tokens.json holds a token that expires in an hour. *)
Definition fresh_tokens : TokensJson :=
  {| json_accessToken := Str "a-file"; json_refreshToken := Str "r-file";
     json_tokenExpiry := Str "2026-11-01T01:00:00.000Z" |}.

Definition w_fresh_file : World :=
  world (new_TokenManager env_both) (Stored fresh_tokens) [].

(** The connection to the API is refused; the text of the error holds the
    port number 401. *)
Definition refused_connection : Exchange :=
  {| latency := 5; outcome := NetworkError "connect ECONNREFUSED 10.0.0.7:401" |}.

Definition w_connection_refused : World :=
  world fresh Missing
    [refused_connection; answers (grant (Str "a1") (Str "r1") (Some 3600));
     answers (found [])].

(** The API answers the search with status 500 and a JSON body that
    describes the error. *)
Definition error_body : Json :=
  {| access_token := Undefined; token := Undefined; refresh_token := Undefined;
     expires_in := None; results := None; first_name := Undefined |}.

Definition internal_error : Response :=
  {| status := 500; text := "{}"; json := inr error_body |}.

Definition w_internal_error : World :=
  world fresh Missing [{| latency := 200; outcome := Responded internal_error |}].

(** One appointment in the large room with one contact. *)
Definition w_one_meeting : World :=
  world fresh Missing [answers (found [meeting]); answers (contact_named "Ada")].

Definition review : Appointment :=
  {| start := DateOf (now0 + 600000); end_ := DateOf (now0 + 3600000);
     names := ["Ada"]; room := "Large"; appt_title := Str "Review" |}.

(** An appointment that books both rooms, and one that books none. *)
Definition both_rooms : ApptRecord :=
  {| utc_start := Str "2026-11-01T02:00:00.000Z";
     utc_end := Str "2026-11-01T03:00:00.000Z";
     resources := Some ["/v1/resources/2015"; "/v1/resources/2016"];
     contacts := None;
     title := Str "All hands" |}.

Definition unplaced : ApptRecord :=
  {| utc_start := Str "2026-11-01T02:00:00.000Z";
     utc_end := Str "2026-11-01T03:00:00.000Z";
     resources := None;
     contacts := None;
     title := Str "Call" |}.

Definition w_two_rooms : World :=
  world fresh Missing [answers (found [meeting; both_rooms]); answers (contact_named "Ada")].

Definition w_unplaced : World :=
  world fresh Missing [answers (found [meeting; unplaced]); answers (contact_named "Ada")].

(** The test script is granted an access token and no new refresh token;
    the API then rejects the access token. *)
Definition w_script : World :=
  world (new_TokenManager env_refresh_only) Missing
    [answers (grant (Str "a1") Undefined (Some 3600)); refuses 403 "Forbidden"].

Definition script_advice : Advice :=
  {| advised_access_token := "a1"; advised_refresh_token := "r-env";
     access_token_works := Some false |}.

End Scenario.

(** ** The program *)

Section Server.

(** What the JavaScript runtime computes: [Date.parse] (a time value, or
    [None] for NaN), [toISOString] of a valid time value and
    [toLocaleTimeString('en-US', ...)]. *)
Variable Date_parse : string -> option Z.
Variable toISOString : Z -> string.
Variable toLocaleTimeString : Date -> string.

(** [process.env] *)
Variable env : Env.

(** [new Date(value)] *)
Definition new_Date (v : jsval) : Date :=
  match v with
  | Str s => match Date_parse s with
             | Some t => TimeClip t
             | None => InvalidDate
             end
  | Null => DateOf 0
  | Undefined => InvalidDate
  end.

(** *** class TokenManager *)

(** [needsRefresh()], with [now] the reading of [Date.now()]. *)
Definition needsRefresh (now : Z) (this : TokenManager) : bool :=
  match tokenExpiry this with
  | None => true
  | Some expiry =>
      let fiveMinutesFromNow := TimeClip (now + 5 * 60 * 1000) in
      date_le expiry fiveMinutesFromNow
  end.

Definition call_needsRefresh : Prog bool :=
  this <- this_ ;;
  now <- Date_now ;;
  Ret (needsRefresh now this).

(** The object [saveTokens] serialises; [toISOString] throws a
    RangeError on an Invalid Date. *)
Definition tokens_of (this : TokenManager) : Error + TokensJson :=
  match tokenExpiry this with
  | Some InvalidDate => inl (RuntimeError "Invalid time value")
  | Some (DateOf t) =>
      inr {| json_accessToken := accessToken this;
             json_refreshToken := refreshToken this;
             json_tokenExpiry := Str (toISOString t) |}
  | None =>
      inr {| json_accessToken := accessToken this;
             json_refreshToken := refreshToken this;
             json_tokenExpiry := Null |}
  end.

Arguments tokens_of this : simpl never.

Definition saveTokens : Prog unit :=
  this <- this_ ;;
  match tokens_of this with
  | inl e => Throw e
  | inr tokens =>
      WriteFile tokens (fun r =>
        match r with
        | None => Ret tt
        | Some msg => Throw (RuntimeError msg)
        end)
  end.

Definition refreshAccessToken : Prog unit :=
  this <- this_ ;;
  if negb (truthy (refreshToken this)) then Throw NoRefreshTokenAvailable
  else
    try_catch
      (let tokenUrl := RefreshCall (to_string (refreshToken this)) in
       response <- fetch tokenUrl ;;
       (if negb (ok response) then
          errorText <- response_text response ;;
          Throw (FailedToRefresh (status response) errorText)
        else Ret tt) ;;
       data <- response_json response ;;
       assign (set_accessToken (access_token data ||| token data)) ;;
       assign (fun this => set_refreshToken (refresh_token data ||| refreshToken this) this) ;;
       let expiresIn := num_or (expires_in data) 3600 in
       now <- Date_now ;;
       assign (set_tokenExpiry (Some (TimeClip (now + expiresIn * 1000)))) ;;
       await saveTokens)
      (fun error => Throw error).

(** [fs.readFile] followed by [JSON.parse] and the first property read
    (lines 27-29): each can throw. *)
Definition read_tokens : Prog TokensJson :=
  ReadFile (fun f =>
    match f with
    | Missing => Throw (RuntimeError "ENOENT: no such file or directory, open 'tokens.json'")
    | Unreadable => Throw (RuntimeError "EACCES: permission denied, open 'tokens.json'")
    | Garbled => Throw (RuntimeError "Unexpected token in JSON")
    | Stored tokens => Ret tokens
    end).

(** The [catch] block of [initialize]. *)
Definition seed_or_refresh : Prog unit :=
  if truthy (DAYLITE_ACCESS_TOKEN env) then
    assign (set_accessToken (DAYLITE_ACCESS_TOKEN env)) ;;
    now <- Date_now ;;
    assign (set_tokenExpiry (Some (TimeClip (now + 60 * 60 * 1000)))) ;;
    await saveTokens
  else
    this <- this_ ;;
    if truthy (refreshToken this) then await refreshAccessToken
    else Throw NoTokensAvailable.

(** Lines 27-31 of [initialize]: the persisted tokens are read into
    the manager. *)
Definition load_tokens : Prog unit :=
  tokens <- read_tokens ;;
  assign (set_accessToken (json_accessToken tokens)) ;;
  assign (fun this => set_refreshToken (json_refreshToken tokens ||| refreshToken this) this) ;;
  assign (set_tokenExpiry
            (if truthy (json_tokenExpiry tokens)
             then Some (new_Date (json_tokenExpiry tokens))
             else None)).

Definition initialize : Prog unit :=
  try_catch
    (load_tokens ;;
     needs <- call_needsRefresh ;;
     if needs then await refreshAccessToken else Ret tt)
    (fun error => seed_or_refresh).

Definition getValidToken : Prog string :=
  needs <- call_needsRefresh ;;
  (if needs then await refreshAccessToken else Ret tt) ;;
  this <- this_ ;;
  Ret ("Bearer " ++ to_string (accessToken this)).

(** *** The appointment pipeline *)

Definition authenticatedFetch (m : Method) (url : string) : Prog Response :=
  token <- await getValidToken ;;
  response <- fetch (ApiCall m url token) ;;
  if (status response =? 401)%N then Throw Unauthorized401
  else Ret response.

(** The loop over [appt.contacts]. *)
Fixpoint contact_first_names (cs : list ContactRef) (contactFirstNames : list string)
  : Prog (list string) :=
  match cs with
  | [] => Ret contactFirstNames
  | c :: rest =>
      if truthy (contact c) then
        let contactUrl := "https://api.marketcircle.net" ++ to_string (contact c) in
        contactRes <- await (authenticatedFetch GET contactUrl) ;;
        contactData <- response_json contactRes ;;
        contact_first_names rest
          (if truthy (first_name contactData)
           then (contactFirstNames ++ [to_string (first_name contactData)])%list
           else contactFirstNames)
      else contact_first_names rest contactFirstNames
  end.

(** The loop over [results]. *)
Fixpoint collect (rs : list ApptRecord) (appointments : list Appointment)
  : Prog (list Appointment) :=
  match rs with
  | [] => Ret appointments
  | a :: rest =>
      let startTime := new_Date (utc_start a) in
      let endTime := new_Date (utc_end a) in
      room <- match resources a with
              | None => Throw (RuntimeError "Cannot read properties of undefined (reading 'join')")
              | Some r =>
                  Ret (if (String.concat "," r =? "/v1/resources/2015")%string
                       then "Large" else "Small")
              end ;;
      contactFirstNames <- match contacts a with
                           | Some cs => contact_first_names cs []
                           | None => Ret []
                           end ;;
      collect rest
        (appointments ++
         [{| start := startTime; end_ := endTime; names := contactFirstNames;
             room := room; appt_title := title a ||| Str "" |}])%list
  end.

(** The search request's body (today's bounds) is not represented. *)
Definition getAppointmentsForToday : Prog (list Appointment) :=
  res <- await (authenticatedFetch POST search_url) ;;
  data <- response_json res ;;
  let results := match results data with Some l => l | None => [] end in
  collect results [].

Definition thirty_minutes : Z := 30 * 60 * 1000.

(** The predicate of the [filter] call, with [now] the reading of the
    clock at the top of [filterRelevantAppointments]. *)
Definition relevant (now : Z) (a : Appointment) : bool :=
  let thirtyMinutesFromNow := TimeClip (now + thirty_minutes) in
  let startsWithin30Min :=
    date_gt (start a) (DateOf now) && date_le (start a) thirtyMinutesFromNow in
  let currentlyInProgress :=
    date_le (start a) (DateOf now) && date_gt (end_ a) (DateOf now) in
  startsWithin30Min || currentlyInProgress.

(** [Math.round((startTime - now) / (1000 * 60))]: halves round up. *)
Definition minutes_between (startTime : Date) (now : Z) : option Z :=
  match startTime with
  | DateOf s => Some ((s - now + 30000) / 60000)
  | InvalidDate => None
  end.

(** The function of the [map] call, with [now] its own reading of the
    clock. *)
Definition show (now : Z) (a : Appointment) : Shown :=
  if date_le (start a) (DateOf now) && date_gt (end_ a) (DateOf now) then
    {| appt := a; status' := "in-progress"; minutesUntilStart := Some 0;
       formattedStartTime := toLocaleTimeString (start a);
       formattedEndTime := toLocaleTimeString (end_ a) |}
  else
    {| appt := a; status' := "upcoming";
       minutesUntilStart := minutes_between (start a) now;
       formattedStartTime := toLocaleTimeString (start a);
       formattedEndTime := toLocaleTimeString (end_ a) |}.

Fixpoint show_each (later : nat -> Z) (i : nat) (l : list Appointment) : list Shown :=
  match l with
  | [] => []
  | a :: rest => show (later i) a :: show_each later (S i) rest
  end.

(** [filterRelevantAppointments(appointments)]: [now] is the clock read
    at the top, [later i] the clock read while mapping the kept
    appointment number [i]. *)
Definition filterRelevantAppointments
    (now : Z) (later : nat -> Z) (appointments : list Appointment) : list Shown :=
  show_each later 0 (filter (relevant now) appointments).

Definition call_filterRelevantAppointments (appointments : list Appointment)
  : Prog (list Shown) :=
  now <- Date_now ;;
  Ret (filterRelevantAppointments now (fun _ => now) appointments).

(** [app.get('/api/appointments', ...)] *)
Definition api_appointments : Prog Reply :=
  try_catch
    (appointments <- await getAppointmentsForToday ;;
     relevantAppointments <- call_filterRelevantAppointments appointments ;;
     Ret (Json200 relevantAppointments))
    (fun error =>
       retried <-
         (if includes (message error) "401" then
            try_catch
              (await refreshAccessToken ;;
               appointments <- await getAppointmentsForToday ;;
               relevantAppointments <- call_filterRelevantAppointments appointments ;;
               Ret (Some (Json200 relevantAppointments)))
              (fun retryError => Ret None)
          else Ret None) ;;
       match retried with
       | Some reply => Ret reply
       | None => Ret Error500
       end).

Definition startServer : Prog Startup :=
  try_catch
    (await initialize ;; Ret Listening)
    (fun error => Ret (Exit 1)).


(** ** Spec-side definitions *)

(** The lifetime the specification gives a refreshed token: the
    response's [expires_in], 3600 seconds when it is absent. *)
Definition stated_lifetime (data : Json) : Z :=
  match expires_in data with
  | Some n => n
  | None => 3600
  end.

(** An appointment starts within the next 30 minutes. *)
Definition starts_soon (now : Z) (a : Appointment) : Prop :=
  exists s, start a = DateOf s /\ now < s <= now + 30 * 60 * 1000.

(** An appointment is in progress. *)
Definition in_progress (now : Z) (a : Appointment) : Prop :=
  exists s e, start a = DateOf s /\ end_ a = DateOf e /\ s <= now < e.

(** The upstream does not answer the next request with a 2xx status: the
    transport fails or the status is outside 200-299. *)
Definition upstream_fails (w : World) : Prop :=
  match network w with
  | [] => True
  | x :: _ =>
      match outcome x with
      | NetworkError _ => True
      | Responded r => ok r = false
      end
  end.

(** ** Outcomes of the manager's methods, case by case *)

(** [saveTokens] run to completion. *)
Definition save_result (w : World) : (Error + unit) * World :=
  match tokens_of (tokenManager w) with
  | inl e => (inl e, w)
  | inr tokens =>
      match write_error w with
      | None => (inr tt, with_disk (Stored tokens) w)
      | Some failure =>
          (inl (RuntimeError (reason failure)),
           with_disk (after_failed_write (damage failure) tokens (disk w)) w)
      end
  end.

(** [refreshAccessToken] run to completion. *)
Definition refresh_result (w : World) : (Error + unit) * World :=
  let this := tokenManager w in
  if truthy (refreshToken this) then
    let (o, w1) := exchange (RefreshCall (to_string (refreshToken this))) w in
    match o with
    | NetworkError msg => (inl (RuntimeError msg), w1)
    | Responded r =>
        if ok r then
          match json r with
          | inl msg => (inl (RuntimeError msg), w1)
          | inr data =>
              save_result (with_manager (granted (clock w1) data (tokenManager w1)) w1)
          end
        else (inl (FailedToRefresh (status r) (text r)), w1)
    end
  else (inl NoRefreshTokenAvailable, w).

(** The manager after lines 29-31 of [initialize] read [tokens]. *)
Definition loaded (tokens : TokensJson) (this : TokenManager) : TokenManager :=
  set_tokenExpiry
    (if truthy (json_tokenExpiry tokens)
     then Some (new_Date (json_tokenExpiry tokens))
     else None)
    (set_refreshToken (json_refreshToken tokens ||| refreshToken this)
       (set_accessToken (json_accessToken tokens) this)).

(** The manager seeded from the environment (lines 44-46). *)
Definition seeded (now : Z) (this : TokenManager) : TokenManager :=
  set_tokenExpiry (Some (TimeClip (now + 60 * 60 * 1000)))
    (set_accessToken (DAYLITE_ACCESS_TOKEN env) this).

(** Rewriting a [run] with the equations of the operators it meets. *)
Create Rewrite HintDb run.
Ltac runs := repeat (progress (autorewrite with run; cbv beta iota)).

(** A restart: the process comes up with a new manager, the disk as it
    was left. *)
Definition restart (w : World) : World := with_manager (new_TokenManager env) w.

(** ** Counting requests *)

Definition is_api (r : Request) : bool :=
  match r with ApiCall _ _ _ => true | _ => false end.

Definition count_sent (P : Request -> bool) (w : World) : nat :=
  List.length (filter P (sent w)).

(** Running [p] puts at most [n] more requests satisfying [P] on the wire. *)
Definition at_most {A : Type} (P : Request -> bool) (n : nat) (p : Prog A) : Prop :=
  forall w, (count_sent P (snd (run p w)) <= count_sent P w + n)%nat.

(** ** Turns and whole grants *)

(** The responses a call has received, latest first. *)
Definition received_with (o : FetchOutcome) (received : list Response) : list Response :=
  match o with
  | Responded r => r :: received
  | NetworkError _ => received
  end.

Definition received_after (io : Settled) (received : list Response) : list Response :=
  match io with
  | FetchSettled o => received_with o received
  | _ => received
  end.

(** A turn at clock [now] of a call that has received [received] left the
    manager [m] as it was, or assigned the three properties from the body
    of one of these responses, a 2xx response, with the expiry counted
    from [now]. *)
Definition untouched_or_granted (now : Z) (received : list Response)
    (m m' : TokenManager) : Prop :=
  m' = m \/
  exists r data,
    In r received /\ ok r = true /\ json r = inr data /\ m' = granted now data m.

(** The turn that runs [p] up to its next suspension does so. *)
Definition whole_turn {A : Type} (received : list Response) (p : Prog A) : Prop :=
  forall now s, untouched_or_granted now received (mgr s) (mgr (snd (sync now p s))).

(** The turn that runs [p] up to its next suspension leaves the manager
    as it was. *)
Definition quiet_turn {A : Type} (p : Prog A) : Prop :=
  forall now s, mgr (snd (sync now p s)) = mgr s.

(** Every turn that resumes [p] at one of its suspension points does so:
    the turn a settled [fetch], read or write resumes leaves the manager
    as it was, and the turn an [await] resumes leaves it as it was or
    assigns the body of a response the call has received by then. *)
Fixpoint whole_turns {A : Type} (received : list Response) (p : Prog A) : Prop :=
  match p with
  | Ret _ | Throw _ => True
  | DateNow k => forall t, whole_turns received (k t)
  | This k => forall m, whole_turns received (k m)
  | Assign _ k => whole_turns received k
  | ReadFile k => forall c, quiet_turn (k c) /\ whole_turns received (k c)
  | WriteFile _ k => forall r, quiet_turn (k r) /\ whole_turns received (k r)
  | Fetch _ k =>
      forall o, quiet_turn (k o) /\ whole_turns (received_with o received) (k o)
  | Await k => whole_turn received k /\ whole_turns received k
  end.

(** Among the events [evs] run from [sys0], one settled a [fetch] of call
    [i] with the response [r]. *)
Definition delivered {A : Type} (entry : Prog A) (sys0 : System A) (evs : list Event)
    (i : nat) (r : Response) : Prop :=
  exists evs1 evs2 t req k,
    evs = (evs1 ++ Settle i t (FetchSettled (Responded r)) :: evs2)%list /\
    nth_error (calls (exec entry evs1 sys0)) i = Some (Fetch req k).

(** The turn [ev], after the events [evs], took the manager from [m] to
    [m']: it left it as it was, or it is a turn of a call resumed from an
    [await] and assigned access token, refresh token and expiry from the
    body of a 2xx response that had settled a [fetch] of that call, the
    expiry counted from the clock of this turn. *)
Definition whole_step {A : Type} (entry : Prog A) (sys0 : System A) (evs : list Event)
    (ev : Event) (m m' : TokenManager) : Prop :=
  m' = m \/
  exists i now r data,
    ev = Settle i now Resumed /\ delivered entry sys0 evs i r /\
    ok r = true /\ json r = inr data /\ m' = granted now data m.

(** Managers reached from [m] by such assignments, one after the other,
    each in a turn of [evs]. *)
Inductive whole_grants {A : Type} (entry : Prog A) (sys0 : System A) (evs : list Event)
    (m : TokenManager) : TokenManager -> Prop :=
| grants_none : whole_grants entry sys0 evs m m
| grants_more (m' : TokenManager) (i : nat) (now : Z) (r : Response) (data : Json) :
    whole_grants entry sys0 evs m m' ->
    In (Settle i now Resumed) evs ->
    delivered entry sys0 evs i r ->
    ok r = true -> json r = inr data ->
    whole_grants entry sys0 evs m (granted now data m').

(** What the calls in flight have received is known for each of them. *)
Definition tracked {A : Type} (entry : Prog A) (sys0 : System A) (evs : list Event)
    (cs : list (Prog A)) : Prop :=
  exists recs,
    Forall2 whole_turns recs cs /\
    forall i rs r, nth_error recs i = Some rs -> In r rs -> delivered entry sys0 evs i r.

(** Case analysis along the turns of a call. *)
Ltac turn_cases :=
  repeat first
    [ progress intros
    | progress simpl
    | match goal with
      | |- _ /\ _ => split
      | |- True => exact I
      | |- whole_turn _ _ => unfold whole_turn
      | |- quiet_turn _ => unfold quiet_turn
      | |- context [if ?b then _ else _] => destruct b eqn:?
      | |- context [match ?x with _ => _ end] => destruct x eqn:?
      end ].

(** ** What a run keeps *)

(** Running [p] keeps the property [I] of the manager. *)
Definition keeps {A : Type} (I : TokenManager -> Prop) (p : Prog A) : Prop :=
  forall w, I (tokenManager w) -> I (tokenManager (snd (run p w))).

Definition holds_refresh_token (m : TokenManager) : Prop :=
  truthy (refreshToken m) = true.

(** ** What the pipeline makes of a search result *)

Definition large_room : string := "/v1/resources/2015".

(** The appointment [b] that the loop of [getAppointmentsForToday] pushes
    for the record [a] (lines 217-251), its names apart. *)
Definition made_from (a : ApptRecord) (b : Appointment) : Prop :=
  start b = new_Date (utc_start a) /\
  end_ b = new_Date (utc_end a) /\
  appt_title b = title a ||| Str "" /\
  exists r, resources a = Some r /\
            room b = if (String.concat "," r =? large_room)%string then "Large" else "Small".

(** The contact lookups a record asks for: the elements of [contacts] with
    a [contact] that is not empty. *)
Definition lookups (a : ApptRecord) : nat :=
  match contacts a with
  | Some cs => List.length (filter (fun c => truthy (contact c)) cs)
  | None => 0
  end.

Fixpoint mentions (c : ascii) (s : string) : bool :=
  match s with
  | EmptyString => false
  | String d rest => Ascii.eqb c d || mentions c rest
  end.

(** ** The token test script *)

(** [testTokenRefresh()] of the test script. *)
Definition testTokenRefresh : Prog ScriptEnd :=
  let refreshToken := DAYLITE_REFRESH_TOKEN env in
  if negb (truthy refreshToken) then Ret (ScriptExit 1)
  else
    try_catch
      (let url := RefreshCall (to_string refreshToken) in
       response <- fetch url ;;
       if negb (ok response) then
         errorText <- response_text response ;;
         Ret (ScriptExit 1)
       else
         data <- response_json response ;;
         works <- (if truthy (access_token data) then
                     testResponse <-
                       fetch (ApiCall GET test_url ("Bearer " ++ to_string (access_token data))) ;;
                     Ret (Some (ok testResponse))
                   else Ret None) ;;
         Ret (ScriptDone
                {| advised_access_token := to_string (access_token data ||| token data);
                   advised_refresh_token := to_string (refresh_token data ||| refreshToken);
                   access_token_works := works |}))
      (fun error => Ret (ScriptExit 1)).

(** The script run to completion. *)
Definition script_result (w : World) : (Error + ScriptEnd) * World :=
  let refreshToken := DAYLITE_REFRESH_TOKEN env in
  if truthy refreshToken then
    let (o, w1) := exchange (RefreshCall (to_string refreshToken)) w in
    match o with
    | NetworkError _ => (inr (ScriptExit 1), w1)
    | Responded r =>
        if ok r then
          match json r with
          | inl _ => (inr (ScriptExit 1), w1)
          | inr data =>
              let advice works :=
                {| advised_access_token := to_string (access_token data ||| token data);
                   advised_refresh_token := to_string (refresh_token data ||| refreshToken);
                   access_token_works := works |} in
              if truthy (access_token data) then
                let (o2, w2) :=
                  exchange (ApiCall GET test_url ("Bearer " ++ to_string (access_token data)))
                    w1 in
                match o2 with
                | NetworkError _ => (inr (ScriptExit 1), w2)
                | Responded r2 => (inr (ScriptDone (advice (Some (ok r2)))), w2)
                end
              else (inr (ScriptDone (advice None)), w1)
          end
        else (inr (ScriptExit 1), w1)
    end
  else (inr (ScriptExit 1), w).

(** ** The two interpreters and the control operators *)

Lemma run_bind {A B : Type} (m : Prog A) (f : A -> Prog B) (w : World) :
  run (bind m f) w =
  match run m w with
  | (inr a, w') => run (f a) w'
  | (inl e, w') => (inl e, w')
  end.
Proof.
  revert w; induction m as [a|e|k IH|k IH|g k IH|k IH|d k IH|req k IH|k IH];
    intros w; simpl; auto.
  - destruct (write_error w); auto.
  - destruct (exchange req w); auto.
Qed.

Lemma run_try_catch {A : Type} (m : Prog A) (h : Error -> Prog A) (w : World) :
  run (try_catch m h) w =
  match run m w with
  | (inl e, w') => run (h e) w'
  | (inr a, w') => (inr a, w')
  end.
Proof.
  revert w; induction m as [a|e|k IH|k IH|g k IH|k IH|d k IH|req k IH|k IH];
    intros w; simpl; auto.
  - destruct (write_error w); auto.
  - destruct (exchange req w); auto.
Qed.

Lemma run_await {A : Type} (p : Prog A) (w : World) : run (await p) w = run p w.
Proof.
  unfold await. rewrite run_try_catch, run_bind.
  destruct (run p w) as [[e|a] w']; reflexivity.
Qed.

Lemma run_this_ (w : World) : run this_ w = (inr (tokenManager w), w).
Proof. reflexivity. Qed.

Lemma run_Date_now (w : World) : run Date_now w = (inr (clock w), w).
Proof. reflexivity. Qed.

Lemma run_assign (f : TokenManager -> TokenManager) (w : World) :
  run (assign f) w = (inr tt, with_manager (f (tokenManager w)) w).
Proof. reflexivity. Qed.

Lemma run_fetch (req : Request) (w : World) :
  run (fetch req) w =
  match exchange req w with
  | (NetworkError msg, w1) => (inl (RuntimeError msg), w1)
  | (Responded r, w1) => (inr r, w1)
  end.
Proof.
  unfold fetch; simpl. destruct (exchange req w) as [[msg|r] w1]; reflexivity.
Qed.

Lemma run_response_json (r : Response) (w : World) :
  run (response_json r) w =
  match json r with
  | inl msg => (inl (RuntimeError msg), w)
  | inr data => (inr data, w)
  end.
Proof. unfold response_json; simpl. destruct (json r); reflexivity. Qed.

Lemma run_response_text (r : Response) (w : World) :
  run (response_text r) w = (inr (text r), w).
Proof. reflexivity. Qed.

Lemma run_Ret {A : Type} (a : A) (w : World) : run (Ret a) w = (inr a, w).
Proof. reflexivity. Qed.

Lemma run_Throw {A : Type} (e : Error) (w : World) : run (@Throw A e) w = (inl e, w).
Proof. reflexivity. Qed.

(** A rethrowing handler changes nothing. *)
Lemma run_rethrow {A : Type} (m : Prog A) (w : World) :
  run (try_catch m (fun e => Throw e)) w = run m w.
Proof.
  rewrite run_try_catch. destruct (run m w) as [[e|a] w']; reflexivity.
Qed.

#[local] Hint Rewrite @run_bind @run_await @run_rethrow @run_Ret @run_Throw
  run_this_ run_Date_now run_assign run_fetch run_response_json run_response_text : run.

Lemma run_saveTokens (w : World) : run saveTokens w = save_result w.
Proof.
  unfold saveTokens, save_result. runs.
  destruct (tokens_of (tokenManager w)); [reflexivity|].
  simpl. destruct (write_error w); reflexivity.
Qed.
#[local] Hint Rewrite run_saveTokens : run.

Lemma run_refreshAccessToken (w : World) :
  run refreshAccessToken w = refresh_result w.
Proof.
  unfold refreshAccessToken, refresh_result. runs.
  destruct (truthy (refreshToken (tokenManager w))); simpl negb; cbv iota; [|reflexivity].
  runs. destruct (exchange _ w) as [[msg|r] w1]; runs; [reflexivity|].
  destruct (ok r); simpl negb; runs; [|reflexivity].
  destruct (json r) as [msg|data]; runs; reflexivity.
Qed.
#[local] Hint Rewrite run_refreshAccessToken : run.

Lemma run_load_tokens (w : World) :
  run load_tokens w =
  match disk w with
  | Missing => (inl (RuntimeError "ENOENT: no such file or directory, open 'tokens.json'"), w)
  | Unreadable => (inl (RuntimeError "EACCES: permission denied, open 'tokens.json'"), w)
  | Garbled => (inl (RuntimeError "Unexpected token in JSON"), w)
  | Stored tokens => (inr tt, with_manager (loaded tokens (tokenManager w)) w)
  end.
Proof.
  unfold load_tokens, read_tokens. rewrite run_bind. simpl run at 1.
  destruct (disk w); runs; reflexivity.
Qed.

Lemma run_seed_or_refresh (w : World) :
  run seed_or_refresh w =
  if truthy (DAYLITE_ACCESS_TOKEN env) then
    save_result (with_manager (seeded (clock w) (tokenManager w)) w)
  else if truthy (refreshToken (tokenManager w)) then refresh_result w
  else (inl NoTokensAvailable, w).
Proof.
  unfold seed_or_refresh.
  destruct (truthy (DAYLITE_ACCESS_TOKEN env)); runs; [reflexivity|].
  destruct (truthy (refreshToken (tokenManager w))); runs; reflexivity.
Qed.

Lemma run_call_needsRefresh (w : World) :
  run call_needsRefresh w = (inr (needsRefresh (clock w) (tokenManager w)), w).
Proof. reflexivity. Qed.
#[local] Hint Rewrite run_call_needsRefresh : run.

Lemma run_initialize (w : World) :
  run initialize w =
  match disk w with
  | Stored tokens =>
      let w0 := with_manager (loaded tokens (tokenManager w)) w in
      if needsRefresh (clock w) (tokenManager w0) then
        match refresh_result w0 with
        | (inl _, w1) => run seed_or_refresh w1
        | (inr _, w1) => (inr tt, w1)
        end
      else (inr tt, w0)
  | _ => run seed_or_refresh w
  end.
Proof.
  unfold initialize. rewrite run_try_catch, run_bind, run_load_tokens.
  destruct (disk w); try reflexivity.
  runs. cbv zeta.
  change (clock (with_manager _ w)) with (clock w).
  destruct (needsRefresh _ _); runs; [|reflexivity].
  destruct (refresh_result _) as [[e|[]] w1]; reflexivity.
Qed.

Lemma run_getValidToken (w : World) :
  run getValidToken w =
  if needsRefresh (clock w) (tokenManager w) then
    match refresh_result w with
    | (inl e, w1) => (inl e, w1)
    | (inr _, w1) => (inr ("Bearer " ++ to_string (accessToken (tokenManager w1))), w1)
    end
  else (inr ("Bearer " ++ to_string (accessToken (tokenManager w))), w).
Proof.
  unfold getValidToken. runs.
  destruct (needsRefresh _ _); runs; [|reflexivity].
  destruct (refresh_result w) as [[e|[]] w1]; runs; reflexivity.
Qed.

(** ** Dates and the refresh test *)

Lemma TimeClip_representable (t : Z) : representable t -> TimeClip t = DateOf t.
Proof.
  unfold representable, TimeClip. intros H.
  destruct (Z.leb_spec (Z.abs t) max_time); [reflexivity|lia].
Qed.

Lemma TimeClip_DateOf (t u : Z) : TimeClip t = DateOf u -> u = t /\ representable t.
Proof.
  unfold representable, TimeClip.
  destruct (Z.leb_spec (Z.abs t) max_time) as [Hle|Hgt]; intros Heq; inversion Heq; subst; split; auto.
Qed.

(** Where the expiry is unset or a valid date, and the clock is one a Date
    can hold, [needsRefresh] is the comparison with five minutes from now. *)
Lemma needsRefresh_valid_expiry (now : Z) (this : TokenManager) :
  representable (now + 5 * 60 * 1000) ->
  tokenExpiry this <> Some InvalidDate ->
  needsRefresh now this = true <->
  (tokenExpiry this = None \/
   exists t, tokenExpiry this = Some (DateOf t) /\ t <= now + 5 * 60 * 1000).
Proof.
  intros Hnow Hvalid. unfold needsRefresh.
  destruct (tokenExpiry this) as [[t|]|].
  - rewrite (TimeClip_representable _ Hnow). simpl. rewrite Z.leb_le. split.
    + intros H. right. exists t. auto.
    + intros [H|[u [H Hu]]]; [discriminate|]. inversion H; subst; assumption.
  - congruence.
  - split; auto.
Qed.

Lemma needsRefresh_invalid_date (now : Z) (this : TokenManager) :
  tokenExpiry this = Some InvalidDate -> needsRefresh now this = false.
Proof. unfold needsRefresh. intros ->. reflexivity. Qed.

(** ** Refreshing *)

(** C2: when the upstream does not answer the refresh request with a 2xx
    status (the transport fails, or the status is outside 200-299),
    [refreshAccessToken] throws, the access token, the refresh token and
    the expiry are the ones held before, tokens.json is untouched, and a
    [getValidToken] that needed the refresh throws the same error. *)
Theorem failed_refresh_keeps_tokens (w : World) :
  upstream_fails w ->
  exists e w',
    run refreshAccessToken w = (inl e, w') /\
    tokenManager w' = tokenManager w /\
    disk w' = disk w /\
    (needsRefresh (clock w) (tokenManager w) = true ->
     run getValidToken w = (inl e, w')).
Proof.
  unfold upstream_fails. intros Hfail.
  rewrite run_getValidToken, run_refreshAccessToken. unfold refresh_result, exchange.
  destruct (truthy (refreshToken (tokenManager w))).
  - destruct (network w) as [|x rest].
    + eexists; eexists; repeat split. intros ->; reflexivity.
    + destruct (outcome x) as [msg|r].
      * eexists; eexists; repeat split. intros ->; reflexivity.
      * rewrite Hfail. eexists; eexists; repeat split. intros ->; reflexivity.
  - eexists; eexists; repeat split. intros ->; reflexivity.
Qed.

(** The error a failed exchange raises: the transport's own, or the
    status and body text of the response. *)
Lemma failed_refresh_error (w : World) (x : Exchange) (rest : list Exchange) :
  network w = x :: rest ->
  truthy (refreshToken (tokenManager w)) = true ->
  (forall r, outcome x = Responded r -> ok r = false) ->
  fst (run refreshAccessToken w) =
  match outcome x with
  | NetworkError msg => inl (RuntimeError msg)
  | Responded r => inl (FailedToRefresh (status r) (text r))
  end.
Proof.
  intros Hnet Htok Hfail. rewrite run_refreshAccessToken. unfold refresh_result, exchange.
  rewrite Htok, Hnet. destruct (outcome x) as [msg|r]; [reflexivity|].
  rewrite (Hfail r eq_refl). reflexivity.
Qed.

(** ** Starting up *)

(** C7: with no tokens.json to read (missing, unreadable or garbled) and
    neither DAYLITE_ACCESS_TOKEN nor DAYLITE_REFRESH_TOKEN set (or set to
    the empty string), [initialize] throws the no-tokens error and
    [startServer] exits with code 1 instead of listening. *)
Theorem no_tokens_aborts_startup (w : World) :
  (forall tokens, disk w <> Stored tokens) ->
  truthy (DAYLITE_ACCESS_TOKEN env) = false ->
  truthy (DAYLITE_REFRESH_TOKEN env) = false ->
  tokenManager w = new_TokenManager env ->
  run initialize w = (inl NoTokensAvailable, w) /\
  run startServer w = (inr (Exit 1), w).
Proof.
  intros Hdisk Hacc Href Hnew.
  assert (Hinit : run initialize w = (inl NoTokensAvailable, w)).
  { rewrite run_initialize.
    assert (Hseed : run seed_or_refresh w = (inl NoTokensAvailable, w)).
    { rewrite run_seed_or_refresh, Hacc, Hnew. unfold new_TokenManager, js_or.
      simpl. rewrite Href. reflexivity. }
    destruct (disk w) as [| | |tokens]; auto. exfalso. apply (Hdisk tokens). reflexivity. }
  split; [exact Hinit|].
  unfold startServer. rewrite run_try_catch, run_bind, run_await, Hinit. reflexivity.
Qed.

(** A refresh that fails leaves a refresh token where there was one, and
    none where there was none. *)
Lemma failed_refresh_refresh_token (w w1 : World) (e : Error) :
  refresh_result w = (inl e, w1) ->
  truthy (refreshToken (tokenManager w1)) = truthy (refreshToken (tokenManager w)).
Proof.
  unfold refresh_result, exchange.
  destruct (truthy (refreshToken (tokenManager w))) eqn:Htok.
  - assert (Hsave : forall data now (w2 : World),
               tokenManager w2 = tokenManager w ->
               save_result (with_manager (granted now data (tokenManager w2)) w2) = (inl e, w1) ->
               truthy (refreshToken (tokenManager w1)) = true).
    { intros data now w2 Hm. unfold save_result.
      destruct (tokens_of _) as [e'|tk]; [|destruct (write_error _)];
        intros H; inversion H; subst; simpl; rewrite Hm; unfold js_or;
        destruct (truthy (refresh_token data)) eqn:Hd; auto. }
    destruct (network w) as [|x rest].
    + intros H; inversion H; subst; simpl; auto.
    + destruct (outcome x) as [msg|r]; [intros H; inversion H; subst; simpl; auto|].
      destruct (ok r); [|intros H; inversion H; subst; simpl; auto].
      destruct (json r) as [msg|data]; [intros H; inversion H; subst; simpl; auto|].
      apply (Hsave data _ _). reflexivity.
  - intros H; inversion H; subst. assumption.
Qed.

(** C8, as the code has it: with tokens.json unreadable or garbled (or
    missing), [initialize] does not throw the read or parse error: it runs
    its fallback from the manager as constructed; with DAYLITE_ACCESS_TOKEN
    set, the file writable and the clock in a Date's range, it returns with
    the access token of the environment, an expiry one hour ahead and the
    refresh token of the environment, all written to tokens.json; with only
    DAYLITE_REFRESH_TOKEN set it is the refresh that decides. *)
Theorem unreadable_file_falls_back_to_environment (w : World) :
  (forall tokens, disk w <> Stored tokens) ->
  tokenManager w = new_TokenManager env ->
  run initialize w = run seed_or_refresh w /\
  (truthy (DAYLITE_ACCESS_TOKEN env) = true ->
   write_error w = None ->
   representable (clock w + 60 * 60 * 1000) ->
   exists w',
     run initialize w = (inr tt, w') /\
     tokenManager w' =
       {| accessToken := DAYLITE_ACCESS_TOKEN env;
          refreshToken := DAYLITE_REFRESH_TOKEN env ||| Null;
          tokenExpiry := Some (DateOf (clock w + 60 * 60 * 1000)) |} /\
     disk w' =
       Stored {| json_accessToken := DAYLITE_ACCESS_TOKEN env;
                 json_refreshToken := DAYLITE_REFRESH_TOKEN env ||| Null;
                 json_tokenExpiry := Str (toISOString (clock w + 60 * 60 * 1000)) |}) /\
  (truthy (DAYLITE_ACCESS_TOKEN env) = false ->
   truthy (DAYLITE_REFRESH_TOKEN env) = true ->
   run initialize w = run refreshAccessToken w).
Proof.
  intros Hdisk Hnew.
  assert (Hinit : run initialize w = run seed_or_refresh w).
  { rewrite run_initialize. destruct (disk w) as [| | |tokens]; auto.
    exfalso. apply (Hdisk tokens). reflexivity. }
  split; [exact Hinit|]. split.
  - intros Hacc Hwrite Hclock. rewrite Hinit, run_seed_or_refresh, Hacc.
    unfold save_result, tokens_of, seeded.
    rewrite (TimeClip_representable _ Hclock). simpl.
    rewrite Hwrite, Hnew. simpl.
    eexists; repeat split.
  - intros Hacc Href. rewrite Hinit, run_seed_or_refresh, run_refreshAccessToken, Hacc, Hnew.
    unfold new_TokenManager, js_or. simpl. rewrite Href, Href. reflexivity.
Qed.

(** C10: when [initialize] has read tokens.json into the manager, the
    refresh test is true and the refresh throws, the error is dropped and
    the [catch] block runs on the manager as the failed refresh left it:
    with DAYLITE_ACCESS_TOKEN set it overwrites the access token and the
    expiry and saves; otherwise, with a refresh token (from the file or the
    environment), it refreshes a second time; otherwise it throws the
    no-tokens error. *)
Theorem failed_refresh_on_load_falls_back (w w1 : World) (tokens : TokensJson) (e : Error) :
  disk w = Stored tokens ->
  needsRefresh (clock w) (loaded tokens (tokenManager w)) = true ->
  run refreshAccessToken (with_manager (loaded tokens (tokenManager w)) w) = (inl e, w1) ->
  run initialize w = run seed_or_refresh w1 /\
  (truthy (DAYLITE_ACCESS_TOKEN env) = true ->
   run initialize w =
   run saveTokens (with_manager (seeded (clock w1) (tokenManager w1)) w1)) /\
  (truthy (DAYLITE_ACCESS_TOKEN env) = false ->
   truthy (json_refreshToken tokens ||| refreshToken (tokenManager w)) = true ->
   run initialize w = run refreshAccessToken w1) /\
  (truthy (DAYLITE_ACCESS_TOKEN env) = false ->
   truthy (json_refreshToken tokens ||| refreshToken (tokenManager w)) = false ->
   run initialize w = (inl NoTokensAvailable, w1)).
Proof.
  intros Hdisk Hneeds Hfail. rewrite run_refreshAccessToken in Hfail.
  pose proof (failed_refresh_refresh_token _ _ _ Hfail) as Htok. simpl in Htok.
  assert (Hinit : run initialize w = run seed_or_refresh w1).
  { rewrite run_initialize, Hdisk. cbv zeta. simpl tokenManager.
    rewrite Hneeds, Hfail. reflexivity. }
  rewrite Hinit, run_seed_or_refresh, run_saveTokens, run_refreshAccessToken.
  repeat split.
  - intros ->. reflexivity.
  - intros -> H. rewrite Htok, H. reflexivity.
  - intros -> H. rewrite Htok, H. reflexivity.
Qed.

(** C5: where the claim says [needsRefresh()] is true the code answers
    false.  When tokens.json holds a non-empty [tokenExpiry] that
    [Date.parse] does not read, [initialize] leaves an Invalid Date as
    expiry (not a time more than five minutes ahead) and returns without a
    refresh; from then on [needsRefresh()] is false at every time, and
    [getValidToken] hands out the access token of the file without ever
    refreshing it. *)
Theorem undated_expiry_is_never_refreshed (w : World) (tokens : TokensJson) (s : string) :
  disk w = Stored tokens ->
  json_tokenExpiry tokens = Str s -> s <> "" -> Date_parse s = None ->
  tokenExpiry (loaded tokens (tokenManager w)) = Some InvalidDate /\
  run initialize w = (inr tt, with_manager (loaded tokens (tokenManager w)) w) /\
  (forall now, needsRefresh now (loaded tokens (tokenManager w)) = false) /\
  (forall w', tokenManager w' = loaded tokens (tokenManager w) ->
     run getValidToken w' = (inr ("Bearer " ++ to_string (json_accessToken tokens)), w')).
Proof.
  intros Hdisk Hexp Hne Hparse.
  assert (Hinv : tokenExpiry (loaded tokens (tokenManager w)) = Some InvalidDate).
  { unfold loaded. rewrite Hexp. simpl.
    destruct (s =? "")%string eqn:Hs; [apply String.eqb_eq in Hs; contradiction|].
    simpl. rewrite Hparse. reflexivity. }
  assert (Hnever : forall now, needsRefresh now (loaded tokens (tokenManager w)) = false)
    by (intros now; apply needsRefresh_invalid_date; exact Hinv).
  split; [exact Hinv|]. split; [|split; [exact Hnever|]].
  - rewrite run_initialize, Hdisk. cbv zeta. simpl tokenManager. rewrite Hnever. reflexivity.
  - intros w' Hm. rewrite run_getValidToken, Hm, Hnever. reflexivity.
Qed.

(** ** Saving and loading *)

(** C6, as the code has it: a credential whose expiry is unset or a valid
    date that the runtime prints and parses back, and whose refresh token
    is a non-empty string (or is [null] while DAYLITE_REFRESH_TOKEN is not
    set), comes back equal in its three fields when it is saved and then
    loaded by a newly constructed manager. *)
Theorem save_then_load_round_trip (w : World) :
  write_error w = None ->
  (tokenExpiry (tokenManager w) = None \/
   exists t, tokenExpiry (tokenManager w) = Some (DateOf t) /\ representable t /\
             toISOString t <> "" /\ Date_parse (toISOString t) = Some t) ->
  (truthy (refreshToken (tokenManager w)) = true \/
   (refreshToken (tokenManager w) = Null /\ truthy (DAYLITE_REFRESH_TOKEN env) = false)) ->
  exists w1 w2,
    run saveTokens w = (inr tt, w1) /\
    run load_tokens (restart w1) = (inr tt, w2) /\
    tokenManager w2 = tokenManager w.
Proof.
  intros Hwrite Hexp Href.
  assert (Hr : refreshToken (tokenManager w) ||| (DAYLITE_REFRESH_TOKEN env ||| Null)
               = refreshToken (tokenManager w)).
  { unfold js_or. destruct Href as [->|[-> ->]]; reflexivity. }
  rewrite run_saveTokens. unfold save_result, tokens_of.
  destruct Hexp as [Hx|[t [Hx [Hrep [Hne Hparse]]]]]; rewrite Hx, Hwrite;
    eexists; eexists; (split; [reflexivity|]);
    rewrite run_load_tokens; simpl disk; cbv iota; (split; [reflexivity|]);
    unfold loaded, restart; simpl; rewrite Hr.
  - destruct (tokenManager w); simpl in *; subst; reflexivity.
  - rewrite Hparse, (TimeClip_representable _ Hrep).
    destruct (toISOString t =? "")%string eqn:Hempty.
    + apply String.eqb_eq in Hempty. contradiction.
    + destruct (tokenManager w); simpl in *; subst; reflexivity.
Qed.

(** ** The relevance filter *)

Lemma appt_show_each (later : nat -> Z) (i : nat) (l : list Appointment) :
  map appt (show_each later i l) = l.
Proof.
  revert i; induction l as [|a l IH]; intros i; simpl; [reflexivity|].
  rewrite IH. unfold show. destruct (_ && _); reflexivity.
Qed.

(** C9: at a time from which thirty minutes ahead is still a Date, the
    appointments [filterRelevantAppointments] answers with are, in their
    order, exactly those of its argument that start after now and at most
    thirty minutes from now, or that started at or before now and end after
    now; it depends on nothing but the list and the clock. *)
Theorem filter_keeps_soon_or_in_progress
    (now : Z) (later : nat -> Z) (appointments : list Appointment) :
  representable (now + 30 * 60 * 1000) ->
  map appt (filterRelevantAppointments now later appointments)
  = filter (relevant now) appointments /\
  (forall a, relevant now a = true <-> starts_soon now a \/ in_progress now a) /\
  (forall a, In a (map appt (filterRelevantAppointments now later appointments)) <->
             In a appointments /\ (starts_soon now a \/ in_progress now a)).
Proof.
  intros Hrep.
  assert (Hmap : map appt (filterRelevantAppointments now later appointments)
                 = filter (relevant now) appointments).
  { unfold filterRelevantAppointments. apply appt_show_each. }
  assert (Hrel : forall a, relevant now a = true <-> starts_soon now a \/ in_progress now a).
  { intros a. unfold relevant, starts_soon, in_progress, thirty_minutes.
    rewrite (TimeClip_representable _ Hrep).
    destruct (start a) as [s|], (end_ a) as [e'|]; simpl;
      rewrite ?Bool.orb_true_iff, ?Bool.andb_true_iff, ?Z.ltb_lt, ?Z.leb_le.
    - split.
      + intros [[H1 H2]|[H1 H2]].
        * left. exists s. split; [reflexivity|lia].
        * right. exists s, e'. repeat split; lia.
      + intros [[s' [Hs H]]|[s' [e2 [Hs [He H]]]]].
        * inversion Hs; subst. left. lia.
        * inversion Hs; inversion He; subst. right. lia.
    - split.
      + intros [[H1 H2]|[H1 H2]]; [|discriminate]. left. exists s. split; [reflexivity|lia].
      + intros [[s' [Hs H]]|[s' [e2 [Hs [He H]]]]]; [|discriminate].
        inversion Hs; subst. left. lia.
    - split; [intros H; discriminate|].
      intros [[s' [Hs H]]|[s' [e2 [Hs [He H]]]]]; discriminate.
    - split; [intros H; discriminate|].
      intros [[s' [Hs H]]|[s' [e2 [Hs [He H]]]]]; discriminate. }
  split; [exact Hmap|]. split; [exact Hrel|].
  intros a. rewrite Hmap, filter_In, Hrel. reflexivity.
Qed.

(** ** The appointment pipeline *)

Lemma run_authenticatedFetch (m : Method) (url : string) (w : World) :
  run (authenticatedFetch m url) w =
  match run getValidToken w with
  | (inl e, w1) => (inl e, w1)
  | (inr token, w1) =>
      match exchange (ApiCall m url token) w1 with
      | (NetworkError msg, w2) => (inl (RuntimeError msg), w2)
      | (Responded r, w2) =>
          if (status r =? 401)%N then (inl Unauthorized401, w2) else (inr r, w2)
      end
  end.
Proof.
  unfold authenticatedFetch. runs.
  destruct (run getValidToken w) as [[e|token] w1]; runs; [reflexivity|].
  destruct (exchange _ w1) as [[msg|r] w2]; runs; [reflexivity|].
  destruct (status r =? 401)%N; reflexivity.
Qed.

Lemma run_call_filterRelevantAppointments (l : list Appointment) (w : World) :
  run (call_filterRelevantAppointments l) w =
  (inr (filterRelevantAppointments (clock w) (fun _ => clock w) l), w).
Proof. reflexivity. Qed.

Section AtMost.

Variable P : Request -> bool.

Lemma at_most_weaken {A : Type} (n n' : nat) (p : Prog A) :
  at_most P n p -> (n <= n')%nat -> at_most P n' p.
Proof. intros H Hle w. specialize (H w). lia. Qed.

Lemma at_most_bind {A B : Type} (n k : nat) (m : Prog A) (f : A -> Prog B) :
  at_most P n m -> (forall a, at_most P k (f a)) -> at_most P (n + k) (bind m f).
Proof.
  intros Hm Hf w. rewrite run_bind. specialize (Hm w).
  destruct (run m w) as [[e|a] w1]; simpl in *; [lia|].
  specialize (Hf a w1). lia.
Qed.

Lemma at_most_try_catch {A : Type} (n k : nat) (m : Prog A) (h : Error -> Prog A) :
  at_most P n m -> (forall e, at_most P k (h e)) -> at_most P (n + k) (try_catch m h).
Proof.
  intros Hm Hh w. rewrite run_try_catch. specialize (Hm w).
  destruct (run m w) as [[e|a] w1]; simpl in *; [|lia].
  specialize (Hh e w1). lia.
Qed.

Lemma at_most_await {A : Type} (n : nat) (p : Prog A) :
  at_most P n p -> at_most P n (await p).
Proof. intros H w. rewrite run_await. apply H. Qed.

Lemma at_most_Ret {A : Type} (a : A) : at_most P 0 (Ret a).
Proof. intros w. simpl. lia. Qed.

Lemma at_most_Throw {A : Type} (e : Error) : at_most P 0 (@Throw A e).
Proof. intros w. simpl. lia. Qed.

Lemma at_most_exchange (req : Request) (w : World) :
  (count_sent P (snd (exchange req w)) <= count_sent P w + (if P req then 1 else 0))%nat.
Proof.
  unfold exchange, count_sent.
  destruct (network w); simpl; destruct (P req); simpl; lia.
Qed.

Lemma at_most_fetch (req : Request) :
  at_most P (if P req then 1 else 0) (fetch req).
Proof.
  intros w. rewrite run_fetch. pose proof (at_most_exchange req w) as H.
  destruct (exchange req w) as [[msg|r] w1]; exact H.
Qed.

Lemma at_most_save : at_most P 0 saveTokens.
Proof.
  intros w. rewrite run_saveTokens. unfold save_result.
  destruct (tokens_of _); [simpl; lia|].
  destruct (write_error w); simpl; unfold count_sent; simpl; lia.
Qed.

(** A refresh sends a [RefreshCall] and nothing else. *)
Lemma at_most_refresh :
  (forall t, P (RefreshCall t) = false) -> at_most P 0 refreshAccessToken.
Proof.
  intros HP w. rewrite run_refreshAccessToken. unfold refresh_result.
  destruct (truthy _); [|simpl; lia].
  pose proof (at_most_exchange (RefreshCall (to_string (refreshToken (tokenManager w)))) w) as H.
  rewrite HP in H.
  destruct (exchange _ w) as [[msg|r] w1]; simpl in H.
  - assumption.
  - destruct (ok r); [|assumption].
    destruct (json r) as [msg|data]; [assumption|].
    unfold save_result. destruct (tokens_of _); [exact H|].
    simpl write_error. destruct (write_error w1); exact H.
Qed.

Lemma at_most_getValidToken :
  (forall t, P (RefreshCall t) = false) -> at_most P 0 getValidToken.
Proof.
  intros HP w. rewrite run_getValidToken.
  destruct (needsRefresh _ _); [|simpl; lia].
  pose proof (at_most_refresh HP w) as H. rewrite run_refreshAccessToken in H.
  destruct (refresh_result w) as [[e|u] w1]; exact H.
Qed.

Lemma at_most_authenticatedFetch (m : Method) (url : string) :
  (forall t, P (RefreshCall t) = false) ->
  (forall token, P (ApiCall m url token) = false) ->
  at_most P 0 (authenticatedFetch m url).
Proof.
  intros HP Hurl w. rewrite run_authenticatedFetch.
  pose proof (at_most_getValidToken HP w) as H.
  destruct (run getValidToken w) as [[e|token] w1]; [exact H|].
  pose proof (at_most_exchange (ApiCall m url token) w1) as H1. rewrite Hurl in H1.
  simpl in H. destruct (exchange _ w1) as [[msg|r] w2]; simpl in *; [lia|].
  destruct (status r =? 401)%N; simpl; lia.
Qed.

Lemma one_authenticatedFetch (m : Method) (url : string) :
  (forall t, P (RefreshCall t) = false) ->
  at_most P 1 (authenticatedFetch m url).
Proof.
  intros HP w. rewrite run_authenticatedFetch.
  pose proof (at_most_getValidToken HP w) as H.
  destruct (run getValidToken w) as [[e|token] w1]; [simpl in *; lia|].
  pose proof (at_most_exchange (ApiCall m url token) w1) as H1.
  assert ((if P (ApiCall m url token) then 1 else 0) <= 1)%nat
    by (destruct (P _); lia).
  simpl in H. destruct (exchange _ w1) as [[msg|r] w2]; simpl in *; [lia|].
  destruct (status r =? 401)%N; simpl; lia.
Qed.

End AtMost.

Lemma refresh_is_no_search (t : string) : is_search (RefreshCall t) = false.
Proof. reflexivity. Qed.

Lemma get_is_no_search (url token : string) : is_search (ApiCall GET url token) = false.
Proof. reflexivity. Qed.

Lemma at_most_response_json (P : Request -> bool) (r : Response) :
  at_most P 0 (response_json r).
Proof.
  intros w. rewrite run_response_json. destruct (json r); simpl; lia.
Qed.

Lemma contact_lookups_search_nothing (cs : list ContactRef) (acc : list string) :
  at_most is_search 0 (contact_first_names cs acc).
Proof.
  revert acc; induction cs as [|c rest IH]; intros acc; cbn [contact_first_names].
  - apply at_most_Ret.
  - destruct (truthy (contact c)); [|apply IH].
    apply (at_most_bind is_search 0 0).
    + apply at_most_await, at_most_authenticatedFetch.
      * exact refresh_is_no_search.
      * intros token. apply get_is_no_search.
    + intros contactRes. apply (at_most_bind is_search 0 0).
      * apply at_most_response_json.
      * intros contactData. apply IH.
Qed.

Lemma collect_searches_nothing (rs : list ApptRecord) (acc : list Appointment) :
  at_most is_search 0 (collect rs acc).
Proof.
  revert acc; induction rs as [|a rest IH]; intros acc; cbn [collect].
  - apply at_most_Ret.
  - apply (at_most_bind is_search 0 0).
    + destruct (resources a); [apply at_most_Ret|apply at_most_Throw].
    + intros room0. apply (at_most_bind is_search 0 0).
      * destruct (contacts a); [apply contact_lookups_search_nothing|apply at_most_Ret].
      * intros names0. apply IH.
Qed.

(** One run of [getAppointmentsForToday] sends the search request at most
    once. *)
Lemma getAppointmentsForToday_searches_once :
  at_most is_search 1 getAppointmentsForToday.
Proof.
  unfold getAppointmentsForToday.
  apply (at_most_bind is_search 1 0).
  - apply at_most_await, one_authenticatedFetch. exact refresh_is_no_search.
  - intros res. apply (at_most_bind is_search 0 0).
    + apply at_most_response_json.
    + intros data. apply collect_searches_nothing.
Qed.

(** C3, as the code has it: [authenticatedFetch] answers a 401 by throwing,
    with its request on the wire once and no refresh of its own; the
    handler of /api/appointments, when [getAppointmentsForToday] throws an
    error whose message contains 401, calls [refreshAccessToken] once
    without asking [needsRefresh] and runs [getAppointmentsForToday] once
    more; when that refresh or that second run throws, it answers 500; a
    run of the handler sends at most two search requests. *)
Theorem handler_refreshes_and_retries_once (w : World) :
  (forall m url token r w1 w2,
     run getValidToken w = (inr token, w1) ->
     exchange (ApiCall m url token) w1 = (Responded r, w2) ->
     status r = 401%N ->
     run (authenticatedFetch m url) w = (inl Unauthorized401, w2) /\
     sent w2 = ApiCall m url token :: sent w1 /\
     tokenManager w2 = tokenManager w1) /\
  run api_appointments w =
    match run getAppointmentsForToday w with
    | (inr appointments, w1) =>
        (inr (Json200 (filterRelevantAppointments (clock w1) (fun _ => clock w1) appointments)),
         w1)
    | (inl error, w1) =>
        if includes (message error) "401" then
          match run refreshAccessToken w1 with
          | (inl _, w2) => (inr Error500, w2)
          | (inr _, w2) =>
              match run getAppointmentsForToday w2 with
              | (inr appointments, w3) =>
                  (inr (Json200 (filterRelevantAppointments
                                   (clock w3) (fun _ => clock w3) appointments)), w3)
              | (inl _, w3) => (inr Error500, w3)
              end
          end
        else (inr Error500, w1)
    end /\
  (count_sent is_search (snd (run api_appointments w)) <= count_sent is_search w + 2)%nat.
Proof.
  split; [|split].
  - intros m url token r w1 w2 Htok Hex H401.
    rewrite run_authenticatedFetch, Htok, Hex, H401. simpl.
    split; [reflexivity|].
    unfold exchange in Hex. destruct (network w1); inversion Hex; subst; simpl; auto.
  - unfold api_appointments. rewrite run_try_catch. runs.
    destruct (run getAppointmentsForToday w) as [[error|appointments] w1]; runs.
    + destruct (includes (message error) "401"); runs; [|reflexivity].
      rewrite run_try_catch. runs.
      destruct (refresh_result w1) as [[e2|u] w2]; runs; [reflexivity|].
      destruct (run getAppointmentsForToday w2) as [[e3|appointments] w3]; runs.
      * reflexivity.
      * rewrite run_call_filterRelevantAppointments. runs. reflexivity.
    + rewrite run_call_filterRelevantAppointments. runs. reflexivity.
  - revert w.
    change (at_most is_search 2 api_appointments).
    unfold api_appointments.
    apply (at_most_try_catch is_search 1 1).
    + apply (at_most_bind is_search 1 0).
      * apply at_most_await, getAppointmentsForToday_searches_once.
      * intros l. apply (at_most_bind is_search 0 0); [|intros; apply at_most_Ret].
        intros w. rewrite run_call_filterRelevantAppointments. simpl. lia.
    + intros error. apply (at_most_bind is_search 1 0).
      * destruct (includes (message error) "401"); [|apply (at_most_weaken is_search 0 1); [apply at_most_Ret|lia]].
        apply (at_most_try_catch is_search 1 0); [|intros; apply at_most_Ret].
        apply (at_most_bind is_search 0 1).
        -- apply at_most_await, at_most_refresh. exact refresh_is_no_search.
        -- intros _. apply (at_most_bind is_search 1 0).
           ++ apply at_most_await, getAppointmentsForToday_searches_once.
           ++ intros l. apply (at_most_bind is_search 0 0); [|intros; apply at_most_Ret].
              intros w. rewrite run_call_filterRelevantAppointments. simpl. lia.
      * intros [reply|]; apply at_most_Ret.
Qed.

(** ** Concurrent callers *)

Lemma whole_turns_sync {A : Type} (rs : list Response) (p : Prog A) (now : Z) (s : Shared) :
  whole_turns rs p -> whole_turns rs (fst (sync now p s)).
Proof.
  revert s; induction p as [a|e|k IH|k IH|g k IH|k IH|d k IH|req k IH|k IH];
    intros s H; simpl in *; auto.
Qed.

(** Resuming a call: only the turn an [await] resumes may assign, and only
    from what the call had received before. *)
Lemma whole_turns_resume {A : Type} (rs : list Response) (io : Settled) (p p' : Prog A)
    (s s' : Shared) :
  whole_turns rs p -> resume io p s = Some (p', s') ->
  mgr s' = mgr s /\
  whole_turns (received_after io rs) p' /\
  whole_turn match io with Resumed => rs | _ => [] end p'.
Proof.
  intros H Hres.
  destruct p as [a|e|k|k|g k|k|d k|req k|k]; destruct io as [o|[failure|]| |];
    simpl in *; try discriminate; inversion Hres; subst; clear Hres; simpl.
  - destruct (H (file s')) as [Hq Ht]. repeat split; auto.
    intros now t. left. apply Hq.
  - destruct (H (Some (reason failure))) as [Hq Ht]. repeat split; auto.
    intros now t. left. apply Hq.
  - destruct (H None) as [Hq Ht]. repeat split; auto.
    intros now t. left. apply Hq.
  - destruct (H o) as [Hq Ht]. repeat split; auto.
    intros now t. left. apply Hq.
  - destruct H as [Hw Ht]. repeat split; auto.
Qed.

Lemma nth_error_set_nth {A : Type} (i j : nat) (x : A) (l : list A) :
  nth_error (set_nth i x l) j
  = if Nat.eqb i j then option_map (fun _ => x) (nth_error l j) else nth_error l j.
Proof.
  revert i j. induction l as [|y l IH]; intros i j.
  - destruct i; simpl; destruct j; simpl; try reflexivity;
      destruct (Nat.eqb _ _); reflexivity.
  - destruct i as [|i]; destruct j as [|j]; simpl; try reflexivity. apply IH.
Qed.

Lemma Forall2_set_nth {A B : Type} (P : A -> B -> Prop) (i : nat) (a : A) (b : B)
    (la : list A) (lb : list B) :
  Forall2 P la lb -> P a b -> Forall2 P (set_nth i a la) (set_nth i b lb).
Proof.
  intros H Hab. revert i. induction H as [|x y la lb Hxy H IH]; intros i.
  - destruct i; constructor.
  - destruct i; simpl; constructor; auto.
Qed.

Lemma Forall2_nth_error_right {A B : Type} (P : A -> B -> Prop) (la : list A) (lb : list B)
    (i : nat) (b : B) :
  Forall2 P la lb -> nth_error lb i = Some b ->
  exists a, nth_error la i = Some a /\ P a b.
Proof.
  intros H. revert i. induction H as [|x y la lb Hxy H IH]; intros i Hi.
  - destruct i; discriminate.
  - destruct i as [|i]; simpl in *.
    + inversion Hi; subst. exists x. split; [reflexivity|exact Hxy].
    + apply IH. exact Hi.
Qed.

Lemma exec_snoc {A : Type} (entry : Prog A) (evs : list Event) (ev : Event) (sys : System A) :
  exec entry (evs ++ [ev]) sys = step entry ev (exec entry evs sys).
Proof. unfold exec. rewrite fold_left_app. reflexivity. Qed.

Lemma delivered_snoc {A : Type} (entry : Prog A) (sys0 : System A) (evs : list Event)
    (ev : Event) (i : nat) (r : Response) :
  delivered entry sys0 evs i r -> delivered entry sys0 (evs ++ [ev]) i r.
Proof.
  intros [evs1 [evs2 [t [req [k [Hevs Hnth]]]]]].
  exists evs1, (evs2 ++ [ev])%list, t, req, k. split; [|exact Hnth].
  rewrite Hevs, <- app_assoc. reflexivity.
Qed.

(** Each turn of the event loop leaves the manager untouched or assigns
    the whole body of a response the resumed call has received, whatever
    the calls in flight. *)
Lemma step_whole_turn {A : Type} (entry : Prog A) (sys0 : System A) (evs : list Event)
    (ev : Event) :
  quiet_turn entry -> whole_turns [] entry ->
  tracked entry sys0 evs (calls (exec entry evs sys0)) ->
  whole_step entry sys0 evs ev
    (mgr (shared (exec entry evs sys0)))
    (mgr (shared (step entry ev (exec entry evs sys0)))) /\
  tracked entry sys0 (evs ++ [ev]) (calls (step entry ev (exec entry evs sys0))).
Proof.
  intros Hquiet Hturns [recs [Hcalls Hrecs]].
  set (sys := exec entry evs sys0) in *.
  assert (Hsame : tracked entry sys0 (evs ++ [ev]) (calls sys)).
  { exists recs. split; [exact Hcalls|].
    intros j rs r Hj Hr. apply delivered_snoc. eapply Hrecs; eauto. }
  destruct ev as [now|i now io]; simpl.
  - pose proof (Hquiet now (shared sys)) as H1.
    pose proof (whole_turns_sync [] entry now (shared sys) Hturns) as H2.
    destruct (sync now entry (shared sys)) as [p s]; simpl in *.
    split; [left; exact H1|].
    exists (recs ++ [[]])%list. split.
    + apply Forall2_app; [exact Hcalls|]. constructor; [exact H2|constructor].
    + intros j rs r Hj Hr.
      destruct (Nat.lt_ge_cases j (List.length recs)) as [Hlt|Hge].
      * rewrite nth_error_app1 in Hj by exact Hlt.
        apply delivered_snoc. eapply Hrecs; eauto.
      * rewrite nth_error_app2 in Hj by exact Hge.
        destruct (j - List.length recs)%nat as [|n]; simpl in Hj.
        -- inversion Hj; subst. destruct Hr.
        -- destruct n; discriminate.
  - destruct (nth_error (calls sys) i) as [p|] eqn:Hnth;
      [|split; [left; reflexivity|exact Hsame]].
    destruct (Forall2_nth_error_right _ _ _ _ _ Hcalls Hnth) as [rs [Hrs Hp]].
    destruct (resume io p (shared sys)) as [[p' s']|] eqn:Hres;
      [|split; [left; reflexivity|exact Hsame]].
    destruct (whole_turns_resume _ _ _ _ _ _ Hp Hres) as [Hm [Hp2 Hp1]].
    pose proof (Hp1 now s') as H1.
    pose proof (whole_turns_sync _ p' now s' Hp2) as H2.
    destruct (sync now p' s') as [p'' s'']; simpl in *.
    split.
    + rewrite <- Hm. destruct H1 as [H1|[r [data [Hin [Hok [Hjson H1]]]]]];
        [left; exact H1|].
      destruct io; try (destruct Hin).
      right. exists i, now, r, data. repeat split; auto.
      eapply Hrecs; eauto.
    + exists (set_nth i (received_after io rs) recs). split.
      * apply Forall2_set_nth; assumption.
      * intros j rs' r Hj Hr. rewrite nth_error_set_nth in Hj.
        destruct (Nat.eqb i j) eqn:Hij.
        -- apply Nat.eqb_eq in Hij. subst j. rewrite Hrs in Hj. simpl in Hj.
           inversion Hj; subst rs'; clear Hj.
           assert (Hold : In r rs -> delivered entry sys0 (evs ++ [Settle i now io]) i r)
             by (intros Hin; apply delivered_snoc; eapply Hrecs; eauto).
           destruct io as [[msg|r0]|err| |]; simpl in Hr; try (apply Hold; exact Hr).
           destruct Hr as [<-|Hr]; [|apply Hold; exact Hr].
           destruct p as [a|e|k|k|g k|k|d k|req k|k]; simpl in Hres; try discriminate.
           exists evs, [], now, req, k. split; [reflexivity|exact Hnth].
        -- apply delivered_snoc. eapply Hrecs; eauto.
Qed.

Lemma exec_tracked {A : Type} (entry : Prog A) (sys0 : System A) (evs : list Event) :
  quiet_turn entry -> whole_turns [] entry ->
  tracked entry sys0 [] (calls sys0) ->
  tracked entry sys0 evs (calls (exec entry evs sys0)).
Proof.
  intros Hquiet Hturns H0. induction evs as [|ev evs IH] using rev_ind; [exact H0|].
  rewrite exec_snoc. apply (step_whole_turn entry sys0 evs ev Hquiet Hturns IH).
Qed.

Lemma boot_tracked {A : Type} (entry : Prog A) (m : TokenManager) (f : TokenFile) :
  tracked entry (boot m f) [] (calls (boot (A:=A) m f)).
Proof.
  exists []. split; [constructor|]. intros i rs r Hi. destruct i; discriminate.
Qed.

Lemma exec_whole_step {A : Type} (entry : Prog A) (m : TokenManager) (f : TokenFile)
    (evs : list Event) (ev : Event) :
  quiet_turn entry -> whole_turns [] entry ->
  whole_step entry (boot m f) evs ev
    (mgr (shared (exec entry evs (boot m f))))
    (mgr (shared (step entry ev (exec entry evs (boot m f))))).
Proof.
  intros Hquiet Hturns.
  apply (step_whole_turn entry (boot m f) evs ev Hquiet Hturns).
  apply exec_tracked; auto. apply boot_tracked.
Qed.

Lemma whole_grants_snoc {A : Type} (entry : Prog A) (sys0 : System A) (evs : list Event)
    (ev : Event) (m m' : TokenManager) :
  whole_grants entry sys0 evs m m' -> whole_grants entry sys0 (evs ++ [ev]) m m'.
Proof.
  intros H. induction H as [|m' i now r data H IH Hin Hd Hok Hjson]; [constructor|].
  apply (grants_more entry sys0 (evs ++ [ev]) m m' i now r data); auto.
  - apply in_or_app. left. exact Hin.
  - apply delivered_snoc. exact Hd.
Qed.

Lemma exec_whole_grants {A : Type} (entry : Prog A) (m : TokenManager) (f : TokenFile)
    (evs : list Event) :
  quiet_turn entry -> whole_turns [] entry ->
  whole_grants entry (boot m f) evs m (mgr (shared (exec entry evs (boot m f)))).
Proof.
  intros Hquiet Hturns. induction evs as [|ev evs IH] using rev_ind; [constructor|].
  rewrite exec_snoc.
  destruct (exec_whole_step entry m f evs ev Hquiet Hturns)
    as [Heq|[i [now [r [data [Hev [Hd [Hok [Hjson Heq]]]]]]]]]; rewrite Heq.
  - apply whole_grants_snoc. exact IH.
  - apply (grants_more entry (boot m f) (evs ++ [ev]) m _ i now r data); auto.
    + apply whole_grants_snoc. exact IH.
    + apply in_or_app. right. left. exact Hev.
    + apply delivered_snoc. exact Hd.
Qed.

Lemma refreshAccessToken_whole_turns :
  quiet_turn refreshAccessToken /\ whole_turns [] refreshAccessToken.
Proof.
  unfold refreshAccessToken, saveTokens, await,
    this_, Date_now, assign, fetch, response_json, response_text.
  turn_cases.
  all: try reflexivity.
  all: try (left; reflexivity).
  all: right;
    match goal with
    | Hj : json ?r = inr ?data |- _ => exists r, data
    end;
    repeat split; [left; reflexivity| |assumption];
    match goal with
    | Hk : negb (ok _) = false |- _ => apply negb_false_iff in Hk; exact Hk
    end.
Qed.

Lemma getValidToken_whole_turns :
  quiet_turn getValidToken /\ whole_turns [] getValidToken.
Proof.
  unfold getValidToken, call_needsRefresh, refreshAccessToken, saveTokens, await,
    this_, Date_now, assign, fetch, response_json, response_text.
  turn_cases.
  all: try reflexivity.
  all: try (left; reflexivity).
  all: right;
    match goal with
    | Hj : json ?r = inr ?data |- _ => exists r, data
    end;
    repeat split; [left; reflexivity| |assumption];
    match goal with
    | Hk : negb (ok _) = false |- _ => apply negb_false_iff in Hk; exact Hk
    end.
Qed.

(** A caller that finds the token stale puts its own refresh request on
    the wire before it suspends, and leaves the manager as it found it. *)
Lemma stale_call_sends_refresh (now : Z) (s : Shared) :
  needsRefresh now (mgr s) = true ->
  truthy (refreshToken (mgr s)) = true ->
  exists k,
    sync now getValidToken s =
    (Fetch (RefreshCall (to_string (refreshToken (mgr s)))) k,
     {| mgr := mgr s; file := file s;
        wire := RefreshCall (to_string (refreshToken (mgr s))) :: wire s |}).
Proof.
  intros Hneeds Htok.
  unfold getValidToken, call_needsRefresh, refreshAccessToken, await, this_, Date_now, fetch.
  simpl. rewrite Hneeds. simpl. rewrite Htok. simpl. eexists. reflexivity.
Qed.

Lemma stale_calls_send_refreshes (ts : list Z) (sys : System string) :
  truthy (refreshToken (mgr (shared sys))) = true ->
  Forall (fun t => needsRefresh t (mgr (shared sys)) = true) ts ->
  let sys' := exec getValidToken (map Call ts) sys in
  wire (shared sys') =
    (repeat (RefreshCall (to_string (refreshToken (mgr (shared sys))))) (List.length ts)
     ++ wire (shared sys))%list /\
  mgr (shared sys') = mgr (shared sys) /\
  List.length (calls sys') = (List.length (calls sys) + List.length ts)%nat.
Proof.
  revert sys. induction ts as [|t ts IH]; intros sys Htok Hall.
  - simpl. repeat split. lia.
  - inversion Hall as [|t' ts' Ht Hts]; subst.
    destruct (stale_call_sends_refresh t (shared sys) Ht Htok) as [k Hk].
    unfold exec in *. cbn [map fold_left].
    change (step getValidToken (Call t) sys)
      with (let (p, s) := sync t getValidToken (shared sys) in
            {| shared := s; calls := (calls sys ++ [p])%list |}).
    rewrite Hk.
    set (sys1 := {| shared := _; calls := _ |}).
    specialize (IH sys1 Htok Hts). cbv zeta in IH. destruct IH as [Hw [Hm Hl]].
    rewrite Hw, Hm, Hl. unfold sys1; cbn [shared calls mgr wire]. repeat split.
    + change (?x :: wire (shared sys))%list with ([x] ++ wire (shared sys))%list.
      rewrite app_assoc, <- repeat_cons. reflexivity.
    + unfold sys1; simpl. rewrite length_app. simpl. lia.
Qed.

(** C1, as the code has it: callers of [getValidToken] that enter while
    the token is stale and no refresh has completed each send their own
    refresh request, so [N] callers make [N] upstream refresh calls with
    the same refresh token; and in every interleaving of calls and settled
    operations each turn leaves the manager untouched or, being the turn
    of a call resumed from an [await], assigns access token, refresh token
    and expiry together, all three from the body of a 2xx response that
    settled a [fetch] of that call and with the expiry counted from the
    clock of that turn, so the manager seen between turns is never
    half-updated. *)
Theorem concurrent_callers_refresh_separately (m : TokenManager) (f : TokenFile) :
  (forall ts,
     truthy (refreshToken m) = true ->
     Forall (fun t => needsRefresh t m = true) ts ->
     let sys := exec getValidToken (map Call ts) (boot m f) in
     wire (shared sys) = repeat (RefreshCall (to_string (refreshToken m))) (List.length ts) /\
     refresh_calls (wire (shared sys)) = List.length ts /\
     mgr (shared sys) = m) /\
  (forall evs,
     whole_grants getValidToken (boot m f) evs m
       (mgr (shared (exec getValidToken evs (boot m f))))) /\
  (forall evs ev,
     let sys := exec getValidToken evs (boot m f) in
     whole_step getValidToken (boot m f) evs ev
       (mgr (shared sys)) (mgr (shared (step getValidToken ev sys)))).
Proof.
  destruct getValidToken_whole_turns as [Hquiet Hturns].
  split; [|split].
  - intros ts Htok Hall.
    destruct (stale_calls_send_refreshes ts (boot m f) Htok Hall) as [Hw [Hm Hl]].
    simpl in Hw, Hm. rewrite app_nil_r in Hw. cbv zeta. rewrite Hw, Hm.
    repeat split. unfold refresh_calls.
    clear. induction (List.length ts) as [|n IH]; simpl; [reflexivity|]. rewrite IH. reflexivity.
  - intros evs. apply (exec_whole_grants getValidToken m f evs Hquiet Hturns).
  - intros evs ev. cbv zeta.
    apply (exec_whole_step getValidToken m f evs ev Hquiet Hturns).
Qed.

(** ** One refresh, turn by turn *)

(** C4, as the code has it: a [refreshAccessToken] that returns got a 2xx
    response with a JSON body; the access token is the body's
    [access_token] (its [token] when that is absent or empty), the refresh
    token is the body's [refresh_token] when that is a non-empty string and
    the old one otherwise, the expiry is the clock read after the response
    plus [expires_in] seconds, 3600 when [expires_in] is absent or 0, and
    tokens.json holds these three values.  The three are assigned in one
    turn: in every interleaving a turn of a [refreshAccessToken] call
    leaves the manager as it was or assigns all three from the body of the
    call's response; and the turn that reads the body of the response
    finds the manager as the call found it, leaves it with all three
    assigned and ends on the write of tokens.json, which is still as it
    was. *)
Theorem successful_refresh_installs_grant (w w' : World) :
  run refreshAccessToken w = (inr tt, w') ->
  (exists x rest r data,
     network w = x :: rest /\ outcome x = Responded r /\
     ok r = true /\ json r = inr data /\
     let now := clock w + latency x in
     let lifetime :=
       match expires_in data with
       | Some n => if n =? 0 then 3600 else n
       | None => 3600
       end in
     let expiry := now + lifetime * 1000 in
     representable expiry /\
     tokenManager w' =
       {| accessToken := access_token data ||| token data;
          refreshToken := refresh_token data ||| refreshToken (tokenManager w);
          tokenExpiry := Some (DateOf expiry) |} /\
     disk w' =
       Stored {| json_accessToken := access_token data ||| token data;
                 json_refreshToken := refresh_token data ||| refreshToken (tokenManager w);
                 json_tokenExpiry := Str (toISOString expiry) |}) /\
  (forall m f evs ev,
     let sys := exec refreshAccessToken evs (boot m f) in
     whole_step refreshAccessToken (boot m f) evs ev
       (mgr (shared sys)) (mgr (shared (step refreshAccessToken ev sys)))) /\
  (forall m f t0 t1 t2 r data,
     truthy (refreshToken m) = true -> ok r = true -> json r = inr data ->
     let sys1 :=
       exec refreshAccessToken [Call t0; Settle 0 t1 (FetchSettled (Responded r))]
         (boot m f) in
     let sys2 := step refreshAccessToken (Settle 0 t2 Resumed) sys1 in
     mgr (shared sys1) = m /\
     mgr (shared sys2) = granted t2 data m /\
     file (shared sys2) = f /\
     forall tokens,
       tokens_of (granted t2 data m) = inr tokens ->
       exists k, nth_error (calls sys2) 0 = Some (WriteFile tokens k)).
Proof.
  intros Hrun. split; [|split].
  - revert Hrun.
    rewrite run_refreshAccessToken. unfold refresh_result, exchange.
    destruct (truthy (refreshToken (tokenManager w))); [|discriminate].
    destruct (network w) as [|x rest]; [discriminate|].
    destruct (outcome x) as [msg|r] eqn:Hout; [discriminate|].
    destruct (ok r) eqn:Hok; [|discriminate].
    destruct (json r) as [msg|data] eqn:Hjson; [discriminate|].
    unfold save_result, tokens_of, granted. simpl.
    fold (num_or (expires_in data) 3600).
    destruct (TimeClip _) as [t|] eqn:Hclip; [|discriminate].
    apply TimeClip_DateOf in Hclip. destruct Hclip as [-> Hrep].
    destruct (write_error w); [discriminate|].
    intros H. inversion H; subst; clear H. simpl.
    exists x, rest, r, data. repeat split; auto.
  - intros m f evs ev. cbv zeta.
    destruct refreshAccessToken_whole_turns as [Hquiet Hturns].
    apply (exec_whole_step refreshAccessToken m f evs ev Hquiet Hturns).
  - intros m f t0 t1 t2 r data Htok Hok Hjson. cbv zeta.
    unfold exec, boot, step, refreshAccessToken, await, this_, Date_now, fetch,
      response_json, assign, saveTokens.
    simpl. rewrite Htok. simpl. rewrite Hok. simpl. rewrite Hjson. simpl.
    assert (Hsame : forall tokens,
              tokens_of (granted t2 data m) = inr tokens ->
              tokens_of
                (set_tokenExpiry
                   (Some (TimeClip (t2 + num_or (expires_in data) 3600 * 1000)))
                   (set_refreshToken (refresh_token data ||| refreshToken m)
                      (set_accessToken (access_token data ||| token data) m)))
              = inr tokens) by (intros tokens Ht; exact Ht).
    destruct (tokens_of _) as [e|tk] eqn:Htk; simpl; repeat split;
      intros tokens Ht; apply Hsame in Ht.
    + discriminate Ht.
    + inversion Ht; subst. eexists. reflexivity.
Qed.

(** ** More on refreshing *)

Lemma sent_exchange (req : Request) (w : World) :
  sent (snd (exchange req w)) = req :: sent w /\
  network (snd (exchange req w)) = tl (network w) /\
  tokenManager (snd (exchange req w)) = tokenManager w /\
  disk (snd (exchange req w)) = disk w /\
  write_error (snd (exchange req w)) = write_error w.
Proof. unfold exchange. destruct (network w); simpl; auto. Qed.

Lemma save_result_keeps (w : World) :
  sent (snd (save_result w)) = sent w /\
  network (snd (save_result w)) = network w /\
  clock (snd (save_result w)) = clock w /\
  tokenManager (snd (save_result w)) = tokenManager w.
Proof.
  unfold save_result. destruct (tokens_of _); [simpl; auto|].
  destruct (write_error w); simpl; auto.
Qed.

(** X1: without a refresh token [refreshAccessToken] throws before it
    sends anything; with a stale token every [getValidToken] and
    [authenticatedFetch] then throws the same error, and the handler
    answers 500, all without a request and without a change. *)
Theorem no_refresh_token_no_request (w : World) :
  truthy (refreshToken (tokenManager w)) = false ->
  run refreshAccessToken w = (inl NoRefreshTokenAvailable, w) /\
  (needsRefresh (clock w) (tokenManager w) = true ->
   run getValidToken w = (inl NoRefreshTokenAvailable, w) /\
   (forall m url, run (authenticatedFetch m url) w = (inl NoRefreshTokenAvailable, w)) /\
   run getAppointmentsForToday w = (inl NoRefreshTokenAvailable, w) /\
   run api_appointments w = (inr Error500, w)).
Proof.
  intros Htok.
  assert (Href : run refreshAccessToken w = (inl NoRefreshTokenAvailable, w)).
  { rewrite run_refreshAccessToken. unfold refresh_result. rewrite Htok. reflexivity. }
  split; [exact Href|]. intros Hneeds.
  assert (Hget : run getValidToken w = (inl NoRefreshTokenAvailable, w)).
  { rewrite run_getValidToken, Hneeds. rewrite run_refreshAccessToken in Href.
    rewrite Href. reflexivity. }
  assert (Hfetch : forall m url,
             run (authenticatedFetch m url) w = (inl NoRefreshTokenAvailable, w)).
  { intros m url. rewrite run_authenticatedFetch, Hget. reflexivity. }
  assert (Happ : run getAppointmentsForToday w = (inl NoRefreshTokenAvailable, w)).
  { unfold getAppointmentsForToday. rewrite run_bind, run_await, Hfetch. reflexivity. }
  repeat split; auto.
  unfold api_appointments. rewrite run_try_catch, run_bind, run_await, Happ.
  cbv beta iota. reflexivity.
Qed.

(** What [refreshAccessToken] puts on the wire. *)
Lemma sent_refreshAccessToken (w : World) :
  truthy (refreshToken (tokenManager w)) = true ->
  sent (snd (run refreshAccessToken w))
  = RefreshCall (to_string (refreshToken (tokenManager w))) :: sent w /\
  network (snd (run refreshAccessToken w)) = tl (network w).
Proof.
  intros Htok. rewrite run_refreshAccessToken. unfold refresh_result. rewrite Htok.
  pose proof (sent_exchange (RefreshCall (to_string (refreshToken (tokenManager w)))) w)
    as [Hs [Hn _]].
  destruct (exchange _ w) as [[msg|r] w1]; simpl in Hs, Hn; [auto|].
  destruct (ok r); [|auto].
  destruct (json r) as [msg|data]; [auto|].
  pose proof (save_result_keeps
                (with_manager (granted (clock w1) data (tokenManager w1)) w1))
    as [Hs' [Hn' _]].
  rewrite Hs', Hn'. simpl. auto.
Qed.

(** X2: with a refresh token held, [refreshAccessToken] sends exactly one
    request however it ends: the refresh call with the token held at that
    moment; it adds no other request and takes exactly one answer of the
    upstream. *)
Theorem refresh_sends_one_request (w : World) :
  truthy (refreshToken (tokenManager w)) = true ->
  hd_error (sent (snd (run refreshAccessToken w)))
  = Some (RefreshCall (to_string (refreshToken (tokenManager w)))) /\
  refresh_calls (sent (snd (run refreshAccessToken w))) = S (refresh_calls (sent w)) /\
  count_sent is_api (snd (run refreshAccessToken w)) = count_sent is_api w /\
  List.length (network (snd (run refreshAccessToken w))) = pred (List.length (network w)).
Proof.
  intros Htok. destruct (sent_refreshAccessToken w Htok) as [Hs Hn].
  unfold refresh_calls, count_sent. rewrite Hs, Hn. simpl.
  repeat split. destruct (network w); reflexivity.
Qed.

(** X3: a [refreshAccessToken] that throws has left manager and
    tokens.json as they were, unless the response was accepted and the
    failure is that of [saveTokens].  The manager then holds the tokens of
    that response, which the disk does not: with an expiry out of a Date's
    range nothing is written, and with a rejected write tokens.json is
    what the rejected write left of it (as it was, truncated, or
    written). *)
Theorem failed_refresh_disk_and_memory (w w' : World) (e : Error) :
  run refreshAccessToken w = (inl e, w') ->
  (tokenManager w' = tokenManager w /\ disk w' = disk w) \/
  exists x rest r data,
    network w = x :: rest /\ outcome x = Responded r /\
    ok r = true /\ json r = inr data /\
    tokenManager w' = granted (clock w + latency x) data (tokenManager w) /\
    ((tokens_of (tokenManager w') = inl e /\ disk w' = disk w) \/
     exists failure tokens,
       write_error w = Some failure /\
       e = RuntimeError (reason failure) /\
       tokens_of (tokenManager w') = inr tokens /\
       disk w' = after_failed_write (damage failure) tokens (disk w)).
Proof.
  rewrite run_refreshAccessToken. unfold refresh_result, exchange.
  destruct (truthy (refreshToken (tokenManager w)));
    [|intros H; inversion H; subst; auto].
  destruct (network w) as [|x rest]; [intros H; inversion H; subst; auto|].
  destruct (outcome x) as [msg|r] eqn:Hout; [intros H; inversion H; subst; auto|].
  destruct (ok r) eqn:Hok; [|intros H; inversion H; subst; auto].
  destruct (json r) as [msg|data] eqn:Hjson; [intros H; inversion H; subst; auto|].
  unfold save_result. cbn [tokenManager write_error with_manager clock disk].
  destruct (tokens_of _) as [e'|tk] eqn:Htk.
  - intros H; inversion H; subst. right. exists x, rest, r, data.
    cbn [tokenManager with_manager disk]. repeat split; auto.
  - destruct (write_error w) as [failure|] eqn:Hwe; intros H; inversion H; subst.
    right. exists x, rest, r, data.
    cbn [tokenManager with_manager with_disk disk]. repeat split; auto.
    right. exists failure, tk. repeat split; auto.
Qed.

Section Keeps.

Variable I : TokenManager -> Prop.

Lemma keeps_bind {A B : Type} (m : Prog A) (f : A -> Prog B) :
  keeps I m -> (forall a, keeps I (f a)) -> keeps I (bind m f).
Proof.
  intros Hm Hf w Hw. rewrite run_bind. specialize (Hm w Hw).
  destruct (run m w) as [[e|a] w1]; simpl in *; [assumption|]. apply Hf. assumption.
Qed.

Lemma keeps_try_catch {A : Type} (m : Prog A) (h : Error -> Prog A) :
  keeps I m -> (forall e, keeps I (h e)) -> keeps I (try_catch m h).
Proof.
  intros Hm Hh w Hw. rewrite run_try_catch. specialize (Hm w Hw).
  destruct (run m w) as [[e|a] w1]; simpl in *; [|assumption]. apply Hh. assumption.
Qed.

Lemma keeps_await {A : Type} (p : Prog A) : keeps I p -> keeps I (await p).
Proof. intros H w. rewrite run_await. apply H. Qed.

Lemma keeps_Ret {A : Type} (a : A) : keeps I (Ret a).
Proof. intros w H. exact H. Qed.

Lemma keeps_Throw {A : Type} (e : Error) : keeps I (@Throw A e).
Proof. intros w H. exact H. Qed.

Lemma keeps_fetch (req : Request) : keeps I (fetch req).
Proof.
  intros w H. rewrite run_fetch.
  pose proof (sent_exchange req w) as [_ [_ [Hm _]]].
  destruct (exchange req w) as [[msg|r] w1]; simpl in *; rewrite Hm; exact H.
Qed.

Lemma keeps_response_json (r : Response) : keeps I (response_json r).
Proof. intros w H. rewrite run_response_json. destruct (json r); exact H. Qed.

Lemma keeps_assign (f : TokenManager -> TokenManager) :
  (forall m, I m -> I (f m)) -> keeps I (assign f).
Proof. intros Hf w H. simpl. apply Hf. exact H. Qed.

Lemma keeps_saveTokens : keeps I saveTokens.
Proof.
  intros w H. rewrite run_saveTokens.
  pose proof (save_result_keeps w) as [_ [_ [_ Hm]]]. rewrite Hm. exact H.
Qed.

(** The three assignments of a refresh and the three of a load keep [I]
    when each of them does. *)
Hypothesis keeps_access : forall v m, I m -> I (set_accessToken v m).
Hypothesis keeps_expiry : forall d m, I m -> I (set_tokenExpiry d m).
Hypothesis keeps_refresh_or :
  forall v m, I m -> I (set_refreshToken (v ||| refreshToken m) m).

Lemma keeps_refreshAccessToken : keeps I refreshAccessToken.
Proof.
  unfold refreshAccessToken.
  apply keeps_bind; [intros w H; exact H|]. intros this.
  destruct (negb (truthy (refreshToken this))); [apply keeps_Throw|].
  apply keeps_try_catch; [|intros e; apply keeps_Throw].
  cbv zeta. apply keeps_bind; [apply keeps_fetch|]. intros response.
  apply keeps_bind.
  { destruct (negb (ok response)); [|apply keeps_Ret].
    apply keeps_bind; [intros w H; exact H|]. intros t. apply keeps_Throw. }
  intros _. apply keeps_bind; [apply keeps_response_json|]. intros data.
  apply keeps_bind; [apply keeps_assign; intros m; apply keeps_access|]. intros _.
  apply keeps_bind; [apply keeps_assign; intros m; apply keeps_refresh_or|]. intros _.
  apply keeps_bind; [intros w H; exact H|]. intros now.
  apply keeps_bind; [apply keeps_assign; intros m; apply keeps_expiry|]. intros _.
  apply keeps_await, keeps_saveTokens.
Qed.

Lemma keeps_getValidToken : keeps I getValidToken.
Proof.
  unfold getValidToken.
  apply keeps_bind; [intros w H; exact H|]. intros needs.
  apply keeps_bind.
  { destruct needs; [apply keeps_await, keeps_refreshAccessToken|apply keeps_Ret]. }
  intros _. apply keeps_bind; [intros w H; exact H|]. intros this. apply keeps_Ret.
Qed.

Lemma keeps_authenticatedFetch (m : Method) (url : string) :
  keeps I (authenticatedFetch m url).
Proof.
  unfold authenticatedFetch.
  apply keeps_bind; [apply keeps_await, keeps_getValidToken|]. intros token.
  apply keeps_bind; [apply keeps_fetch|]. intros response.
  destruct (status response =? 401)%N; [apply keeps_Throw|apply keeps_Ret].
Qed.

Lemma keeps_contact_first_names (cs : list ContactRef) (acc : list string) :
  keeps I (contact_first_names cs acc).
Proof.
  revert acc; induction cs as [|c rest IH]; intros acc; cbn [contact_first_names].
  - apply keeps_Ret.
  - destruct (truthy (contact c)); [|apply IH].
    apply keeps_bind; [apply keeps_await, keeps_authenticatedFetch|]. intros contactRes.
    apply keeps_bind; [apply keeps_response_json|]. intros contactData. apply IH.
Qed.

Lemma keeps_collect (rs : list ApptRecord) (acc : list Appointment) :
  keeps I (collect rs acc).
Proof.
  revert acc; induction rs as [|a rest IH]; intros acc; cbn [collect].
  - apply keeps_Ret.
  - apply keeps_bind.
    { destruct (resources a); [apply keeps_Ret|apply keeps_Throw]. }
    intros room0. apply keeps_bind.
    { destruct (contacts a); [apply keeps_contact_first_names|apply keeps_Ret]. }
    intros names0. apply IH.
Qed.

Lemma keeps_getAppointmentsForToday : keeps I getAppointmentsForToday.
Proof.
  unfold getAppointmentsForToday.
  apply keeps_bind; [apply keeps_await, keeps_authenticatedFetch|]. intros res.
  apply keeps_bind; [apply keeps_response_json|]. intros data. apply keeps_collect.
Qed.

Lemma keeps_api_appointments : keeps I api_appointments.
Proof.
  assert (Hattempt : forall B (g : list Shown -> B),
             keeps I (appointments <- await getAppointmentsForToday ;;
                      relevantAppointments <- call_filterRelevantAppointments appointments ;;
                      Ret (g relevantAppointments))).
  { intros B g. apply keeps_bind; [apply keeps_await, keeps_getAppointmentsForToday|].
    intros l. apply keeps_bind; [intros w H; exact H|]. intros l'. apply keeps_Ret. }
  unfold api_appointments. apply keeps_try_catch; [apply Hattempt|].
  intros error. apply keeps_bind.
  - destruct (includes (message error) "401"); [|apply keeps_Ret].
    apply keeps_try_catch; [|intros e; apply keeps_Ret].
    apply keeps_bind; [apply keeps_await, keeps_refreshAccessToken|].
    intros _. apply (Hattempt _ (fun l => Some (Json200 l))).
  - intros [reply|]; apply keeps_Ret.
Qed.

Lemma keeps_initialize : keeps I initialize.
Proof.
  intros w H. rewrite run_initialize.
  assert (Hseed : forall w0, I (tokenManager w0) ->
                  I (tokenManager (snd (run seed_or_refresh w0)))).
  { intros w0 H0. unfold seed_or_refresh.
    destruct (truthy (DAYLITE_ACCESS_TOKEN env)).
    - revert w0 H0.
      change (keeps I (assign (set_accessToken (DAYLITE_ACCESS_TOKEN env)) ;;
                       now <- Date_now ;;
                       assign (set_tokenExpiry (Some (TimeClip (now + 60 * 60 * 1000)))) ;;
                       await saveTokens)).
      apply keeps_bind; [apply keeps_assign; intros m; apply keeps_access|]. intros _.
      apply keeps_bind; [intros w1 H1; exact H1|]. intros now.
      apply keeps_bind; [apply keeps_assign; intros m; apply keeps_expiry|]. intros _.
      apply keeps_await, keeps_saveTokens.
    - revert w0 H0.
      change (keeps I (this <- this_ ;;
                       if truthy (refreshToken this) then await refreshAccessToken
                       else Throw NoTokensAvailable)).
      apply keeps_bind; [intros w1 H1; exact H1|]. intros this.
      destruct (truthy (refreshToken this));
        [apply keeps_await, keeps_refreshAccessToken|apply keeps_Throw]. }
  destruct (disk w) as [| | |tokens]; try (apply Hseed; exact H).
  cbv zeta.
  assert (Hload : I (loaded tokens (tokenManager w))).
  { unfold loaded. apply keeps_expiry.
    change (I (set_refreshToken
                 (json_refreshToken tokens
                  ||| refreshToken (set_accessToken (json_accessToken tokens) (tokenManager w)))
                 (set_accessToken (json_accessToken tokens) (tokenManager w)))).
    apply keeps_refresh_or, keeps_access. exact H. }
  destruct (needsRefresh _ _); [|exact Hload].
  pose proof (keeps_refreshAccessToken
                (with_manager (loaded tokens (tokenManager w)) w) Hload) as Href.
  rewrite run_refreshAccessToken in Href.
  destruct (refresh_result _) as [[e|u] w1]; simpl in Href; [apply Hseed|]; exact Href.
Qed.

End Keeps.

(** X4: no method drops the refresh token: when the manager holds a
    non-empty refresh token, it still holds one after [refreshAccessToken],
    [getValidToken], [initialize] and the handler of /api/appointments,
    however the upstream answers and whether or not they throw. *)
Theorem refresh_token_is_never_lost (w : World) :
  truthy (refreshToken (tokenManager w)) = true ->
  truthy (refreshToken (tokenManager (snd (run refreshAccessToken w)))) = true /\
  truthy (refreshToken (tokenManager (snd (run getValidToken w)))) = true /\
  truthy (refreshToken (tokenManager (snd (run initialize w)))) = true /\
  truthy (refreshToken (tokenManager (snd (run api_appointments w)))) = true.
Proof.
  intros H.
  assert (Ha : forall v m, holds_refresh_token m -> holds_refresh_token (set_accessToken v m))
    by (intros v m Hm; exact Hm).
  assert (He : forall d m, holds_refresh_token m -> holds_refresh_token (set_tokenExpiry d m))
    by (intros d m Hm; exact Hm).
  assert (Hr : forall v m, holds_refresh_token m ->
                 holds_refresh_token (set_refreshToken (v ||| refreshToken m) m)).
  { intros v m Hm. unfold holds_refresh_token, js_or in *. simpl.
    destruct (truthy v) eqn:Hv; assumption. }
  repeat split.
  - apply (keeps_refreshAccessToken holds_refresh_token Ha He Hr w H).
  - apply (keeps_getValidToken holds_refresh_token Ha He Hr w H).
  - apply (keeps_initialize holds_refresh_token Ha He Hr w H).
  - apply (keeps_api_appointments holds_refresh_token Ha He Hr w H).
Qed.

(** X5: staleness is monotone in time: once [needsRefresh()] is true it is
    true at every later time (as long as five minutes after that time is
    still a Date), until some assignment changes the expiry. *)
Theorem needsRefresh_stays_true (now now' : Z) (this : TokenManager) :
  now <= now' ->
  representable (now' + 5 * 60 * 1000) ->
  needsRefresh now this = true ->
  needsRefresh now' this = true.
Proof.
  intros Hle Hrep. unfold needsRefresh.
  destruct (tokenExpiry this) as [[t|]|]; auto.
  rewrite (TimeClip_representable _ Hrep).
  destruct (TimeClip (now + 5 * 60 * 1000)) as [u|] eqn:Hclip; simpl; [|discriminate].
  apply TimeClip_DateOf in Hclip. destruct Hclip as [-> _].
  rewrite !Z.leb_le. lia.
Qed.

(** [authenticatedFetch] on a token that needs no refresh. *)
Lemma run_authenticatedFetch_fresh
    (m : Method) (url : string) (w : World) (x : Exchange) (rest : list Exchange)
    (r : Response) :
  needsRefresh (clock w) (tokenManager w) = false ->
  network w = x :: rest ->
  outcome x = Responded r ->
  exists w',
    run (authenticatedFetch m url) w
    = (if (status r =? 401)%N then inl Unauthorized401 else inr r, w') /\
    sent w' = ApiCall m url ("Bearer " ++ to_string (accessToken (tokenManager w))) :: sent w /\
    network w' = rest /\
    tokenManager w' = tokenManager w /\
    disk w' = disk w.
Proof.
  intros Hfresh Hnet Hout.
  rewrite run_authenticatedFetch, run_getValidToken, Hfresh.
  unfold exchange. rewrite Hnet, Hout.
  eexists. split.
  - destruct (status r =? 401)%N; reflexivity.
  - simpl. auto.
Qed.

(** X6: with a token that needs no refresh, [getValidToken] returns the
    manager's access token behind the word Bearer and touches nothing, and
    [authenticatedFetch] sends exactly its own request with that value; a
    response with status 401 is thrown as the 401 error, a response with
    any other status, 2xx or not, is returned to the caller. *)
Theorem fresh_token_is_sent_as_is
    (m : Method) (url : string) (w : World) (x : Exchange) (rest : list Exchange)
    (r : Response) :
  needsRefresh (clock w) (tokenManager w) = false ->
  network w = x :: rest ->
  outcome x = Responded r ->
  run getValidToken w = (inr ("Bearer " ++ to_string (accessToken (tokenManager w))), w) /\
  fst (run (authenticatedFetch m url) w)
  = (if (status r =? 401)%N then inl Unauthorized401 else inr r) /\
  sent (snd (run (authenticatedFetch m url) w))
  = ApiCall m url ("Bearer " ++ to_string (accessToken (tokenManager w))) :: sent w /\
  tokenManager (snd (run (authenticatedFetch m url) w)) = tokenManager w /\
  disk (snd (run (authenticatedFetch m url) w)) = disk w.
Proof.
  intros Hfresh Hnet Hout.
  split; [rewrite run_getValidToken, Hfresh; reflexivity|].
  destruct (run_authenticatedFetch_fresh m url w x rest r Hfresh Hnet Hout)
    as [w' [Hrun [Hsent [Hn [Hm Hd]]]]].
  rewrite Hrun. simpl. auto.
Qed.

(** X7: after a [refreshAccessToken] that returned, at every clock
    reading [needsRefresh()] is true exactly when the expiry installed, the
    clock read after the response plus the lifetime used (the response's
    [expires_in], 3600 when absent or 0), is at most five minutes ahead.
    So a grant of 300 seconds or less is stale from that reading on, and
    the next [getValidToken] refreshes again; any grant is fresh exactly
    until 300 seconds before its expiry, however long the write of
    tokens.json took. *)
Theorem freshness_after_refresh (w w' : World) :
  run refreshAccessToken w = (inr tt, w') ->
  exists x rest r data,
    network w = x :: rest /\ outcome x = Responded r /\ json r = inr data /\
    let installed := clock w + latency x in
    let lifetime := num_or (expires_in data) 3600 in
    (forall t,
       representable (t + 5 * 60 * 1000) ->
       needsRefresh t (tokenManager w')
       = (installed + lifetime * 1000 <=? t + 5 * 60 * 1000)) /\
    (lifetime <= 300 ->
     forall t, installed <= t -> representable (t + 5 * 60 * 1000) ->
               needsRefresh t (tokenManager w') = true) /\
    (forall t, representable (t + 5 * 60 * 1000) ->
               (needsRefresh t (tokenManager w') = false <->
                t < installed + (lifetime - 300) * 1000)).
Proof.
  rewrite run_refreshAccessToken. unfold refresh_result, exchange.
  destruct (truthy (refreshToken (tokenManager w))); [|discriminate].
  destruct (network w) as [|x rest]; [discriminate|].
  destruct (outcome x) as [msg|r] eqn:Hout; [discriminate|].
  destruct (ok r); [|discriminate].
  destruct (json r) as [msg|data] eqn:Hjson; [discriminate|].
  unfold save_result, tokens_of, granted. simpl.
  destruct (TimeClip _) as [u|] eqn:Hclip; [|discriminate].
  apply TimeClip_DateOf in Hclip. destruct Hclip as [-> Hrep].
  destruct (write_error w); [discriminate|].
  intros H. injection H as <-.
  exists x, rest, r, data. split; [reflexivity|]. split; [exact Hout|].
  split; [exact Hjson|]. cbv zeta.
  match goal with
  | |- context [needsRefresh _ ?m] =>
      assert (Hall : forall t,
                representable (t + 5 * 60 * 1000) ->
                needsRefresh t m
                = (clock w + latency x + num_or (expires_in data) 3600 * 1000
                   <=? t + 5 * 60 * 1000))
  end.
  { intros t Ht. unfold needsRefresh.
    cbn [tokenExpiry tokenManager with_disk with_manager]. cbv zeta.
    rewrite (TimeClip_representable _ Ht). reflexivity. }
  split; [exact Hall|]. split.
  - intros Hshort t Hlater Ht. rewrite (Hall t Ht). apply Z.leb_le. lia.
  - intros t Ht. rewrite (Hall t Ht). rewrite Z.leb_gt. lia.
Qed.

(** ** More on starting up and on the handler *)

(** X8: a tokens.json that can be read wins over the environment: when its
    token needs no refresh, [initialize] returns with the tokens of the
    file, sends nothing and writes nothing, and DAYLITE_ACCESS_TOKEN is not
    looked at; DAYLITE_REFRESH_TOKEN is used only when the file has no
    refresh token. *)
Theorem stored_tokens_win_over_environment (w : World) (tokens : TokensJson) :
  disk w = Stored tokens ->
  tokenManager w = new_TokenManager env ->
  needsRefresh (clock w) (loaded tokens (tokenManager w)) = false ->
  exists m,
    run initialize w = (inr tt, with_manager m w) /\
    accessToken m = json_accessToken tokens /\
    refreshToken m =
      (if truthy (json_refreshToken tokens) then json_refreshToken tokens
       else DAYLITE_REFRESH_TOKEN env ||| Null).
Proof.
  intros Hdisk Hnew Hfresh. exists (loaded tokens (tokenManager w)).
  split; [|split].
  - rewrite run_initialize, Hdisk. cbv zeta. simpl tokenManager. rewrite Hfresh. reflexivity.
  - reflexivity.
  - rewrite Hnew. unfold loaded. simpl. unfold js_or at 1.
    destruct (truthy (json_refreshToken tokens)); reflexivity.
Qed.

Lemma save_result_ok (w w' : World) (u : unit) :
  save_result w = (inr u, w') ->
  tokenManager w' = tokenManager w /\ exists tokens, disk w' = Stored tokens.
Proof.
  unfold save_result. destruct (tokens_of _) as [e|tk]; [discriminate|].
  destruct (write_error w); [discriminate|].
  intros H; inversion H; subst. simpl. split; [reflexivity|]. exists tk. reflexivity.
Qed.

Lemma refresh_result_ok (w w' : World) (u : unit) :
  refresh_result w = (inr u, w') ->
  tokenExpiry (tokenManager w') <> None /\ exists tokens, disk w' = Stored tokens.
Proof.
  unfold refresh_result.
  destruct (truthy _); [|discriminate].
  destruct (exchange _ w) as [[msg|r] w1]; [discriminate|].
  destruct (ok r); [|discriminate].
  destruct (json r) as [msg|data]; [discriminate|].
  intros H. apply save_result_ok in H. destruct H as [Hm Hd].
  split; [|exact Hd]. rewrite Hm. simpl. discriminate.
Qed.

(** X9: [startServer] never throws: it listens or exits with code 1; and
    when it listens, the manager has an expiry (it is not [null]) and
    tokens.json holds a document. *)
Theorem listening_server_has_expiry_and_file (w : World) :
  exists st w',
    run startServer w = (inr st, w') /\
    (st = Listening \/ st = Exit 1) /\
    (st = Listening ->
     tokenExpiry (tokenManager w') <> None /\ exists tokens, disk w' = Stored tokens).
Proof.
  unfold startServer. rewrite run_try_catch, run_bind, run_await.
  destruct (run initialize w) as [[e|u] w'] eqn:Hinit; cbv beta iota.
  - exists (Exit 1), w'. split; [reflexivity|]. split; [right; reflexivity|]. discriminate.
  - exists Listening, w'. split; [reflexivity|]. split; [left; reflexivity|]. intros _.
    rewrite run_initialize in Hinit.
    assert (Hseed : forall w0, run seed_or_refresh w0 = (inr u, w') ->
              tokenExpiry (tokenManager w') <> None /\ exists tokens, disk w' = Stored tokens).
    { intros w0. rewrite run_seed_or_refresh.
      destruct (truthy (DAYLITE_ACCESS_TOKEN env)).
      - intros H. apply save_result_ok in H. destruct H as [Hm Hd].
        split; [|exact Hd]. rewrite Hm. simpl. discriminate.
      - destruct (truthy (refreshToken (tokenManager w0))); [|discriminate].
        apply refresh_result_ok. }
    destruct (disk w) as [| | |tokens] eqn:Hdisk; try (apply (Hseed w Hinit)).
    cbv zeta in Hinit.
    destruct (needsRefresh _ _) eqn:Hneeds.
    + destruct (refresh_result _) as [[e|u'] w1] eqn:Href.
      * apply (Hseed w1 Hinit).
      * inversion Hinit; subst. apply (refresh_result_ok _ _ _ Href).
    + inversion Hinit; subst. split.
      * intros Hnone. unfold needsRefresh in Hneeds.
        rewrite Hnone in Hneeds. discriminate.
      * exists tokens. exact Hdisk.
Qed.

Lemma run_api_appointments (w : World) :
  run api_appointments w =
    match run getAppointmentsForToday w with
    | (inr appointments, w1) =>
        (inr (Json200 (filterRelevantAppointments (clock w1) (fun _ => clock w1) appointments)),
         w1)
    | (inl error, w1) =>
        if includes (message error) "401" then
          match run refreshAccessToken w1 with
          | (inl _, w2) => (inr Error500, w2)
          | (inr _, w2) =>
              match run getAppointmentsForToday w2 with
              | (inr appointments, w3) =>
                  (inr (Json200 (filterRelevantAppointments
                                   (clock w3) (fun _ => clock w3) appointments)), w3)
              | (inl _, w3) => (inr Error500, w3)
              end
          end
        else (inr Error500, w1)
    end.
Proof.
  unfold api_appointments. rewrite run_try_catch. runs.
  destruct (run getAppointmentsForToday w) as [[error|appointments] w1]; runs.
  - destruct (includes (message error) "401"); runs; [|reflexivity].
    rewrite run_try_catch. runs.
    destruct (refresh_result w1) as [[e2|u] w2]; runs; [reflexivity|].
    destruct (run getAppointmentsForToday w2) as [[e3|appointments] w3]; runs.
    + reflexivity.
    + rewrite run_call_filterRelevantAppointments. runs. reflexivity.
  - rewrite run_call_filterRelevantAppointments. runs. reflexivity.
Qed.

(** Requests are only ever added to the wire. *)
Lemma sent_grows {A : Type} (p : Prog A) (w : World) :
  exists l, sent (snd (run p w)) = (l ++ sent w)%list.
Proof.
  revert w; induction p as [a|e|k IH|k IH|g k IH|k IH|d k IH|req k IH|k IH];
    intros w; simpl; try (exists []; reflexivity); auto.
  - destruct (IH (with_manager (g (tokenManager w)) w)) as [l Hl]. exists l. exact Hl.
  - destruct (write_error w) as [failure|].
    + destruct (IH (Some (reason failure))
                  (with_disk (after_failed_write (damage failure) d (disk w)) w))
        as [l Hl].
      exists l. exact Hl.
    + destruct (IH None (with_disk (Stored d) w)) as [l Hl]. exists l. exact Hl.
  - pose proof (sent_exchange req w) as [Hs _].
    destruct (exchange req w) as [o w1]. simpl in Hs.
    destruct (IH o w1) as [l Hl]. exists (l ++ [req])%list.
    rewrite Hl, Hs, <- app_assoc. reflexivity.
Qed.

(** X10: the handler of /api/appointments always answers: whatever the
    upstream, the disk and the manager do, it ends with the JSON list or
    with the 500 reply, and never with an error of its own. *)
Theorem handler_always_answers (w : World) :
  exists reply w', run api_appointments w = (inr reply, w').
Proof.
  rewrite run_api_appointments.
  destruct (run getAppointmentsForToday w) as [[error|l] w1]; [|eauto].
  destruct (includes (message error) "401"); [|eauto].
  destruct (run refreshAccessToken w1) as [[e|u] w2]; [eauto|].
  destruct (run getAppointmentsForToday w2) as [[e|l] w3]; eauto.
Qed.

Lemma run_getAppointmentsForToday (w : World) :
  run getAppointmentsForToday w =
  match run (authenticatedFetch POST search_url) w with
  | (inl e, w1) => (inl e, w1)
  | (inr res, w1) =>
      match json res with
      | inl msg => (inl (RuntimeError msg), w1)
      | inr data =>
          run (collect (match results data with Some l => l | None => [] end) []) w1
      end
  end.
Proof.
  unfold getAppointmentsForToday. rewrite run_bind, run_await.
  destruct (run (authenticatedFetch POST search_url) w) as [[e|res] w1]; [reflexivity|].
  rewrite run_bind, run_response_json. destruct (json res); reflexivity.
Qed.

(** X11: the handler decides on the text of the error alone.  With a
    fresh token and a search the transport rejects: when the message of the
    rejection contains the characters 401, the handler forces a refresh
    (the refresh call is on the wire); when it does not, the handler
    answers 500 after that one request, with no refresh and no second run. *)
Theorem transport_error_dispatch
    (w : World) (x : Exchange) (rest : list Exchange) (msg : string) :
  needsRefresh (clock w) (tokenManager w) = false ->
  truthy (refreshToken (tokenManager w)) = true ->
  network w = x :: rest ->
  outcome x = NetworkError msg ->
  (includes msg "401" = true ->
   In (RefreshCall (to_string (refreshToken (tokenManager w))))
      (sent (snd (run api_appointments w)))) /\
  (includes msg "401" = false ->
   exists w',
     run api_appointments w = (inr Error500, w') /\
     sent w' = ApiCall POST search_url ("Bearer " ++ to_string (accessToken (tokenManager w)))
               :: sent w /\
     network w' = rest /\ tokenManager w' = tokenManager w /\ disk w' = disk w).
Proof.
  intros Hfresh Htok Hnet Hout.
  assert (Hfirst : exists w1,
             run getAppointmentsForToday w = (inl (RuntimeError msg), w1) /\
             sent w1 = ApiCall POST search_url
                         ("Bearer " ++ to_string (accessToken (tokenManager w))) :: sent w /\
             network w1 = rest /\ tokenManager w1 = tokenManager w /\ disk w1 = disk w).
  { rewrite run_getAppointmentsForToday, run_authenticatedFetch, run_getValidToken, Hfresh.
    unfold exchange. rewrite Hnet, Hout. eexists. split; [reflexivity|]. simpl. auto. }
  destruct Hfirst as [w1 [Hrun [Hsent [Hn [Hm Hd]]]]].
  split; intros Hinc.
  - rewrite run_api_appointments, Hrun. simpl message. rewrite Hinc.
    assert (Htok1 : truthy (refreshToken (tokenManager w1)) = true) by (rewrite Hm; exact Htok).
    pose proof (sent_refreshAccessToken w1 Htok1) as [Hs1 _].
    destruct (run refreshAccessToken w1) as [[e|u] w2]; simpl in Hs1.
    + simpl. rewrite Hs1, Hm. left. reflexivity.
    + destruct (sent_grows getAppointmentsForToday w2) as [l Hl].
      destruct (run getAppointmentsForToday w2) as [[e|apps] w3]; simpl in Hl |- *;
        rewrite Hl, Hs1, Hm; apply in_or_app; right; left; reflexivity.
  - exists w1. rewrite run_api_appointments, Hrun. simpl message. rewrite Hinc. auto.
Qed.

(** X12: [getAppointmentsForToday] never looks at [response.ok].  When the
    search is answered with any status other than 401 (a 500 or a 403, say)
    and a JSON body without [results], it returns the empty list, and the
    handler answers 200 with the empty array: no error is reported and no
    refresh is made. *)
Theorem error_status_shows_as_empty_list
    (w : World) (x : Exchange) (rest : list Exchange) (r : Response) (data : Json) :
  needsRefresh (clock w) (tokenManager w) = false ->
  network w = x :: rest ->
  outcome x = Responded r ->
  status r <> 401%N ->
  json r = inr data ->
  results data = None ->
  exists w',
    run getAppointmentsForToday w = (inr [], w') /\
    run api_appointments w = (inr (Json200 []), w') /\
    sent w' = ApiCall POST search_url ("Bearer " ++ to_string (accessToken (tokenManager w)))
              :: sent w /\
    tokenManager w' = tokenManager w.
Proof.
  intros Hfresh Hnet Hout Hstatus Hjson Hres.
  destruct (run_authenticatedFetch_fresh POST search_url w x rest r Hfresh Hnet Hout)
    as [w' [Hrun [Hsent [Hn [Hm Hd]]]]].
  apply N.eqb_neq in Hstatus. rewrite Hstatus in Hrun.
  assert (Hfirst : run getAppointmentsForToday w = (inr [], w')).
  { rewrite run_getAppointmentsForToday, Hrun, Hjson, Hres. reflexivity. }
  exists w'. repeat split; auto.
  rewrite run_api_appointments, Hfirst. reflexivity.
Qed.

(** ** More on the appointment pipeline *)

Lemma mentions_app (c : ascii) (a b : string) :
  mentions c (a ++ b) = mentions c a || mentions c b.
Proof.
  induction a as [|d a IH]; simpl; [reflexivity|]. rewrite IH, Bool.orb_assoc. reflexivity.
Qed.

(** Joined with commas, only the list of that one string gives a string
    without a comma that is not empty. *)
Lemma concat_comma_single (t : string) (r : list string) :
  mentions "," t = false -> t <> "" ->
  String.concat "," r = t <-> r = [t].
Proof.
  intros Hno Hne. split; [|intros ->; reflexivity].
  destruct r as [|x [|y rest]]; simpl.
  - intros H. symmetry in H. contradiction.
  - intros ->. reflexivity.
  - intros H. rewrite <- H in Hno. rewrite mentions_app in Hno. simpl in Hno.
    rewrite Bool.orb_true_r in Hno. discriminate.
Qed.

Lemma run_collect_cons (a : ApptRecord) (rest : list ApptRecord) (acc : list Appointment)
    (w : World) :
  run (collect (a :: rest) acc) w =
  match resources a with
  | None => (inl (RuntimeError "Cannot read properties of undefined (reading 'join')"), w)
  | Some r =>
      match run (match contacts a with
                 | Some cs => contact_first_names cs []
                 | None => Ret []
                 end) w with
      | (inl e, w1) => (inl e, w1)
      | (inr contactFirstNames, w1) =>
          run (collect rest
                 (acc ++
                  [{| start := new_Date (utc_start a); end_ := new_Date (utc_end a);
                      names := contactFirstNames;
                      room := if (String.concat "," r =? large_room)%string
                              then "Large" else "Small";
                      appt_title := title a ||| Str "" |}])) w1
      end
  end.
Proof.
  cbn [collect]. cbv zeta. rewrite run_bind.
  destruct (resources a) as [r|]; [|reflexivity].
  rewrite run_Ret. cbv beta iota. rewrite run_bind. reflexivity.
Qed.

(** The loop pushes one appointment per record, in the order of the
    records. *)
Lemma collect_made_from (rs : list ApptRecord) (acc l : list Appointment) (w w' : World) :
  run (collect rs acc) w = (inr l, w') ->
  exists l', l = (acc ++ l')%list /\ Forall2 made_from rs l'.
Proof.
  revert acc w. induction rs as [|a rest IH]; intros acc w.
  - simpl. intros H; inversion H; subst. exists []. rewrite app_nil_r. split; constructor.
  - rewrite run_collect_cons.
    destruct (resources a) as [r|] eqn:Hres; [|discriminate].
    destruct (run _ w) as [[e|ns] w1]; [discriminate|].
    intros H. apply IH in H. destruct H as [l' [-> Hall]].
    eexists. rewrite <- app_assoc. split; [reflexivity|].
    constructor; [|exact Hall].
    unfold made_from. simpl. repeat split. exists r. split; [exact Hres|reflexivity].
Qed.

(** X13: when [getAppointmentsForToday] returns, its list has one
    appointment per element of the response's [results], in the same order
    and none left out: start and end are the Dates of [utc_start] and
    [utc_end] (Invalid Dates included), the title is the record's or the
    empty string; without [results] the list is empty. *)
Theorem appointments_follow_results (w w' : World) (l : list Appointment) :
  run getAppointmentsForToday w = (inr l, w') ->
  exists res w1 data,
    run (authenticatedFetch POST search_url) w = (inr res, w1) /\
    json res = inr data /\
    Forall2 made_from (match results data with Some rs => rs | None => [] end) l /\
    List.length l = List.length (match results data with Some rs => rs | None => [] end).
Proof.
  rewrite run_getAppointmentsForToday.
  destruct (run (authenticatedFetch POST search_url) w) as [[e|res] w1]; [discriminate|].
  destruct (json res) as [msg|data] eqn:Hjson; [discriminate|].
  intros H. apply collect_made_from in H. destruct H as [l' [-> Hall]]. simpl.
  exists res, w1, data. repeat split; auto.
  symmetry. apply (Forall2_length Hall).
Qed.

Lemma room_of_made_from (a : ApptRecord) (b : Appointment) :
  made_from a b ->
  (room b = "Large" <-> resources a = Some ["/v1/resources/2015"]) /\
  (room b = "Small" <-> resources a <> Some ["/v1/resources/2015"]) /\
  (forall x y rest, resources a = Some (x :: y :: rest) -> room b = "Small").
Proof.
  intros [_ [_ [_ [r [Hres Hroom]]]]].
  assert (Hsingle : String.concat "," r = large_room <-> r = [large_room]).
  { apply concat_comma_single; [reflexivity|discriminate]. }
  assert (Hcases : (r = [large_room] /\ room b = "Large") \/
                   (r <> [large_room] /\ room b = "Small")).
  { destruct (String.concat "," r =? large_room)%string eqn:Heq.
    - apply String.eqb_eq in Heq. left. split; [apply Hsingle; exact Heq|exact Hroom].
    - apply String.eqb_neq in Heq. right. split; [|exact Hroom].
      intros H. apply Heq. apply Hsingle. exact H. }
  rewrite Hres. unfold large_room in *.
  split; [|split].
  - destruct Hcases as [[-> HL]|[Hne HS]]; split; auto.
    + rewrite HS. discriminate.
    + intros H. inversion H. contradiction.
  - destruct Hcases as [[-> HL]|[Hne HS]]; split; auto.
    + rewrite HL. discriminate.
    + intros H. exfalso. apply H. reflexivity.
    + intros _ H. inversion H. contradiction.
  - intros x y rest H. inversion H; subst.
    destruct Hcases as [[Heq _]|[_ HS]]; [discriminate|exact HS].
Qed.

(** X14: in the list [getAppointmentsForToday] returns, an appointment is
    in the Large room exactly when the [resources] of its record are the
    one string /v1/resources/2015; every other list of resources, the empty
    one and any list of two or more (both rooms booked) included, gives
    Small. *)
Theorem large_room_only_for_single_resource (w w' : World) (l : list Appointment) :
  run getAppointmentsForToday w = (inr l, w') ->
  exists res w1 data,
    run (authenticatedFetch POST search_url) w = (inr res, w1) /\
    json res = inr data /\
    Forall2
      (fun a b =>
         (room b = "Large" <-> resources a = Some ["/v1/resources/2015"]) /\
         (room b = "Small" <-> resources a <> Some ["/v1/resources/2015"]) /\
         (forall x y rest, resources a = Some (x :: y :: rest) -> room b = "Small"))
      (match results data with Some rs => rs | None => [] end) l.
Proof.
  rewrite run_getAppointmentsForToday.
  destruct (run (authenticatedFetch POST search_url) w) as [[e|res] w1]; [discriminate|].
  destruct (json res) as [msg|data] eqn:Hjson; [discriminate|].
  intros H. apply collect_made_from in H. destruct H as [l' [-> Hall]]. simpl.
  exists res, w1, data. repeat split; auto.
  clear - Hall. induction Hall as [|a b rs l Hab Hall IH]; constructor; auto.
  apply room_of_made_from. exact Hab.
Qed.

Lemma collect_fails_without_resources
    (rs : list ApptRecord) (a : ApptRecord) (acc : list Appointment) (w : World) :
  In a rs -> resources a = None ->
  exists e, fst (run (collect rs acc) w) = inl e.
Proof.
  revert acc w. induction rs as [|a' rest IH]; intros acc w Hin Hnone; [contradiction|].
  rewrite run_collect_cons.
  destruct (resources a') as [r|] eqn:Hres; [|eexists; reflexivity].
  destruct (run _ w) as [[e|ns] w1]; [eexists; reflexivity|].
  apply IH; [|exact Hnone].
  destruct Hin as [->|Hin]; [congruence|exact Hin].
Qed.

(** X15: one record without [resources] fails the whole list: when the
    search response holds such a record, [getAppointmentsForToday] throws
    (the TypeError of [join], or an error met before that record) and
    returns no appointment at all. *)
Theorem record_without_resources_fails_all
    (w w1 : World) (res : Response) (data : Json) (rs : list ApptRecord) (a : ApptRecord) :
  run (authenticatedFetch POST search_url) w = (inr res, w1) ->
  json res = inr data ->
  results data = Some rs ->
  In a rs -> resources a = None ->
  exists e, fst (run getAppointmentsForToday w) = inl e.
Proof.
  intros Hrun Hjson Hres Hin Hnone.
  rewrite run_getAppointmentsForToday, Hrun, Hjson, Hres.
  apply (collect_fails_without_resources rs a [] w1 Hin Hnone).
Qed.

Lemma count_sent_app (P : Request -> bool) (l : list Request) (w w' : World) :
  sent w' = (l ++ sent w)%list ->
  count_sent P w' = (List.length (filter P l) + count_sent P w)%nat.
Proof. intros H. unfold count_sent. rewrite H, filter_app, length_app. reflexivity. Qed.

Lemma api_count_getValidToken (w : World) :
  count_sent is_api (snd (run getValidToken w)) = count_sent is_api w.
Proof.
  pose proof (at_most_getValidToken is_api (fun t => eq_refl) w) as Hle.
  destruct (sent_grows getValidToken w) as [l Hl].
  rewrite (count_sent_app is_api l w _ Hl) in *. lia.
Qed.

Lemma api_count_authenticatedFetch (m : Method) (url : string) (w w' : World) (r : Response) :
  run (authenticatedFetch m url) w = (inr r, w') ->
  count_sent is_api w' = S (count_sent is_api w).
Proof.
  rewrite run_authenticatedFetch. pose proof (api_count_getValidToken w) as Hget.
  destruct (run getValidToken w) as [[e|token] w1]; [discriminate|]. simpl in Hget.
  pose proof (sent_exchange (ApiCall m url token) w1) as [Hs _].
  destruct (exchange _ w1) as [[msg|r'] w2]; [discriminate|]. simpl in Hs.
  destruct (status r' =? 401)%N; [discriminate|].
  intros H; inversion H; subst.
  unfold count_sent in *. rewrite Hs. simpl. rewrite Hget. reflexivity.
Qed.

Lemma run_contact_first_names_cons
    (c : ContactRef) (rest : list ContactRef) (acc : list string) (w : World) :
  run (contact_first_names (c :: rest) acc) w =
  if truthy (contact c) then
    match run (authenticatedFetch GET
                 ("https://api.marketcircle.net" ++ to_string (contact c))) w with
    | (inl e, w1) => (inl e, w1)
    | (inr contactRes, w1) =>
        match json contactRes with
        | inl msg => (inl (RuntimeError msg), w1)
        | inr contactData =>
            run (contact_first_names rest
                   (if truthy (first_name contactData)
                    then (acc ++ [to_string (first_name contactData)])%list
                    else acc)) w1
        end
    end
  else run (contact_first_names rest acc) w.
Proof.
  cbn [contact_first_names]. destruct (truthy (contact c)); [|reflexivity].
  cbv zeta. rewrite run_bind, run_await.
  destruct (run (authenticatedFetch GET _) w) as [[e|contactRes] w1]; [reflexivity|].
  rewrite run_bind, run_response_json. destruct (json contactRes); reflexivity.
Qed.

Lemma contact_first_names_count
    (cs : list ContactRef) (acc l : list string) (w w' : World) :
  run (contact_first_names cs acc) w = (inr l, w') ->
  count_sent is_api w'
  = (count_sent is_api w + List.length (filter (fun c => truthy (contact c)) cs))%nat /\
  (List.length l
   <= List.length acc + List.length (filter (fun c => truthy (contact c)) cs))%nat.
Proof.
  revert acc w. induction cs as [|c rest IH]; intros acc w.
  - simpl. intros H; inversion H; subst. lia.
  - rewrite run_contact_first_names_cons. simpl filter.
    destruct (truthy (contact c)); [|apply IH].
    destruct (run (authenticatedFetch GET _) w) as [[e|contactRes] w1] eqn:Hfetch;
      [discriminate|].
    apply api_count_authenticatedFetch in Hfetch.
    destruct (json contactRes) as [msg|contactData]; [discriminate|].
    intros H. apply IH in H. destruct H as [Hc Hn]. simpl.
    destruct (truthy (first_name contactData)); [rewrite length_app in Hn; simpl in Hn|]; lia.
Qed.

Lemma collect_count (rs : list ApptRecord) (acc l : list Appointment) (w w' : World) :
  run (collect rs acc) w = (inr l, w') ->
  count_sent is_api w' = (count_sent is_api w + list_sum (map lookups rs))%nat /\
  exists l', l = (acc ++ l')%list /\
             Forall2 (fun a b => (List.length (names b) <= lookups a)%nat) rs l'.
Proof.
  revert acc w. induction rs as [|a rest IH]; intros acc w.
  - simpl. intros H; inversion H; subst. split; [lia|].
    exists []. rewrite app_nil_r. split; constructor.
  - rewrite run_collect_cons.
    destruct (resources a) as [r|]; [|discriminate].
    destruct (run _ w) as [[e|ns] w1] eqn:Hnames; [discriminate|].
    assert (Hlook : count_sent is_api w1 = (count_sent is_api w + lookups a)%nat /\
                    (List.length ns <= lookups a)%nat).
    { unfold lookups. destruct (contacts a) as [cs|].
      - apply contact_first_names_count in Hnames. simpl in Hnames. exact Hnames.
      - simpl in Hnames. inversion Hnames; subst. simpl. lia. }
    intros H. apply IH in H. destruct H as [Hc [l' [-> Hall]]].
    split; [simpl; lia|].
    eexists. rewrite <- app_assoc. split; [reflexivity|].
    constructor; [simpl; lia|exact Hall].
Qed.

(** X16: a [getAppointmentsForToday] that returns has sent exactly one API
    request for the search and one for each contact reference that is not
    empty, records without a [contacts] array counting for none; and no
    appointment has more names than its record has such references. *)
Theorem one_request_per_contact (w w' : World) (l : list Appointment) :
  run getAppointmentsForToday w = (inr l, w') ->
  exists res w1 data,
    run (authenticatedFetch POST search_url) w = (inr res, w1) /\
    json res = inr data /\
    count_sent is_api w'
    = (count_sent is_api w + 1
       + list_sum (map lookups (match results data with Some rs => rs | None => [] end)))%nat /\
    Forall2 (fun a b => (List.length (names b) <= lookups a)%nat)
      (match results data with Some rs => rs | None => [] end) l.
Proof.
  rewrite run_getAppointmentsForToday.
  destruct (run (authenticatedFetch POST search_url) w) as [[e|res] w1] eqn:Hsearch;
    [discriminate|].
  apply api_count_authenticatedFetch in Hsearch.
  destruct (json res) as [msg|data] eqn:Hjson; [discriminate|].
  intros H. apply collect_count in H. destruct H as [Hc [l' [-> Hall]]]. simpl.
  exists res, w1, data. repeat split; auto. lia.
Qed.

(** ** More on the relevance filter *)

Lemma In_show_each (later : nat -> Z) (i : nat) (l : list Appointment) (x : Shown) :
  In x (show_each later i l) -> exists a j, In a l /\ x = show (later j) a.
Proof.
  revert i; induction l as [|a l IH]; intros i; simpl; [contradiction|].
  intros [<-|H].
  - exists a, i. auto.
  - destruct (IH _ H) as [a' [j [Hin Hx]]]. exists a', j. auto.
Qed.

(** X17: when the clock reads the same in the map as in the filter (as it
    does within one turn), every element of the answer is either an
    appointment in progress, shown with status in-progress and 0 minutes,
    or one that starts within thirty minutes, shown with status upcoming
    and a whole number of minutes from 0 to 30 (halves rounded up); the
    two formatted times are those of its start and end. *)
Theorem shown_status_and_minutes (now : Z) (l : list Appointment) (x : Shown) :
  representable (now + 30 * 60 * 1000) ->
  In x (filterRelevantAppointments now (fun _ => now) l) ->
  In (appt x) l /\
  formattedStartTime x = toLocaleTimeString (start (appt x)) /\
  formattedEndTime x = toLocaleTimeString (end_ (appt x)) /\
  ((in_progress now (appt x) /\ status' x = "in-progress" /\ minutesUntilStart x = Some 0) \/
   (starts_soon now (appt x) /\ status' x = "upcoming" /\
    exists s, start (appt x) = DateOf s /\
              minutesUntilStart x = Some ((s - now + 30000) / 60000) /\
              0 <= (s - now + 30000) / 60000 <= 30)).
Proof.
  intros Hrep Hin. unfold filterRelevantAppointments in Hin.
  apply In_show_each in Hin. destruct Hin as [a [j [Hin ->]]].
  apply filter_In in Hin. destruct Hin as [Hin Hrel].
  unfold relevant, thirty_minutes in Hrel. rewrite (TimeClip_representable _ Hrep) in Hrel.
  unfold show, starts_soon, in_progress.
  destruct (start a) as [s|] eqn:Hs, (end_ a) as [e'|] eqn:He; simpl in Hrel |- *;
    try discriminate.
  - destruct ((s <=? now) && (now <? e')) eqn:Hprog; simpl; rewrite Hs, He.
    + apply Bool.andb_true_iff in Hprog. destruct Hprog as [H1 H2].
      apply Z.leb_le in H1. apply Z.ltb_lt in H2.
      repeat split; auto. left. repeat split; auto. exists s, e'. repeat split; auto.
    + rewrite Bool.orb_false_r in Hrel. apply Bool.andb_true_iff in Hrel.
      destruct Hrel as [H1 H2]. apply Z.ltb_lt in H1. apply Z.leb_le in H2.
      repeat split; auto. right. split; [exists s; split; [reflexivity|lia]|].
      split; [reflexivity|]. exists s. split; [reflexivity|]. split; [reflexivity|].
      split; [apply Z.div_pos; lia|].
      apply Z.lt_succ_r. apply Z.div_lt_upper_bound; lia.
  - rewrite Bool.andb_false_r in *. simpl. rewrite Hs, He.
    rewrite Bool.orb_false_r in Hrel. apply Bool.andb_true_iff in Hrel.
    destruct Hrel as [H1 H2]. apply Z.ltb_lt in H1. apply Z.leb_le in H2.
    repeat split; auto. right. split; [exists s; split; [reflexivity|lia]|].
    split; [reflexivity|]. exists s. split; [reflexivity|]. split; [reflexivity|].
    split; [apply Z.div_pos; lia|].
    apply Z.lt_succ_r. apply Z.div_lt_upper_bound; lia.
Qed.

(** ** The token test script *)

Lemma run_testTokenRefresh (w : World) : run testTokenRefresh w = script_result w.
Proof.
  unfold testTokenRefresh, script_result. cbv zeta.
  destruct (truthy (DAYLITE_REFRESH_TOKEN env)); simpl negb; cbv iota; [|reflexivity].
  rewrite run_try_catch. runs.
  destruct (exchange _ w) as [[msg|r] w1]; runs; [reflexivity|].
  destruct (ok r); simpl negb; cbv iota; runs; [|reflexivity].
  destruct (json r) as [msg|data]; runs; [reflexivity|].
  destruct (truthy (access_token data)); runs; [|reflexivity].
  destruct (exchange _ w1) as [[msg|r2] w2]; runs; reflexivity.
Qed.

(** X18: the script never throws and never touches the manager or
    tokens.json: it ends in an exit code or in its advice, after at most
    two requests; without DAYLITE_REFRESH_TOKEN it exits with code 1 before
    sending anything, and when the refresh call is rejected or answered
    with a status outside 200-299 it exits with code 1 after that one
    request. *)
Theorem script_exits_and_leaves_files_alone (w : World) :
  (exists result, fst (run testTokenRefresh w) = inr result) /\
  tokenManager (snd (run testTokenRefresh w)) = tokenManager w /\
  disk (snd (run testTokenRefresh w)) = disk w /\
  (List.length (sent (snd (run testTokenRefresh w))) <= List.length (sent w) + 2)%nat /\
  (truthy (DAYLITE_REFRESH_TOKEN env) = false ->
   run testTokenRefresh w = (inr (ScriptExit 1), w)) /\
  (truthy (DAYLITE_REFRESH_TOKEN env) = true -> upstream_fails w ->
   fst (run testTokenRefresh w) = inr (ScriptExit 1) /\
   sent (snd (run testTokenRefresh w))
   = RefreshCall (to_string (DAYLITE_REFRESH_TOKEN env)) :: sent w).
Proof.
  rewrite run_testTokenRefresh. unfold script_result, upstream_fails, exchange. cbv zeta.
  destruct (truthy (DAYLITE_REFRESH_TOKEN env)) eqn:Htok;
    [destruct (network w) as [|x rest];
       [|destruct (outcome x) as [msg|r];
           [|destruct (ok r) eqn:Hok;
               [destruct (json r) as [msg|data];
                  [|destruct (truthy (access_token data));
                      [destruct rest as [|y rest']; cbn [network];
                         [|destruct (outcome y)]|]]|]]]|];
    cbn [fst snd tokenManager disk sent network List.length];
    (split; [eexists; reflexivity|]);
    (split; [reflexivity|]);
    (split; [reflexivity|]);
    (split; [lia|]);
    (split; [intros; try reflexivity; discriminate|]);
    intros Htrue Hfails; try (split; reflexivity); try contradiction; congruence.
Qed.

(** X19: the script and the server read a refresh response alike.  When
    the script runs to its end, a server started in the same world on the
    environment's refresh token installs, with [refreshAccessToken], the
    access token and the refresh token the script prints; and the script
    tried the access token upstream exactly when it recorded an answer,
    with the printed access token as bearer. *)
Theorem script_advises_what_the_server_installs (w : World) (advice : Advice) :
  refreshToken (tokenManager w) = refreshToken (new_TokenManager env) ->
  fst (run testTokenRefresh w) = inr (ScriptDone advice) ->
  advised_access_token advice
  = to_string (accessToken (tokenManager (snd (run refreshAccessToken w)))) /\
  advised_refresh_token advice
  = to_string (refreshToken (tokenManager (snd (run refreshAccessToken w)))) /\
  sent (snd (run testTokenRefresh w))
  = List.app
      match access_token_works advice with
      | None => []
      | Some _ => [ApiCall GET test_url ("Bearer " ++ advised_access_token advice)]
      end
      (RefreshCall (to_string (DAYLITE_REFRESH_TOKEN env)) :: sent w).
Proof.
  rewrite run_testTokenRefresh, run_refreshAccessToken.
  unfold script_result, refresh_result. cbv zeta.
  intros Hheld. unfold new_TokenManager in Hheld. cbn [refreshToken] in Hheld.
  destruct (truthy (DAYLITE_REFRESH_TOKEN env)) eqn:Htok; [|discriminate].
  assert (Hor : DAYLITE_REFRESH_TOKEN env ||| Null = DAYLITE_REFRESH_TOKEN env)
    by (unfold js_or; rewrite Htok; reflexivity).
  rewrite Hor in Hheld. rewrite Hheld, Htok.
  destruct (exchange _ w) as [[msg|r] w1] eqn:Hx; [discriminate|].
  assert (Hsent : sent w1 = RefreshCall (to_string (DAYLITE_REFRESH_TOKEN env)) :: sent w /\
                  refreshToken (tokenManager w1) = DAYLITE_REFRESH_TOKEN env).
  { pose proof (sent_exchange (RefreshCall (to_string (DAYLITE_REFRESH_TOKEN env))) w)
      as [Hs [_ [Hm _]]].
    rewrite Hx in Hs, Hm. cbn [snd] in Hs, Hm. split; [exact Hs|].
    rewrite Hm. exact Hheld. }
  destruct Hsent as [Hsent Hkept].
  destruct (ok r); [|discriminate].
  destruct (json r) as [msg|data]; [discriminate|].
  pose proof (save_result_keeps
                (with_manager (granted (clock w1) data (tokenManager w1)) w1))
    as [_ [_ [_ Hm]]].
  rewrite Hm. cbn [tokenManager with_manager granted accessToken refreshToken
                   set_tokenExpiry set_refreshToken set_accessToken].
  rewrite Hkept.
  destruct (truthy (access_token data)) eqn:Hacc.
  - destruct (exchange _ w1) as [[msg|r2] w2] eqn:Hy; [discriminate|].
    intros Hdone. cbn [fst] in Hdone. injection Hdone as <-.
    cbn [advised_access_token advised_refresh_token access_token_works snd].
    repeat split.
    pose proof (sent_exchange
                  (ApiCall GET test_url ("Bearer " ++ to_string (access_token data))) w1)
      as [Hs _].
    rewrite Hy in Hs. cbn [snd] in Hs. rewrite Hs, Hsent.
    unfold js_or. rewrite Hacc. reflexivity.
  - intros Hdone. cbn [fst] in Hdone. injection Hdone as <-.
    cbn [advised_access_token advised_refresh_token access_token_works snd].
    repeat split. exact Hsent.
Qed.

(** ** A refreshed token between the response and the write *)

(** X20: the new token is handed out before it is saved.  One caller
    finds the token stale and refreshes; in the turn that reads the
    response body the manager takes the grant and the caller suspends on
    the write of tokens.json.  A second caller entering then, for whom the
    grant is fresh, returns the new bearer token in its own turn without a
    request, while tokens.json is still as it was and the first caller has
    not returned. *)
Theorem refreshed_token_is_shared_before_it_is_saved
    (m : TokenManager) (f : TokenFile) (t0 t1 t2 t3 : Z) (r : Response) (data : Json) :
  needsRefresh t0 m = true ->
  truthy (refreshToken m) = true ->
  ok r = true ->
  json r = inr data ->
  needsRefresh t3 (granted t2 data m) = false ->
  let sys := exec getValidToken
               [Call t0; Settle 0 t1 (FetchSettled (Responded r)); Settle 0 t2 Resumed; Call t3]
               (boot m f) in
  mgr (shared sys) = granted t2 data m /\
  file (shared sys) = f /\
  wire (shared sys) = [RefreshCall (to_string (refreshToken m))] /\
  nth_error (calls sys) 1
  = Some (Ret ("Bearer " ++ to_string (access_token data ||| token data))) /\
  (forall bearer, nth_error (calls sys) 0 <> Some (Ret bearer)).
Proof.
  intros Hstale Htok Hok Hjson Hfresh. cbv zeta.
  unfold exec, boot, step, getValidToken, call_needsRefresh, refreshAccessToken, await,
    this_, Date_now, fetch, response_json, assign, saveTokens.
  unfold granted in Hfresh.
  simpl. rewrite Hstale. simpl. rewrite Htok. simpl. rewrite Hok. simpl. rewrite Hjson. simpl.
  destruct (tokens_of _) as [e|tokens]; simpl; rewrite Hfresh; simpl;
    repeat split; intros bearer; discriminate.
Qed.

End Server.

(** ** The statements on the scenarios *)

(** Three callers entering on a stale token send three refresh requests;
    and the manager the two interleaved callers leave behind holds the
    whole grant of the second response on top of the whole grant of the
    first, each assigned in the turn that read its body. *)
Lemma three_callers_three_refreshes :
  truthy (refreshToken Scenario.stale) = true /\
  Forall (fun t => needsRefresh t Scenario.stale = true)
    [Scenario.now0; Scenario.now0; Scenario.now0] /\
  refresh_calls
    (wire (shared (exec (getValidToken Iso8601.toISOString)
                     (map Call [Scenario.now0; Scenario.now0; Scenario.now0])
                     (boot Scenario.stale Missing)))) = 3%nat /\
  mgr (shared (exec (getValidToken Iso8601.toISOString) Scenario.two_callers
                 (boot Scenario.stale Missing)))
  = granted (Scenario.now0 + 200) (Scenario.grant (Str "a2") (Str "r2") (Some 3600))
      (granted (Scenario.now0 + 200) (Scenario.grant (Str "a1") (Str "r1") (Some 3600))
         Scenario.stale) /\
  whole_grants (getValidToken Iso8601.toISOString) (boot Scenario.stale Missing)
    Scenario.two_callers Scenario.stale
    (mgr (shared (exec (getValidToken Iso8601.toISOString) Scenario.two_callers
                    (boot Scenario.stale Missing)))).
Proof.
  destruct (concurrent_callers_refresh_separately Iso8601.toISOString Scenario.stale Missing)
    as [Hcalls [Hgrants Hturn]].
  assert (Hstale : Forall (fun t => needsRefresh t Scenario.stale = true)
                     [Scenario.now0; Scenario.now0; Scenario.now0])
    by (repeat constructor; vm_compute; reflexivity).
  split; [reflexivity|]. split; [exact Hstale|]. split; [|split].
  - exact (proj1 (proj2 (Hcalls [Scenario.now0; Scenario.now0; Scenario.now0] eq_refl Hstale))).
  - vm_compute. reflexivity.
  - apply Hgrants.
Defined.

(** C1 fails on the code: two callers that enter while the token is stale
    make two upstream refresh calls, both with the old refresh token, and
    they return different access tokens. *)
Lemma two_callers_two_refreshes :
  needsRefresh Scenario.now0 Scenario.stale = true /\
  refresh_calls
    (wire (shared (exec (getValidToken Iso8601.toISOString) Scenario.two_callers
                     (boot Scenario.stale Missing)))) = 2%nat /\
  wire (shared (exec (getValidToken Iso8601.toISOString) Scenario.two_callers
                  (boot Scenario.stale Missing)))
    = [RefreshCall "r0"; RefreshCall "r0"] /\
  calls (exec (getValidToken Iso8601.toISOString) Scenario.two_callers
           (boot Scenario.stale Missing))
    = [Ret "Bearer a1"; Ret "Bearer a2"].
Proof. vm_compute. repeat split. Qed.

(** A refresh the upstream answers with 500 throws and changes nothing. *)
Lemma refused_refresh_keeps_tokens :
  upstream_fails Scenario.w_refused /\
  exists e w',
    run (refreshAccessToken Iso8601.toISOString) Scenario.w_refused = (inl e, w') /\
    tokenManager w' = tokenManager Scenario.w_refused /\
    disk w' = disk Scenario.w_refused /\
    (needsRefresh (clock Scenario.w_refused) (tokenManager Scenario.w_refused) = true ->
     run (getValidToken Iso8601.toISOString) Scenario.w_refused = (inl e, w')).
Proof.
  split; [vm_compute; reflexivity|].
  apply (failed_refresh_keeps_tokens Iso8601.toISOString Scenario.w_refused).
  vm_compute. reflexivity.
Defined.

(** C3 fails on the code: on a 401 [authenticatedFetch] throws; it has
    sent its request once, has sent no refresh request, and the answer a
    second try would get is still waiting. *)
Lemma authenticatedFetch_gives_up_on_401 :
  run (authenticatedFetch Iso8601.toISOString GET "https://api.marketcircle.net/v1/contacts/7")
    Scenario.w_unauthorized_once
  = (inl Unauthorized401,
     {| clock := Scenario.now0 + 200; disk := Missing; write_error := None;
        network := tl (network Scenario.w_unauthorized_once);
        sent := [ApiCall GET "https://api.marketcircle.net/v1/contacts/7" "Bearer a0"];
        tokenManager := Scenario.fresh |}) /\
  refresh_calls
    (sent (snd (run (authenticatedFetch Iso8601.toISOString GET
                       "https://api.marketcircle.net/v1/contacts/7")
                  Scenario.w_unauthorized_once))) = 0%nat.
Proof. vm_compute. split; reflexivity. Qed.

(** With 401 on the search and on the search after the refresh, the
    handler answers 500 after two search requests and one refresh
    request; the fourth answer of the upstream is never asked for. *)
Lemma unauthorized_twice_is_500 :
  (count_sent is_search
     (snd (run (api_appointments Iso8601.Date_parse Iso8601.toISOString
                  Iso8601.toLocaleTimeString) Scenario.w_unauthorized_twice))
   <= count_sent is_search Scenario.w_unauthorized_twice + 2)%nat /\
  fst (run (api_appointments Iso8601.Date_parse Iso8601.toISOString
              Iso8601.toLocaleTimeString) Scenario.w_unauthorized_twice)
  = inr Error500 /\
  sent (snd (run (api_appointments Iso8601.Date_parse Iso8601.toISOString
                    Iso8601.toLocaleTimeString) Scenario.w_unauthorized_twice))
  = [ApiCall POST search_url "Bearer a1"; RefreshCall "r0";
     ApiCall POST search_url "Bearer a0"] /\
  network (snd (run (api_appointments Iso8601.Date_parse Iso8601.toISOString
                       Iso8601.toLocaleTimeString) Scenario.w_unauthorized_twice))
  = [Scenario.answers (Scenario.found [])].
Proof.
  split.
  - apply (handler_refreshes_and_retries_once Iso8601.Date_parse Iso8601.toISOString
             Iso8601.toLocaleTimeString Scenario.w_unauthorized_twice).
  - vm_compute. repeat split.
Defined.

(** With 401 once, the handler refreshes once and answers with the
    appointments of the second run. *)
Example unauthorized_once_recovers :
  exists shown,
    fst (run (api_appointments Iso8601.Date_parse Iso8601.toISOString
                Iso8601.toLocaleTimeString) Scenario.w_unauthorized_once)
    = inr (Json200 [shown]) /\
    names (appt shown) = ["Ada"] /\ status' shown = "upcoming" /\
    minutesUntilStart shown = Some 10 /\
    refresh_calls
      (sent (snd (run (api_appointments Iso8601.Date_parse Iso8601.toISOString
                         Iso8601.toLocaleTimeString) Scenario.w_unauthorized_once)))
    = 1%nat.
Proof. vm_compute. eexists. repeat split. Qed.


(** C4 fails on the code: the response supplies [expires_in] 0 and the
    refresh returns with an expiry one hour after the clock it read, not
    the clock plus the stated lifetime of 0 seconds. *)
Lemma zero_expires_in_gets_an_hour :
  fst (run (refreshAccessToken Iso8601.toISOString) Scenario.w_zero_lifetime) = inr tt /\
  clock (snd (run (refreshAccessToken Iso8601.toISOString) Scenario.w_zero_lifetime))
  = Scenario.now0 + 200 /\
  stated_lifetime Scenario.zero_grant = 0 /\
  tokenExpiry
    (tokenManager (snd (run (refreshAccessToken Iso8601.toISOString) Scenario.w_zero_lifetime)))
  = Some (DateOf (Scenario.now0 + 200 + 3600 * 1000)) /\
  tokenExpiry
    (tokenManager (snd (run (refreshAccessToken Iso8601.toISOString) Scenario.w_zero_lifetime)))
  <> Some (TimeClip (Scenario.now0 + 200 + stated_lifetime Scenario.zero_grant * 1000)).
Proof. vm_compute. repeat split. intros H. discriminate H. Qed.

(** A refresh granted for 1800 seconds installs the grant and saves it;
    the turn that reads the body of the response takes the manager from
    the stale tokens to the whole grant, with tokens.json still missing. *)
Lemma granted_refresh_installs :
  run (refreshAccessToken Iso8601.toISOString) Scenario.w_granted
  = (inr tt, snd (run (refreshAccessToken Iso8601.toISOString) Scenario.w_granted)) /\
  (exists x rest r data,
     network Scenario.w_granted = x :: rest /\ outcome x = Responded r /\
     ok r = true /\ json r = inr data /\
     let now := clock Scenario.w_granted + latency x in
     let lifetime :=
       match expires_in data with
       | Some n => if n =? 0 then 3600 else n
       | None => 3600
       end in
     let expiry := now + lifetime * 1000 in
     representable expiry /\
     tokenManager (snd (run (refreshAccessToken Iso8601.toISOString) Scenario.w_granted)) =
       {| accessToken := access_token data ||| token data;
          refreshToken := refresh_token data ||| refreshToken (tokenManager Scenario.w_granted);
          tokenExpiry := Some (DateOf expiry) |} /\
     disk (snd (run (refreshAccessToken Iso8601.toISOString) Scenario.w_granted)) =
       Stored {| json_accessToken := access_token data ||| token data;
                 json_refreshToken :=
                   refresh_token data ||| refreshToken (tokenManager Scenario.w_granted);
                 json_tokenExpiry := Str (Iso8601.toISOString expiry) |}) /\
  mgr (shared (exec (refreshAccessToken Iso8601.toISOString)
                 [Call Scenario.now0;
                  Settle 0 (Scenario.now0 + 200)
                    (FetchSettled
                       (outcome (Scenario.answers
                                   (Scenario.grant (Str "a1") (Str "r1") (Some 1800)))))]
                 (boot Scenario.stale Missing)))
  = Scenario.stale /\
  mgr (shared (step (refreshAccessToken Iso8601.toISOString)
                 (Settle 0 (Scenario.now0 + 200) Resumed)
                 (exec (refreshAccessToken Iso8601.toISOString)
                    [Call Scenario.now0;
                     Settle 0 (Scenario.now0 + 200)
                       (FetchSettled
                          (outcome (Scenario.answers
                                      (Scenario.grant (Str "a1") (Str "r1") (Some 1800)))))]
                    (boot Scenario.stale Missing))))
  = {| accessToken := Str "a1"; refreshToken := Str "r1";
       tokenExpiry := Some (DateOf (Scenario.now0 + 200 + 1800 * 1000)) |}.
Proof.
  assert (Hrun : run (refreshAccessToken Iso8601.toISOString) Scenario.w_granted
                 = (inr tt,
                    snd (run (refreshAccessToken Iso8601.toISOString) Scenario.w_granted)))
    by (vm_compute; reflexivity).
  destruct (successful_refresh_installs_grant Iso8601.toISOString Scenario.w_granted _ Hrun)
    as [Hvalues [_ Hturn]].
  destruct (Hturn Scenario.stale Missing Scenario.now0 (Scenario.now0 + 200)
              (Scenario.now0 + 200)
              {| status := 200; text := "{}";
                 json := inr (Scenario.grant (Str "a1") (Str "r1") (Some 1800)) |}
              (Scenario.grant (Str "a1") (Str "r1") (Some 1800))
              eq_refl eq_refl eq_refl) as [Hbefore [Hafter _]].
  split; [exact Hrun|]. split; [exact Hvalues|]. split; [exact Hbefore|].
  etransitivity; [exact Hafter|]. vm_compute. reflexivity.
Defined.

Example granted_refresh_on_disk :
  disk (snd (run (refreshAccessToken Iso8601.toISOString) Scenario.w_granted))
  = Stored {| json_accessToken := Str "a1"; json_refreshToken := Str "r1";
              json_tokenExpiry := Str "2026-11-01T00:30:00.200Z" |}.
Proof. vm_compute. reflexivity. Qed.

(** tokens.json holds the expiry [soon]: [initialize] sends nothing and a
    [getValidToken] a year later still answers with the old token. *)
Lemma undated_file_is_never_refreshed :
  Iso8601.Date_parse "soon" = None /\
  run (initialize Iso8601.Date_parse Iso8601.toISOString Scenario.env_both)
    Scenario.w_undated_file
  = (inr tt,
     with_manager {| accessToken := Str "a-old"; refreshToken := Str "r-old";
                     tokenExpiry := Some InvalidDate |} Scenario.w_undated_file) /\
  run (getValidToken Iso8601.toISOString)
    {| clock := Scenario.now0 + 31536000000; disk := disk Scenario.w_undated_file;
       write_error := None; network := []; sent := [];
       tokenManager := {| accessToken := Str "a-old"; refreshToken := Str "r-old";
                          tokenExpiry := Some InvalidDate |} |}
  = (inr "Bearer a-old",
     {| clock := Scenario.now0 + 31536000000; disk := disk Scenario.w_undated_file;
        write_error := None; network := []; sent := [];
        tokenManager := {| accessToken := Str "a-old"; refreshToken := Str "r-old";
                           tokenExpiry := Some InvalidDate |} |}).
Proof.
  assert (Hparse : Iso8601.Date_parse "soon" = None) by (vm_compute; reflexivity).
  assert (Hne : "soon" <> "") by (intros H; discriminate H).
  destruct (undated_expiry_is_never_refreshed Iso8601.Date_parse Iso8601.toISOString
              Scenario.env_both Scenario.w_undated_file _ "soon" eq_refl eq_refl Hne Hparse)
    as [Hinv [Hinit [Hnever Hget]]].
  split; [exact Hparse|]. split; [exact Hinit|].
  apply Hget. reflexivity.
Defined.

(** An Invalid Date also gets into the manager when the upstream grants a
    lifetime that leaves the range of a Date: the refresh throws in
    [saveTokens] with the Invalid Date already assigned. *)
Example overlong_grant_is_never_refreshed :
  fst (run (refreshAccessToken Iso8601.toISOString) Scenario.w_overlong)
  = inl (RuntimeError "Invalid time value") /\
  tokenManager (snd (run (refreshAccessToken Iso8601.toISOString) Scenario.w_overlong))
  = {| accessToken := Str "a1"; refreshToken := Str "r1"; tokenExpiry := Some InvalidDate |} /\
  forall later,
    needsRefresh later
      (tokenManager (snd (run (refreshAccessToken Iso8601.toISOString) Scenario.w_overlong)))
    = false.
Proof.
  split; [vm_compute; reflexivity|]. split; [vm_compute; reflexivity|].
  intros later. reflexivity.
Qed.

(** C6 fails on the code: a credential saved with no refresh token comes
    back, after a restart with DAYLITE_REFRESH_TOKEN set, with the
    environment's refresh token. *)
Lemma saved_null_refresh_token_is_replaced :
  fst (run (saveTokens Iso8601.toISOString) Scenario.w_no_refresh_token) = inr tt /\
  fst (run (load_tokens Iso8601.Date_parse)
         (restart Scenario.env_both
            (snd (run (saveTokens Iso8601.toISOString) Scenario.w_no_refresh_token))))
  = inr tt /\
  refreshToken (tokenManager Scenario.w_no_refresh_token) = Null /\
  refreshToken
    (tokenManager
       (snd (run (load_tokens Iso8601.Date_parse)
               (restart Scenario.env_both
                  (snd (run (saveTokens Iso8601.toISOString) Scenario.w_no_refresh_token))))))
  = Str "r-env" /\
  tokenManager
    (snd (run (load_tokens Iso8601.Date_parse)
            (restart Scenario.env_both
               (snd (run (saveTokens Iso8601.toISOString) Scenario.w_no_refresh_token)))))
  <> tokenManager Scenario.w_no_refresh_token.
Proof. vm_compute. repeat split. intros H. discriminate H. Qed.

(** A credential with a refresh token and an expiry comes back as saved. *)
Lemma saved_credential_comes_back :
  write_error (Scenario.world Scenario.fresh Missing []) = None /\
  Iso8601.Date_parse (Iso8601.toISOString (Scenario.now0 + 3600000))
  = Some (Scenario.now0 + 3600000) /\
  exists w1 w2,
    run (saveTokens Iso8601.toISOString) (Scenario.world Scenario.fresh Missing [])
    = (inr tt, w1) /\
    run (load_tokens Iso8601.Date_parse) (restart Scenario.env_both w1) = (inr tt, w2) /\
    tokenManager w2 = tokenManager (Scenario.world Scenario.fresh Missing []).
Proof.
  split; [reflexivity|]. split; [vm_compute; reflexivity|].
  apply (save_then_load_round_trip Iso8601.Date_parse Iso8601.toISOString Scenario.env_both
           (Scenario.world Scenario.fresh Missing [])).
  - reflexivity.
  - right. exists (Scenario.now0 + 3600000). split; [reflexivity|]. split.
    + unfold representable, max_time, Scenario.now0. simpl. lia.
    + split; [vm_compute; intros H; discriminate H|vm_compute; reflexivity].
  - left. reflexivity.
Defined.

(** With a garbled tokens.json and an empty environment the server does
    not start. *)
Lemma empty_environment_exits :
  run (initialize Iso8601.Date_parse Iso8601.toISOString Scenario.env_none)
    (Scenario.w_garbled Scenario.env_none)
  = (inl NoTokensAvailable, Scenario.w_garbled Scenario.env_none) /\
  run (startServer Iso8601.Date_parse Iso8601.toISOString Scenario.env_none)
    (Scenario.w_garbled Scenario.env_none)
  = (inr (Exit 1), Scenario.w_garbled Scenario.env_none).
Proof.
  apply (no_tokens_aborts_startup Iso8601.Date_parse Iso8601.toISOString Scenario.env_none
           (Scenario.w_garbled Scenario.env_none)).
  - intros tokens H. discriminate H.
  - reflexivity.
  - reflexivity.
  - reflexivity.
Defined.


(** C8 fails on the code: tokens.json is garbled, both variables are set
    and the disk is full; the fallback assigns the environment's access
    token and then throws the error of the failed write, and the server
    exits. *)
Lemma fallback_throws_when_write_fails :
  run (initialize Iso8601.Date_parse Iso8601.toISOString Scenario.env_both)
    Scenario.w_disk_full
  = (inl (RuntimeError "ENOSPC: no space left on device, write"),
     with_manager {| accessToken := Str "a-env"; refreshToken := Str "r-env";
                     tokenExpiry := Some (DateOf (Scenario.now0 + 3600000)) |}
       Scenario.w_disk_full) /\
  fst (run (startServer Iso8601.Date_parse Iso8601.toISOString Scenario.env_both)
         Scenario.w_disk_full)
  = inr (Exit 1).
Proof. vm_compute. split; reflexivity. Qed.

(** With a garbled tokens.json and both variables set the manager is
    seeded from the environment and saved. *)
Lemma garbled_file_is_reseeded :
  (forall tokens, disk (Scenario.w_garbled Scenario.env_both) <> Stored tokens) /\
  run (initialize Iso8601.Date_parse Iso8601.toISOString Scenario.env_both)
    (Scenario.w_garbled Scenario.env_both)
  = (inr tt,
     {| clock := Scenario.now0;
        disk := Stored {| json_accessToken := Str "a-env"; json_refreshToken := Str "r-env";
                          json_tokenExpiry := Str "2026-11-01T01:00:00.000Z" |};
        write_error := None; network := []; sent := [];
        tokenManager := {| accessToken := Str "a-env"; refreshToken := Str "r-env";
                           tokenExpiry := Some (DateOf (Scenario.now0 + 3600000)) |} |}).
Proof.
  assert (Hdisk : forall tokens, disk (Scenario.w_garbled Scenario.env_both) <> Stored tokens)
    by (intros tokens H; discriminate H).
  split; [exact Hdisk|].
  destruct (unreadable_file_falls_back_to_environment Iso8601.Date_parse Iso8601.toISOString
              Scenario.env_both (Scenario.w_garbled Scenario.env_both) Hdisk eq_refl)
    as [Hinit _].
  rewrite Hinit. vm_compute. reflexivity.
Defined.

(** The agenda at [now0]: the meeting under way and the one ten minutes
    ahead are kept, in the agenda's order. *)
Lemma agenda_is_filtered :
  representable (Scenario.now0 + 30 * 60 * 1000) /\
  map appt
    (filterRelevantAppointments Iso8601.toLocaleTimeString Scenario.now0
       (fun _ => Scenario.now0 + 1) Scenario.agenda)
  = [Scenario.at_ (-600000) 600000 "under way";
     Scenario.at_ 600000 1800000 "in ten minutes"].
Proof.
  assert (Hrep : representable (Scenario.now0 + 30 * 60 * 1000))
    by (unfold representable, max_time, Scenario.now0; simpl; lia).
  split; [exact Hrep|].
  rewrite (proj1 (filter_keeps_soon_or_in_progress Iso8601.toLocaleTimeString Scenario.now0
                    (fun _ => Scenario.now0 + 1) Scenario.agenda Hrep)).
  vm_compute. reflexivity.
Defined.

(** tokens.json holds an expired token and the upstream refuses the
    refresh: [initialize] returns, with the access token of the
    environment, the refresh token of the file and one request sent. *)
Lemma expired_file_is_reseeded :
  disk Scenario.w_expired_file = Stored Scenario.expired_tokens /\
  fst (run (refreshAccessToken Iso8601.toISOString)
         (with_manager
            (loaded Iso8601.Date_parse Scenario.expired_tokens
               (tokenManager Scenario.w_expired_file))
            Scenario.w_expired_file))
  = inl (FailedToRefresh 500 "upstream down") /\
  run (initialize Iso8601.Date_parse Iso8601.toISOString Scenario.env_both)
    Scenario.w_expired_file
  = (inr tt,
     {| clock := Scenario.now0 + 200;
        disk := Stored {| json_accessToken := Str "a-env"; json_refreshToken := Str "r-old";
                          json_tokenExpiry := Str "2026-11-01T01:00:00.200Z" |};
        write_error := None; network := []; sent := [RefreshCall "r-old"];
        tokenManager := {| accessToken := Str "a-env"; refreshToken := Str "r-old";
                           tokenExpiry := Some (DateOf (Scenario.now0 + 200 + 3600000)) |} |}).
Proof.
  split; [reflexivity|]. split; [vm_compute; reflexivity|].
  assert (Hfail :
    run (refreshAccessToken Iso8601.toISOString)
      (with_manager
         (loaded Iso8601.Date_parse Scenario.expired_tokens
            (tokenManager Scenario.w_expired_file))
         Scenario.w_expired_file)
    = (inl (FailedToRefresh 500 "upstream down"),
       snd (run (refreshAccessToken Iso8601.toISOString)
              (with_manager
                 (loaded Iso8601.Date_parse Scenario.expired_tokens
                    (tokenManager Scenario.w_expired_file))
                 Scenario.w_expired_file))))
    by (vm_compute; reflexivity).
  assert (Hneeds :
    needsRefresh (clock Scenario.w_expired_file)
      (loaded Iso8601.Date_parse Scenario.expired_tokens
         (tokenManager Scenario.w_expired_file)) = true)
    by (vm_compute; reflexivity).
  destruct (failed_refresh_on_load_falls_back Iso8601.Date_parse Iso8601.toISOString
              Scenario.env_both Scenario.w_expired_file _ Scenario.expired_tokens _
              eq_refl Hneeds Hfail) as [Hinit _].
  rewrite Hinit. vm_compute. reflexivity.
Defined.


(** Started with DAYLITE_REFRESH_TOKEN alone and no tokens.json,
    [initialize] makes one refresh and saves what it was granted. *)
Example refresh_token_alone_refreshes_once :
  run (initialize Iso8601.Date_parse Iso8601.toISOString Scenario.env_refresh_only)
    (Scenario.world (new_TokenManager Scenario.env_refresh_only) Missing
       [Scenario.answers (Scenario.grant (Str "a1") (Str "r1") (Some 3600))])
  = (inr tt,
     {| clock := Scenario.now0 + 200;
        disk := Stored {| json_accessToken := Str "a1"; json_refreshToken := Str "r1";
                          json_tokenExpiry := Str "2026-11-01T01:00:00.200Z" |};
        write_error := None; network := []; sent := [RefreshCall "r-env"];
        tokenManager := {| accessToken := Str "a1"; refreshToken := Str "r1";
                           tokenExpiry := Some (DateOf (Scenario.now0 + 200 + 3600000)) |} |}).
Proof. vm_compute. reflexivity. Qed.

(** Started on a tokens.json whose token expired ten minutes ago,
    [initialize] refreshes with the refresh token of the file. *)
Example expired_file_is_refreshed :
  run (initialize Iso8601.Date_parse Iso8601.toISOString Scenario.env_both)
    (Scenario.world (new_TokenManager Scenario.env_both) (Stored Scenario.expired_tokens)
       [Scenario.answers (Scenario.grant (Str "a1") Undefined None)])
  = (inr tt,
     {| clock := Scenario.now0 + 200;
        disk := Stored {| json_accessToken := Str "a1"; json_refreshToken := Str "r-old";
                          json_tokenExpiry := Str "2026-11-01T01:00:00.200Z" |};
        write_error := None; network := []; sent := [RefreshCall "r-old"];
        tokenManager := {| accessToken := Str "a1"; refreshToken := Str "r-old";
                           tokenExpiry := Some (DateOf (Scenario.now0 + 200 + 3600000)) |} |}).
Proof. vm_compute. reflexivity. Qed.

(** ** The further statements on the scenarios *)

(** A manager seeded from DAYLITE_ACCESS_TOKEN alone cannot refresh: once
    its token is stale the handler answers 500 and nothing is sent. *)
Lemma seeded_manager_cannot_refresh :
  truthy (refreshToken (tokenManager Scenario.w_stale_no_refresh_token)) = false /\
  needsRefresh (clock Scenario.w_stale_no_refresh_token)
    (tokenManager Scenario.w_stale_no_refresh_token) = true /\
  run (refreshAccessToken Iso8601.toISOString) Scenario.w_stale_no_refresh_token
  = (inl NoRefreshTokenAvailable, Scenario.w_stale_no_refresh_token) /\
  run (api_appointments Iso8601.Date_parse Iso8601.toISOString Iso8601.toLocaleTimeString)
    Scenario.w_stale_no_refresh_token
  = (inr Error500, Scenario.w_stale_no_refresh_token).
Proof.
  assert (Hnone : truthy (refreshToken (tokenManager Scenario.w_stale_no_refresh_token))
                  = false) by reflexivity.
  assert (Hstale : needsRefresh (clock Scenario.w_stale_no_refresh_token)
                     (tokenManager Scenario.w_stale_no_refresh_token) = true)
    by (vm_compute; reflexivity).
  destruct (no_refresh_token_no_request Iso8601.Date_parse Iso8601.toISOString
              Iso8601.toLocaleTimeString Scenario.w_stale_no_refresh_token Hnone)
    as [Hrefresh Hrest].
  destruct (Hrest Hstale) as [_ [_ [_ Hhandler]]].
  split; [exact Hnone|]. split; [exact Hstale|]. split; [exact Hrefresh|exact Hhandler].
Defined.

(** The granted refresh is one request with the held refresh token. *)
Lemma granted_refresh_is_one_request :
  truthy (refreshToken (tokenManager Scenario.w_granted)) = true /\
  hd_error (sent (snd (run (refreshAccessToken Iso8601.toISOString) Scenario.w_granted)))
  = Some (RefreshCall "r0") /\
  refresh_calls (sent (snd (run (refreshAccessToken Iso8601.toISOString) Scenario.w_granted)))
  = 1%nat /\
  count_sent is_api (snd (run (refreshAccessToken Iso8601.toISOString) Scenario.w_granted))
  = 0%nat /\
  List.length (network (snd (run (refreshAccessToken Iso8601.toISOString) Scenario.w_granted)))
  = 0%nat.
Proof.
  split; [reflexivity|].
  apply (refresh_sends_one_request Iso8601.toISOString Scenario.w_granted).
  reflexivity.
Defined.

(** The disk is full: the refresh throws the write error, the manager
    holds the grant, and tokens.json, missing before, is there and cannot
    be parsed. *)
Lemma unsaved_grant_stays_in_memory :
  run (refreshAccessToken Iso8601.toISOString) Scenario.w_grant_unsaved
  = (inl (RuntimeError "ENOSPC: no space left on device, write"),
     snd (run (refreshAccessToken Iso8601.toISOString) Scenario.w_grant_unsaved)) /\
  accessToken
    (tokenManager (snd (run (refreshAccessToken Iso8601.toISOString) Scenario.w_grant_unsaved)))
  = Str "a1" /\
  disk Scenario.w_grant_unsaved = Missing /\
  disk (snd (run (refreshAccessToken Iso8601.toISOString) Scenario.w_grant_unsaved))
  = Garbled /\
  ((tokenManager (snd (run (refreshAccessToken Iso8601.toISOString) Scenario.w_grant_unsaved))
    = tokenManager Scenario.w_grant_unsaved /\
    disk (snd (run (refreshAccessToken Iso8601.toISOString) Scenario.w_grant_unsaved))
    = disk Scenario.w_grant_unsaved) \/
   exists x rest r data,
     network Scenario.w_grant_unsaved = x :: rest /\ outcome x = Responded r /\
     ok r = true /\ json r = inr data /\
     tokenManager (snd (run (refreshAccessToken Iso8601.toISOString) Scenario.w_grant_unsaved))
     = granted (clock Scenario.w_grant_unsaved + latency x) data
         (tokenManager Scenario.w_grant_unsaved) /\
     ((tokens_of Iso8601.toISOString
         (tokenManager
            (snd (run (refreshAccessToken Iso8601.toISOString) Scenario.w_grant_unsaved)))
       = inl (RuntimeError "ENOSPC: no space left on device, write") /\
       disk (snd (run (refreshAccessToken Iso8601.toISOString) Scenario.w_grant_unsaved))
       = disk Scenario.w_grant_unsaved) \/
      exists failure tokens,
        write_error Scenario.w_grant_unsaved = Some failure /\
        RuntimeError "ENOSPC: no space left on device, write"
        = RuntimeError (reason failure) /\
        tokens_of Iso8601.toISOString
          (tokenManager
             (snd (run (refreshAccessToken Iso8601.toISOString) Scenario.w_grant_unsaved)))
        = inr tokens /\
        disk (snd (run (refreshAccessToken Iso8601.toISOString) Scenario.w_grant_unsaved))
        = after_failed_write (damage failure) tokens (disk Scenario.w_grant_unsaved))).
Proof.
  assert (Hrun : run (refreshAccessToken Iso8601.toISOString) Scenario.w_grant_unsaved
                 = (inl (RuntimeError "ENOSPC: no space left on device, write"),
                    snd (run (refreshAccessToken Iso8601.toISOString)
                           Scenario.w_grant_unsaved)))
    by (vm_compute; reflexivity).
  split; [exact Hrun|]. split; [vm_compute; reflexivity|]. split; [reflexivity|].
  split; [vm_compute; reflexivity|].
  apply (failed_refresh_disk_and_memory Iso8601.toISOString Scenario.w_grant_unsaved _ _ Hrun).
Defined.

(** After the granted refresh the manager holds the rotated refresh
    token. *)
Lemma rotated_refresh_token_is_kept :
  truthy (refreshToken (tokenManager Scenario.w_granted)) = true /\
  refreshToken
    (tokenManager (snd (run (refreshAccessToken Iso8601.toISOString) Scenario.w_granted)))
  = Str "r1" /\
  truthy
    (refreshToken
       (tokenManager (snd (run (refreshAccessToken Iso8601.toISOString) Scenario.w_granted))))
  = true.
Proof.
  split; [reflexivity|]. split; [vm_compute; reflexivity|].
  apply (refresh_token_is_never_lost Iso8601.Date_parse Iso8601.toISOString
           Iso8601.toLocaleTimeString Scenario.env_both Scenario.w_granted).
  reflexivity.
Defined.

(** A token that is stale now is stale a second later. *)
Lemma stale_a_second_later :
  Scenario.now0 <= Scenario.now0 + 1000 /\
  representable (Scenario.now0 + 1000 + 5 * 60 * 1000) /\
  needsRefresh Scenario.now0 Scenario.stale = true /\
  needsRefresh (Scenario.now0 + 1000) Scenario.stale = true.
Proof.
  assert (Hle : Scenario.now0 <= Scenario.now0 + 1000) by lia.
  assert (Hrep : representable (Scenario.now0 + 1000 + 5 * 60 * 1000))
    by (unfold representable, max_time, Scenario.now0; simpl; lia).
  assert (Hstale : needsRefresh Scenario.now0 Scenario.stale = true)
    by (vm_compute; reflexivity).
  split; [exact Hle|]. split; [exact Hrep|]. split; [exact Hstale|].
  apply (needsRefresh_stays_true Scenario.now0 (Scenario.now0 + 1000) Scenario.stale
           Hle Hrep Hstale).
Defined.

(** On a fresh token the contact lookup goes out with the held token and
    the manager is not touched. *)
Lemma fresh_token_goes_out_unchanged :
  needsRefresh (clock Scenario.w_empty_day) (tokenManager Scenario.w_empty_day) = false /\
  run (getValidToken Iso8601.toISOString) Scenario.w_empty_day
  = (inr "Bearer a0", Scenario.w_empty_day) /\
  sent (snd (run (authenticatedFetch Iso8601.toISOString GET
                    "https://api.marketcircle.net/v1/contacts/7") Scenario.w_empty_day))
  = [ApiCall GET "https://api.marketcircle.net/v1/contacts/7" "Bearer a0"] /\
  tokenManager (snd (run (authenticatedFetch Iso8601.toISOString GET
                            "https://api.marketcircle.net/v1/contacts/7")
                       Scenario.w_empty_day))
  = Scenario.fresh.
Proof.
  assert (Hfresh : needsRefresh (clock Scenario.w_empty_day)
                     (tokenManager Scenario.w_empty_day) = false)
    by (vm_compute; reflexivity).
  destruct (fresh_token_is_sent_as_is Iso8601.toISOString GET
              "https://api.marketcircle.net/v1/contacts/7" Scenario.w_empty_day
              (Scenario.answers (Scenario.found [])) []
              {| status := 200; text := "{}"; json := inr (Scenario.found []) |}
              Hfresh eq_refl eq_refl)
    as [Htoken [_ [Hsent [Hmgr _]]]].
  split; [exact Hfresh|]. split; [exact Htoken|]. split; [exact Hsent|exact Hmgr].
Defined.

(** A token granted for 1800 seconds is fresh for 1500 seconds from the
    clock read after the response, and stale from then on. *)
Lemma granted_token_is_fresh :
  run (refreshAccessToken Iso8601.toISOString) Scenario.w_granted
  = (inr tt, snd (run (refreshAccessToken Iso8601.toISOString) Scenario.w_granted)) /\
  needsRefresh (Scenario.now0 + 200 + 1499999)
    (tokenManager (snd (run (refreshAccessToken Iso8601.toISOString) Scenario.w_granted)))
  = false /\
  needsRefresh (Scenario.now0 + 200 + 1500000)
    (tokenManager (snd (run (refreshAccessToken Iso8601.toISOString) Scenario.w_granted)))
  = true /\
  exists x rest r data,
    network Scenario.w_granted = x :: rest /\ outcome x = Responded r /\
    json r = inr data /\
    let installed := clock Scenario.w_granted + latency x in
    let lifetime := num_or (expires_in data) 3600 in
    (forall t,
       representable (t + 5 * 60 * 1000) ->
       needsRefresh t
         (tokenManager
            (snd (run (refreshAccessToken Iso8601.toISOString) Scenario.w_granted)))
       = (installed + lifetime * 1000 <=? t + 5 * 60 * 1000)) /\
    (lifetime <= 300 ->
     forall t, installed <= t -> representable (t + 5 * 60 * 1000) ->
               needsRefresh t
                 (tokenManager
                    (snd (run (refreshAccessToken Iso8601.toISOString) Scenario.w_granted)))
               = true) /\
    (forall t, representable (t + 5 * 60 * 1000) ->
               (needsRefresh t
                  (tokenManager
                     (snd (run (refreshAccessToken Iso8601.toISOString)
                             Scenario.w_granted)))
                = false <->
                t < installed + (lifetime - 300) * 1000)).
Proof.
  assert (Hrun : run (refreshAccessToken Iso8601.toISOString) Scenario.w_granted
                 = (inr tt,
                    snd (run (refreshAccessToken Iso8601.toISOString) Scenario.w_granted)))
    by (vm_compute; reflexivity).
  split; [exact Hrun|]. split; [vm_compute; reflexivity|].
  split; [vm_compute; reflexivity|].
  apply (freshness_after_refresh Iso8601.toISOString Scenario.w_granted _ Hrun).
Defined.

(** A tokens.json with a fresh token is taken as it is: no token of the
    environment is used and nothing is requested. *)
Lemma fresh_file_beats_environment :
  disk Scenario.w_fresh_file = Stored Scenario.fresh_tokens /\
  tokenManager Scenario.w_fresh_file = new_TokenManager Scenario.env_both /\
  needsRefresh (clock Scenario.w_fresh_file)
    (loaded Iso8601.Date_parse Scenario.fresh_tokens (tokenManager Scenario.w_fresh_file))
  = false /\
  exists m,
    run (initialize Iso8601.Date_parse Iso8601.toISOString Scenario.env_both)
      Scenario.w_fresh_file
    = (inr tt, with_manager m Scenario.w_fresh_file) /\
    accessToken m = Str "a-file" /\
    refreshToken m = Str "r-file".
Proof.
  assert (Hfresh : needsRefresh (clock Scenario.w_fresh_file)
                     (loaded Iso8601.Date_parse Scenario.fresh_tokens
                        (tokenManager Scenario.w_fresh_file)) = false)
    by (vm_compute; reflexivity).
  split; [reflexivity|]. split; [reflexivity|]. split; [exact Hfresh|].
  apply (stored_tokens_win_over_environment Iso8601.Date_parse Iso8601.toISOString
           Scenario.env_both Scenario.w_fresh_file Scenario.fresh_tokens
           eq_refl eq_refl Hfresh).
Defined.


(** Started on a tokens.json with a fresh token, the server listens. *)
Lemma fresh_file_server_listens :
  fst (run (startServer Iso8601.Date_parse Iso8601.toISOString Scenario.env_both)
         Scenario.w_fresh_file) = inr Listening /\
  tokenExpiry
    (tokenManager
       (snd (run (startServer Iso8601.Date_parse Iso8601.toISOString Scenario.env_both)
               Scenario.w_fresh_file))) <> None.
Proof.
  assert (Hl : fst (run (startServer Iso8601.Date_parse Iso8601.toISOString Scenario.env_both)
                      Scenario.w_fresh_file) = inr Listening)
    by (vm_compute; reflexivity).
  split; [exact Hl|].
  destruct (listening_server_has_expiry_and_file Iso8601.Date_parse Iso8601.toISOString
              Scenario.env_both Scenario.w_fresh_file) as [st [w' [Hrun [_ Hlistening]]]].
  rewrite Hrun in Hl |- *. cbn [fst snd] in Hl |- *.
  injection Hl as Hst. exact (proj1 (Hlistening Hst)).
Defined.

(** The connection is refused on port 401: the handler takes the error
    for an authorization failure and refreshes the token. *)
Lemma port_401_triggers_refresh :
  needsRefresh (clock Scenario.w_connection_refused)
    (tokenManager Scenario.w_connection_refused) = false /\
  includes "connect ECONNREFUSED 10.0.0.7:401" "401" = true /\
  In (RefreshCall "r0")
    (sent (snd (run (api_appointments Iso8601.Date_parse Iso8601.toISOString
                       Iso8601.toLocaleTimeString) Scenario.w_connection_refused))).
Proof.
  assert (Hfresh : needsRefresh (clock Scenario.w_connection_refused)
                     (tokenManager Scenario.w_connection_refused) = false)
    by (vm_compute; reflexivity).
  assert (Hin : includes "connect ECONNREFUSED 10.0.0.7:401" "401" = true)
    by (vm_compute; reflexivity).
  split; [exact Hfresh|]. split; [exact Hin|].
  apply (transport_error_dispatch Iso8601.Date_parse Iso8601.toISOString
           Iso8601.toLocaleTimeString Scenario.w_connection_refused
           Scenario.refused_connection
           [Scenario.answers (Scenario.grant (Str "a1") (Str "r1") (Some 3600));
            Scenario.answers (Scenario.found [])]
           "connect ECONNREFUSED 10.0.0.7:401" Hfresh eq_refl eq_refl eq_refl).
  exact Hin.
Defined.

(** The API answers the search with status 500: the display is told
    there are no meetings. *)
Lemma server_error_shows_no_meetings :
  needsRefresh (clock Scenario.w_internal_error) (tokenManager Scenario.w_internal_error)
  = false /\
  ok Scenario.internal_error = false /\
  exists w',
    run (getAppointmentsForToday Iso8601.Date_parse Iso8601.toISOString)
      Scenario.w_internal_error = (inr [], w') /\
    run (api_appointments Iso8601.Date_parse Iso8601.toISOString Iso8601.toLocaleTimeString)
      Scenario.w_internal_error = (inr (Json200 []), w') /\
    sent w' = ApiCall POST search_url "Bearer a0" :: sent Scenario.w_internal_error /\
    tokenManager w' = tokenManager Scenario.w_internal_error.
Proof.
  assert (Hfresh : needsRefresh (clock Scenario.w_internal_error)
                     (tokenManager Scenario.w_internal_error) = false)
    by (vm_compute; reflexivity).
  split; [exact Hfresh|]. split; [reflexivity|].
  apply (error_status_shows_as_empty_list Iso8601.Date_parse Iso8601.toISOString
           Iso8601.toLocaleTimeString Scenario.w_internal_error
           {| latency := 200; outcome := Responded Scenario.internal_error |} []
           Scenario.internal_error Scenario.error_body Hfresh eq_refl eq_refl).
  - intros H. discriminate H.
  - reflexivity.
  - reflexivity.
Defined.

(** One record found, one appointment made from it. *)
Lemma one_meeting_one_appointment :
  run (getAppointmentsForToday Iso8601.Date_parse Iso8601.toISOString) Scenario.w_one_meeting
  = (inr [Scenario.review],
     snd (run (getAppointmentsForToday Iso8601.Date_parse Iso8601.toISOString)
            Scenario.w_one_meeting)) /\
  exists res w1 data,
    run (authenticatedFetch Iso8601.toISOString POST search_url) Scenario.w_one_meeting
    = (inr res, w1) /\
    json res = inr data /\
    Forall2 (made_from Iso8601.Date_parse)
      match results data with Some rs => rs | None => [] end [Scenario.review] /\
    List.length [Scenario.review]
    = List.length match results data with Some rs => rs | None => [] end.
Proof.
  assert (Hrun : run (getAppointmentsForToday Iso8601.Date_parse Iso8601.toISOString)
                   Scenario.w_one_meeting
                 = (inr [Scenario.review],
                    snd (run (getAppointmentsForToday Iso8601.Date_parse Iso8601.toISOString)
                           Scenario.w_one_meeting)))
    by (vm_compute; reflexivity).
  split; [exact Hrun|].
  apply (appointments_follow_results Iso8601.Date_parse Iso8601.toISOString
           Scenario.w_one_meeting _ _ Hrun).
Defined.

(** The appointment that books both rooms is shown in the small one. *)
Lemma both_rooms_is_small :
  map room
    match fst (run (getAppointmentsForToday Iso8601.Date_parse Iso8601.toISOString)
                 Scenario.w_two_rooms) with
    | inr l => l
    | inl _ => []
    end = ["Large"; "Small"] /\
  exists res w1 data,
    run (authenticatedFetch Iso8601.toISOString POST search_url) Scenario.w_two_rooms
    = (inr res, w1) /\
    json res = inr data /\
    Forall2
      (fun a b =>
         (room b = "Large" <-> resources a = Some ["/v1/resources/2015"]) /\
         (room b = "Small" <-> resources a <> Some ["/v1/resources/2015"]) /\
         (forall x y rest, resources a = Some (x :: y :: rest) -> room b = "Small"))
      match results data with Some rs => rs | None => [] end
      match fst (run (getAppointmentsForToday Iso8601.Date_parse Iso8601.toISOString)
                   Scenario.w_two_rooms) with
      | inr l => l
      | inl _ => []
      end.
Proof.
  assert (Hrun : run (getAppointmentsForToday Iso8601.Date_parse Iso8601.toISOString)
                   Scenario.w_two_rooms
                 = (inr match fst (run (getAppointmentsForToday Iso8601.Date_parse
                                          Iso8601.toISOString) Scenario.w_two_rooms) with
                        | inr l => l
                        | inl _ => []
                        end,
                    snd (run (getAppointmentsForToday Iso8601.Date_parse Iso8601.toISOString)
                           Scenario.w_two_rooms)))
    by (vm_compute; reflexivity).
  split; [vm_compute; reflexivity|].
  apply (large_room_only_for_single_resource Iso8601.Date_parse Iso8601.toISOString
           Scenario.w_two_rooms _ _ Hrun).
Defined.

(** One record without resources: no appointment is returned, not even
    the one of the record before it. *)
Lemma unplaced_record_fails_the_list :
  run (authenticatedFetch Iso8601.toISOString POST search_url) Scenario.w_unplaced
  = (inr {| status := 200; text := "{}";
            json := inr (Scenario.found [Scenario.meeting; Scenario.unplaced]) |},
     snd (run (authenticatedFetch Iso8601.toISOString POST search_url) Scenario.w_unplaced)) /\
  In Scenario.unplaced [Scenario.meeting; Scenario.unplaced] /\
  resources Scenario.unplaced = None /\
  exists e,
    fst (run (getAppointmentsForToday Iso8601.Date_parse Iso8601.toISOString)
           Scenario.w_unplaced) = inl e.
Proof.
  assert (Hrun : run (authenticatedFetch Iso8601.toISOString POST search_url)
                   Scenario.w_unplaced
                 = (inr {| status := 200; text := "{}";
                           json := inr (Scenario.found
                                          [Scenario.meeting; Scenario.unplaced]) |},
                    snd (run (authenticatedFetch Iso8601.toISOString POST search_url)
                           Scenario.w_unplaced)))
    by (vm_compute; reflexivity).
  assert (Hin : In Scenario.unplaced [Scenario.meeting; Scenario.unplaced])
    by (right; left; reflexivity).
  split; [exact Hrun|]. split; [exact Hin|]. split; [reflexivity|].
  apply (record_without_resources_fails_all Iso8601.Date_parse Iso8601.toISOString
           Scenario.w_unplaced _ _ (Scenario.found [Scenario.meeting; Scenario.unplaced])
           [Scenario.meeting; Scenario.unplaced] Scenario.unplaced Hrun eq_refl eq_refl Hin
           eq_refl).
Defined.

(** One meeting with one contact: the search and one lookup. *)
Lemma one_meeting_two_requests :
  run (getAppointmentsForToday Iso8601.Date_parse Iso8601.toISOString) Scenario.w_one_meeting
  = (inr [Scenario.review],
     snd (run (getAppointmentsForToday Iso8601.Date_parse Iso8601.toISOString)
            Scenario.w_one_meeting)) /\
  count_sent is_api
    (snd (run (getAppointmentsForToday Iso8601.Date_parse Iso8601.toISOString)
            Scenario.w_one_meeting)) = 2%nat /\
  exists res w1 data,
    run (authenticatedFetch Iso8601.toISOString POST search_url) Scenario.w_one_meeting
    = (inr res, w1) /\
    json res = inr data /\
    count_sent is_api
      (snd (run (getAppointmentsForToday Iso8601.Date_parse Iso8601.toISOString)
              Scenario.w_one_meeting))
    = (count_sent is_api Scenario.w_one_meeting + 1
       + list_sum (map lookups match results data with Some rs => rs | None => [] end))%nat /\
    Forall2 (fun a b => (List.length (names b) <= lookups a)%nat)
      match results data with Some rs => rs | None => [] end [Scenario.review].
Proof.
  assert (Hrun : run (getAppointmentsForToday Iso8601.Date_parse Iso8601.toISOString)
                   Scenario.w_one_meeting
                 = (inr [Scenario.review],
                    snd (run (getAppointmentsForToday Iso8601.Date_parse Iso8601.toISOString)
                           Scenario.w_one_meeting)))
    by (vm_compute; reflexivity).
  split; [exact Hrun|]. split; [vm_compute; reflexivity|].
  apply (one_request_per_contact Iso8601.Date_parse Iso8601.toISOString
           Scenario.w_one_meeting _ _ Hrun).
Defined.

(** Every appointment shown from the agenda is in progress with 0 minutes
    or upcoming with its minutes, rounded, between 0 and 30. *)
Lemma agenda_status_and_minutes :
  representable (Scenario.now0 + 30 * 60 * 1000) /\
  map (fun x => (status' x, minutesUntilStart x))
    (filterRelevantAppointments Iso8601.toLocaleTimeString Scenario.now0
       (fun _ => Scenario.now0) Scenario.agenda)
  = [("in-progress", Some 0); ("upcoming", Some 10)] /\
  Forall
    (fun x =>
       In (appt x) Scenario.agenda /\
       formattedStartTime x = Iso8601.toLocaleTimeString (start (appt x)) /\
       formattedEndTime x = Iso8601.toLocaleTimeString (end_ (appt x)) /\
       (in_progress Scenario.now0 (appt x) /\
        status' x = "in-progress" /\ minutesUntilStart x = Some 0 \/
        starts_soon Scenario.now0 (appt x) /\
        status' x = "upcoming" /\
        exists s,
          start (appt x) = DateOf s /\
          minutesUntilStart x = Some ((s - Scenario.now0 + 30000) / 60000) /\
          0 <= (s - Scenario.now0 + 30000) / 60000 <= 30))
    (filterRelevantAppointments Iso8601.toLocaleTimeString Scenario.now0
       (fun _ => Scenario.now0) Scenario.agenda).
Proof.
  assert (Hrep : representable (Scenario.now0 + 30 * 60 * 1000))
    by (unfold representable, max_time, Scenario.now0; simpl; lia).
  split; [exact Hrep|]. split; [vm_compute; reflexivity|].
  apply Forall_forall. intros x Hx.
  apply (shown_status_and_minutes Iso8601.toLocaleTimeString Scenario.now0 Scenario.agenda x
           Hrep Hx).
Defined.

(** Without DAYLITE_REFRESH_TOKEN the script exits with code 1 and sends
    nothing. *)
Lemma script_without_token_exits :
  truthy (DAYLITE_REFRESH_TOKEN Scenario.env_access_only) = false /\
  run (testTokenRefresh Scenario.env_access_only) Scenario.w_granted
  = (inr (ScriptExit 1), Scenario.w_granted).
Proof.
  split; [reflexivity|].
  apply (proj1 (proj2 (proj2 (proj2 (proj2
           (script_exits_and_leaves_files_alone Scenario.env_access_only
              Scenario.w_granted)))))).
  reflexivity.
Defined.

(** The script is granted an access token the API rejects: it prints the
    access token and the refresh token the server would hold after the
    same refresh. *)
Lemma script_and_server_agree :
  refreshToken (tokenManager Scenario.w_script)
  = refreshToken (new_TokenManager Scenario.env_refresh_only) /\
  fst (run (testTokenRefresh Scenario.env_refresh_only) Scenario.w_script)
  = inr (ScriptDone Scenario.script_advice) /\
  "a1" = to_string
           (accessToken
              (tokenManager
                 (snd (run (refreshAccessToken Iso8601.toISOString) Scenario.w_script)))) /\
  "r-env" = to_string
              (refreshToken
                 (tokenManager
                    (snd (run (refreshAccessToken Iso8601.toISOString) Scenario.w_script)))) /\
  sent (snd (run (testTokenRefresh Scenario.env_refresh_only) Scenario.w_script))
  = [ApiCall GET test_url "Bearer a1"; RefreshCall "r-env"].
Proof.
  assert (Hdone : fst (run (testTokenRefresh Scenario.env_refresh_only) Scenario.w_script)
                  = inr (ScriptDone Scenario.script_advice))
    by (vm_compute; reflexivity).
  split; [reflexivity|]. split; [exact Hdone|].
  apply (script_advises_what_the_server_installs Iso8601.toISOString
           Scenario.env_refresh_only Scenario.w_script Scenario.script_advice eq_refl Hdone).
Defined.

(** The second caller gets the new token while tokens.json is still
    missing. *)
Lemma second_caller_gets_unsaved_token :
  needsRefresh Scenario.now0 Scenario.stale = true /\
  needsRefresh (Scenario.now0 + 201)
    (granted (Scenario.now0 + 200) (Scenario.grant (Str "a1") (Str "r1") (Some 3600))
       Scenario.stale) = false /\
  file (shared (exec (getValidToken Iso8601.toISOString)
                  [Call Scenario.now0;
                   Settle 0 (Scenario.now0 + 200)
                     (FetchSettled
                        (Responded
                           {| status := 200; text := "{}";
                              json := inr (Scenario.grant (Str "a1") (Str "r1")
                                             (Some 3600)) |}));
                   Settle 0 (Scenario.now0 + 200) Resumed;
                   Call (Scenario.now0 + 201)]
                  (boot Scenario.stale Missing))) = Missing /\
  nth_error
    (calls (exec (getValidToken Iso8601.toISOString)
              [Call Scenario.now0;
               Settle 0 (Scenario.now0 + 200)
                 (FetchSettled
                    (Responded
                       {| status := 200; text := "{}";
                          json := inr (Scenario.grant (Str "a1") (Str "r1")
                                         (Some 3600)) |}));
               Settle 0 (Scenario.now0 + 200) Resumed;
               Call (Scenario.now0 + 201)]
              (boot Scenario.stale Missing))) 1
  = Some (Ret "Bearer a1").
Proof.
  assert (Hstale : needsRefresh Scenario.now0 Scenario.stale = true)
    by (vm_compute; reflexivity).
  assert (Hfresh : needsRefresh (Scenario.now0 + 201)
                     (granted (Scenario.now0 + 200)
                        (Scenario.grant (Str "a1") (Str "r1") (Some 3600))
                        Scenario.stale) = false)
    by (vm_compute; reflexivity).
  destruct (refreshed_token_is_shared_before_it_is_saved Iso8601.toISOString
              Scenario.stale Missing Scenario.now0 (Scenario.now0 + 200)
              (Scenario.now0 + 200) (Scenario.now0 + 201)
              {| status := 200; text := "{}";
                 json := inr (Scenario.grant (Str "a1") (Str "r1") (Some 3600)) |}
              (Scenario.grant (Str "a1") (Str "r1") (Some 3600))
              Hstale eq_refl eq_refl eq_refl Hfresh)
    as [_ [Hfile [_ [Hsecond _]]]].
  split; [exact Hstale|]. split; [exact Hfresh|]. split; [exact Hfile|exact Hsecond].
Defined.
